(** * elwiz-prices: interval normaliser, cache coordinator, rollover
      publisher and path resolver

    A shallow embedding of the parts of the repository that the
    specification talks about, and the properties proved about them.

    The model comes first:
    - [Js]          : the outcome of a call that may throw.
    - [Normalizer]  : the interval normaliser (normalizeSeries and helpers),
                      over the time zone and the date-fns of the runtime.
    - [Json]        : the JSON values held by the caches and served by the API.
    - [Rest]        : RestServer._fetchPriceObject, _getByPath and the routes
                      that resolve a path below a date.
    - [Manager]     : PriceManager (price cache, currency rates, clean-up).
    - [Cli]         : handleMqttPublishing of the command line entry point.
    - [Samples]     : concrete servers, environments and caches.

    The properties follow, one module per component ([NormalizerFacts],
    [RestFacts], [ManagerFacts], [CliFacts]) and [Witnesses].

    JavaScript built-ins are modelled by what they compute on the values the
    code hands them; where a built-in is not modelled, the comment on the
    definition that stands for it says so. *)

From stdpp Require Import gmap strings list fin_maps numbers sorting pretty.
From Stdlib Require Import ZArith QArith Qcanon Lia Ascii.

#[local] Set Warnings "-register-all".

Local Open Scope string_scope.
Local Open Scope list_scope.
Local Open Scope Z_scope.

(* ===================================================================== *)
(** * Results of calls that may throw                                     *)
(* ===================================================================== *)

Module Js.

(** The outcome of a call: a value, or an exception with its message. *)
Inductive result (A : Type) : Type :=
| Ok (a : A)
| Throw (message : string).
Arguments Ok {A} a.
Arguments Throw {A} message.

(** [obj?.method?.()]: undefined when the method is missing. *)
Definition optCall {A : Type} (method : option (result A)) : result (option A) :=
  match method with
  | None => Ok None
  | Some (Ok a) => Ok (Some a)
  | Some (Throw m) => Throw m
  end.

Definition bind {A B : Type} (r : result A) (k : A -> result B) : result B :=
  match r with Ok a => k a | Throw m => Throw m end.

End Js.

(* ===================================================================== *)
(** * The interval normaliser                                             *)
(* ===================================================================== *)

Module Normalizer.
Import Js.

(** ** Values

    The elements of [points] are values as JSON and plain JavaScript code
    make them: primitives, arrays, plain objects and Date objects, whose
    properties are data.  Wrapper objects and objects with conversion methods
    or accessors of their own are outside the model.

    A timestamp field of an incoming point is any such value.  The
    normaliser asks of it: is it falsy, is it a string, what does parsing
    make of it (parseISO for a string, the Date constructor otherwise).
    [JsTime] is that classification; instants are milliseconds since the
    epoch. *)
Inductive JsTime : Type :=
| TFalsy                      (* undefined, null, the empty string, 0, NaN, false *)
| TUnparsable                 (* a non-empty string that parseISO does not read *)
| TInstant (ms : Z)           (* a non-empty string that parseISO reads, or a truthy
                                 non-string of which the Date constructor makes a
                                 date: the instant it denotes *)
| TInvalid                    (* a truthy non-string of which the Date constructor
                                 makes Invalid Date *)
| TThrows (message : string). (* a symbol or a bigint: the Date constructor throws *)

(** A number: NaN, a finite number or an infinity.  Finite numbers are exact
    rationals: IEEE rounding, overflow and the sign of zero are outside the
    model. *)
Inductive JsNumber : Type :=
| NaN
| Num (q : Qc)
| PosInf
| NegInf.

(** The [value] field of an incoming point. *)
Inductive JsValue : Type :=
| VUndefined
| VNull
| VBoolean (b : bool)
| VNumber (n : JsNumber)
| VOther (converted : result JsNumber).
    (* a string, an array, an object, a symbol, a bigint: what Number makes
       of it, or what Number throws *)

(** [Number(value)]. *)
Definition Number (value : JsValue) : result JsNumber :=
  match value with
  | VUndefined => Ok NaN
  | VNull => Ok (Num 0%Qc)
  | VBoolean b => Ok (Num (if b then 1%Qc else 0%Qc))
  | VNumber n => Ok n
  | VOther converted => converted
  end.

(** [a + b]. *)
Definition jsAdd (a b : JsNumber) : JsNumber :=
  match a, b with
  | NaN, _ | _, NaN => NaN
  | Num x, Num y => Num (x + y)%Qc
  | PosInf, NegInf | NegInf, PosInf => NaN
  | PosInf, _ | _, PosInf => PosInf
  | NegInf, _ | _, NegInf => NegInf
  end.

(** [a / n] for an integer n.  The code divides by a count or a number of
    slices, which are positive; zero is the positive zero. *)
Definition jsDiv (a : JsNumber) (n : Z) : JsNumber :=
  match a with
  | NaN => NaN
  | Num q =>
      if n =? 0 then
        if bool_decide (q = 0%Qc) then NaN
        else if bool_decide (0 < q)%Qc then PosInf else NegInf
      else Num (q / Q2Qc (inject_Z n))%Qc
  | PosInf => if 0 <=? n then PosInf else NegInf
  | NegInf => if 0 <=? n then NegInf else PosInf
  end.

(** The four properties the normaliser reads of a point, with the value as
    it comes in ([RawPoint]) or after [Number] ([MappedPoint]). *)
Record PointOf (V : Type) : Type := mkPointOf {
  start : JsTime;
  end_ : JsTime;
  value : V;
  currency : option string       (* None is undefined *)
}.
Arguments mkPointOf {V} start end_ value currency.
Arguments start {V} p.
Arguments end_ {V} p.
Arguments value {V} p.
Arguments currency {V} p.

Definition RawPoint : Type := PointOf JsValue.
Definition MappedPoint : Type := PointOf JsNumber.

Definition mkRawPoint (start end_ : JsTime) (value : JsValue) (currency : option string)
    : RawPoint :=
  mkPointOf start end_ value currency.

(** A point that survived the filter: start and end are strings that
    formatISO wrote and that parseISO reads back, represented by the instants
    they denote.  The passes are handed such points only.  What a pass
    returns is written the same way; a window that expandToQuarterHour puts
    past the end of the year 9999 holds a string that parseISO does not read,
    which shows when the series is handed back ([reread]). *)
Record Point : Type := mkPoint {
  p_start : Z;
  p_end : Z;
  p_value : JsNumber;
  p_currency : option string
}.

(** An element of the array: a hole, undefined, null, or a value whose
    properties can be read.  A number, a string or a boolean as an element
    reads as an object without the four properties. *)
Inductive Element : Type :=
| EHole
| EUndefined
| ENull
| EObject (point : RawPoint).

(** The [points] argument of normalizeSeries. *)
Inductive JsPoints : Type :=
| NotArray
| Array (elements : list Element).

(** What the code takes from its surroundings: the local time zone as the
    two functions of ECMAScript, LocalTime (from an instant to the local
    clock) and UTC (from the local clock to an instant: a local time that a
    clock change repeats or skips is read with the offset before the change),
    and what parseISO does with an argument that is not a string: date-fns 2
    answers Invalid Date ([None]), date-fns 3 and later throw a TypeError
    ([Some] of its message).  The offsets of the zone are whole minutes. *)
Record Runtime : Type := mkRuntime {
  LocalTime : Z -> Z;
  UTC : Z -> Z;
  parseISOThrows : option string
}.

Definition truthy (t : JsTime) : bool :=
  match t with TFalsy => false | _ => true end.

Definition truthyStr (c : option string) : bool :=
  match c with Some s => negb (String.eqb s "") | None => false end.

(** [Number.isNaN]. *)
Definition isNaN (n : JsNumber) : bool :=
  match n with NaN => true | _ => false end.

(** [formatISO(date, {representation: "complete"})] prints the local date,
    the local time to the second and the zone offset: the string denotes the
    instant cut to whole seconds.  The formatted string is represented by
    that instant. *)
Definition formatISO (ms : Z) : Z := 1000 * (ms / 1000).

(** Whether parseISO reads what formatISO wrote.  formatISO pads the local
    year to four digits and puts a sign before a negative one; parseISO
    reads a year of four digits, or of six digits with a sign.  So the string
    is read when its local year, the year on the local clock at the instant
    that the string denotes, is one of 0000 to 9999. *)
Definition readable (rt : Runtime) (ms : Z) : bool :=
  (-62167219200000 <=? LocalTime rt (formatISO ms))
  && (LocalTime rt (formatISO ms) <? 253402300800000).

Definition toLocalIso (rt : Runtime) (value : JsTime) : result JsTime :=
  match value with
  | TFalsy => Ok TFalsy
  | TUnparsable => Ok TUnparsable
  | TInstant ms => Ok (if readable rt ms then TInstant (formatISO ms) else TUnparsable)
  | TInvalid => Ok TInvalid
  | TThrows message => Throw message
  end.

(** The filter calls isValidDate on truthy values only. *)
Definition isValidDate (rt : Runtime) (value : JsTime) : result bool :=
  match value with
  | TInstant _ => Ok true
  | TFalsy | TUnparsable => Ok false
  | TInvalid | TThrows _ =>
      match parseISOThrows rt with
      | Some message => Throw message
      | None => Ok false
      end
  end.

(** [Math.round(n / d)] for integers n and d > 0: the nearest integer, ties
    towards plus infinity. *)
Definition roundDiv (n d : Z) : Z := (2 * n + d) / (2 * d).

(** ** Sorting

    [Array.prototype.sort] is stable; with the comparator
    [(a, b) => key(a) - key(b)] it is the stable sort by [key].  Any stable
    sort computes the same list; insertion from the right is the one used
    here. *)
Section Sort.
Context {A : Type} (key : A -> Z).

Fixpoint insertBy (x : A) (l : list A) : list A :=
  match l with
  | [] => [x]
  | y :: l' => if key x <=? key y then x :: l else y :: insertBy x l'
  end.

Definition sortBy (l : list A) : list A := foldr insertBy [] l.

End Sort.

(** ** normalizeSeries, stage one: map, filter, sort *)

(** [Array.prototype.map] and [filter] with a callback that may throw: the
    first exception ends the call. *)
Fixpoint mapR {A B : Type} (f : A -> result B) (l : list A) : result (list B) :=
  match l with
  | [] => Ok []
  | x :: l' => bind (f x) (fun y => bind (mapR f l') (fun ys => Ok (y :: ys)))
  end.

Fixpoint filterR {A : Type} (f : A -> result bool) (l : list A) : result (list A) :=
  match l with
  | [] => Ok []
  | x :: l' =>
      bind (f x) (fun keep =>
      bind (filterR f l') (fun xs => Ok (if keep then x :: xs else xs)))
  end.

Definition mapPoint (rt : Runtime) (point : RawPoint) : result MappedPoint :=
  bind (toLocalIso rt (start point)) (fun start' =>
  bind (toLocalIso rt (end_ point)) (fun end' =>
  bind (Number (value point)) (fun value' =>
  Ok (mkPointOf start' end' value' (currency point))))).

(** The callback of map on an element: a hole is skipped, reading a
    property of undefined or null is a TypeError. *)
Definition mapElement (rt : Runtime) (element : Element) : result (option MappedPoint) :=
  match element with
  | EHole => Ok None
  | EUndefined => Throw "Cannot read properties of undefined (reading 'start')"
  | ENull => Throw "Cannot read properties of null (reading 'start')"
  | EObject point => bind (mapPoint rt point) (fun mapped => Ok (Some mapped))
  end.

(** The callback of filter: the conjunction is evaluated from the left and
    stops at the first falsy operand. *)
Definition keepPoint (rt : Runtime) (point : MappedPoint) : result bool :=
  if truthy (start point) && truthy (end_ point) && negb (isNaN (value point))
  then bind (isValidDate rt (start point)) (fun valid =>
         if valid then isValidDate rt (end_ point) else Ok false)
  else Ok false.

(** What a kept point is, once the filter has established it. *)
Definition asPoint (point : MappedPoint) : option Point :=
  match start point, end_ point with
  | TInstant s, TInstant e => Some (mkPoint s e (value point) (currency point))
  | _, _ => None
  end.

Definition sortedPoints (rt : Runtime) (elements : list Element) : result (list Point) :=
  bind (mapR (mapElement rt) elements) (fun mapped =>
  bind (filterR (keepPoint rt) (omap id mapped)) (fun kept =>
  Ok (sortBy p_start (omap asPoint kept)))).

(** ** detectInterval *)

Definition detectInterval (points : list Point) : option string :=
  match points with
  | first :: second :: _ =>
      let diffMinutes := roundDiv (p_start second - p_start first) 60000 in
      if diffMinutes =? 15 then Some "15m"
      else if diffMinutes =? 60 then Some "1h"
      else if 48 <? Z.of_nat (length points) then Some "15m" else Some "1h"
  | _ => None
  end.

(** ** aggregateToHourly *)

Section Zone.
Variable rt : Runtime.

(** [hourStart.setMinutes(0, 0, 0)]: minutes, seconds and milliseconds of
    the local clock are set to zero, and the local time is taken back to an
    instant. *)
Definition hourStart (ms : Z) : Z :=
  UTC rt (LocalTime rt ms / 3600000 * 3600000).

Record Bucket : Type := mkBucket {
  b_start : Z;
  b_end : Z;
  b_sum : JsNumber;
  b_count : Z;
  b_currency : option string
}.

(** [buckets.get(key) || fresh], updated, then [buckets.set(key, bucket)].
    A JavaScript Map keeps its keys in insertion order. *)
Definition updateBucket (point : Point) (found : option Bucket) : Bucket :=
  let bucket :=
    match found with
    | Some b => b
    | None => mkBucket (p_start point) (p_end point) (Num 0%Qc) 0 (p_currency point)
    end in
  let sum := jsAdd (b_sum bucket) (p_value point) in
  let count := b_count bucket + 1 in
  let start := if p_start point <? b_start bucket then p_start point else b_start bucket in
  let end' := if b_end bucket <? p_end point then p_end point else b_end bucket in
  let cur := if truthyStr (b_currency bucket) then b_currency bucket else p_currency point in
  mkBucket start end' sum count cur.

Fixpoint upsert (key : Z) (point : Point) (buckets : list (Z * Bucket)) : list (Z * Bucket) :=
  match buckets with
  | [] => [(key, updateBucket point None)]
  | (k, b) :: rest =>
      if k =? key then (k, updateBucket point (Some b)) :: rest
      else (k, b) :: upsert key point rest
  end.

Definition addPoint (buckets : list (Z * Bucket)) (point : Point) : list (Z * Bucket) :=
  upsert (hourStart (p_start point)) point buckets.

(** [Number(bucket.sum || 0)]: zero for a sum that is falsy. *)
Definition sumOrZero (sum : JsNumber) : JsNumber :=
  match sum with NaN => Num 0%Qc | _ => sum end.

(** The point of a bucket.  A bucket always counts at least one point. *)
Definition bucketPoint (bucket : Bucket) : Point :=
  mkPoint (b_start bucket) (b_end bucket)
    (if 0 <? b_count bucket
     then jsDiv (b_sum bucket) (b_count bucket)
     else sumOrZero (b_sum bucket))
    (b_currency bucket).

Definition aggregateToHourly (points : list Point) : list Point :=
  map bucketPoint (sortBy b_start (map snd (foldl addPoint [] points))).

(** ** expandToQuarterHour *)

(** [point.end] is truthy on every point that passed the filter, so the
    duration is always measured (the default of 60 minutes is for a missing
    end). *)
Definition slicesOf (point : Point) : Z :=
  let durationMinutes := Z.max 15 (roundDiv (p_end point - p_start point) 60000) in
  Z.max 1 (roundDiv durationMinutes 15).

(** [date.setMinutes(date.getMinutes() + minutes)]: the minutes are added on
    the local clock, and the local time is taken back to an instant. *)
Definition addMinutes (date : Z) (minutes : Z) : Z :=
  UTC rt (LocalTime rt date + minutes * 60000).

Definition expandPoint (point : Point) : list Point :=
  let slices := slicesOf point in
  let sliceValue := jsDiv (p_value point) slices in
  map (fun index =>
         let sliceStart := addMinutes (p_start point) (index * 15) in
         let sliceEnd := addMinutes sliceStart 15 in
         mkPoint (formatISO sliceStart) (formatISO sliceEnd) sliceValue (p_currency point))
      (seqZ 0 slices).

Definition expandToQuarterHour (points : list Point) : list Point :=
  sortBy p_start (concat (map expandPoint points)).

(** ** normalizeSeries *)

Definition normalizeSeries (points : JsPoints) (targetInterval : string)
    : result (list Point) :=
  match points with
  | NotArray => Ok []
  | Array [] => Ok []
  | Array elements =>
      bind (sortedPoints rt elements) (fun sorted =>
      let sourceInterval := detectInterval sorted in
      Ok (if String.eqb targetInterval "1h" then
            if bool_decide (sourceInterval = Some "1h") then sorted
            else aggregateToHourly sorted
          else if String.eqb targetInterval "15m" then
            if bool_decide (sourceInterval = Some "15m") then sorted
            else expandToQuarterHour sorted
          else sorted))
  end.

End Zone.

(** ** The spec's count heuristic, and the re-entry of a series *)

(** The count heuristic as the specification words it. *)
Definition countHeuristic (points : list Point) : string :=
  if 48 <? Z.of_nat (length points) then "15m" else "1h".



Definition byKey {A : Type} (key : A -> Z) : relation A := fun x y => key x <= key y.

(** The point that an element leaves in the sorted stage, if it leaves one:
    start and end denote instants that are read back once formatted, and the
    value converts to a number other than NaN. *)
Definition survivor (rt : Runtime) (element : Element) : option Point :=
  match element with
  | EObject point =>
      match start point, end_ point, Number (value point) with
      | TInstant s, TInstant e, Ok v =>
          if readable rt s && readable rt e && negb (isNaN v)
          then Some (mkPoint (formatISO s) (formatISO e) v (currency point))
          else None
      | _, _, _ => None
      end
  | _ => None
  end.



(** ** Zones without clock changes *)

(** Local time is ahead of UTC by the same [offset] at every instant. *)
Definition fixedOffset (rt : Runtime) (offset : Z) : Prop :=
  (forall t, LocalTime rt t = t + offset) /\ (forall t, UTC rt t = t - offset).

Definition fixedZone (offset : Z) (parseISOThrows : option string) : Runtime :=
  mkRuntime (fun t => t + offset) (fun t => t - offset) parseISOThrows.

(** ** Whole seconds

    Every timestamp that leaves normalizeSeries went through formatISO; the
    instant it denotes is a whole number of seconds. *)

Definition wholeSeconds (p : Point) : Prop :=
  formatISO (p_start p) = p_start p /\ formatISO (p_end p) = p_end p.

(** Both timestamps of a point are read back by parseISO. *)
Definition readablePoint (rt : Runtime) (p : Point) : Prop :=
  readable rt (p_start p) = true /\ readable rt (p_end p) = true.

(** The local hour a point starts in, and what holds of every bucket while
    aggregateToHourly runs. *)
Definition hourOf (rt : Runtime) (p : Point) : Z := hourStart rt (p_start p).

Definition okBucket (rt : Runtime) (kb : Z * Bucket) : Prop :=
  hourStart rt (b_start kb.2) = kb.1
  /\ formatISO (b_start kb.2) = b_start kb.2
  /\ formatISO (b_end kb.2) = b_end kb.2
  /\ readable rt (b_start kb.2) = true
  /\ readable rt (b_end kb.2) = true.

(** A window of fifteen minutes that starts on a whole second. *)
Definition quarterWindow (p : Point) : Prop :=
  formatISO (p_start p) = p_start p /\ p_end p = p_start p + 15 * 60000.

End Normalizer.

(* ===================================================================== *)
(** * JSON values                                                         *)
(* ===================================================================== *)

Module Json.

(** The day objects and currency records held by the caches are JSON
    documents.  A number is carried by the decimal text JSON.stringify prints
    for it; an object is the list of its own properties in enumeration order
    (its keys are distinct); [undefined] is not a JSON value and is [None] of
    [option Json] wherever JavaScript can produce it. *)
Inductive Json : Type :=
| JNull
| JBool (b : bool)
| JNum (literal : string)
| JStr (s : string)
| JArr (items : list Json)
| JObj (fields : list (string * Json)).

(** [obj[key]] for an own property: the first entry under that key. *)
Fixpoint lookupField (key : string) (fields : list (string * Json)) : option Json :=
  match fields with
  | [] => None
  | (k, v) :: rest => if String.eqb k key then Some v else lookupField key rest
  end.

(** JavaScript truthiness. *)
Definition truthy (v : Json) : bool :=
  match v with
  | JNull => false
  | JBool b => b
  | JNum literal => negb (String.eqb literal "0" || String.eqb literal "-0")
  | JStr s => negb (String.eqb s "")
  | JArr _ | JObj _ => true
  end.

Definition truthyOpt (v : option Json) : bool :=
  match v with Some v => truthy v | None => false end.

(** ** Strings helpers *)

Definition slash : ascii := "/"%char.
Definition quoteChar : ascii := Ascii.ascii_of_nat 34.
Definition backslash : ascii := Ascii.ascii_of_nat 92.
Definition newline : string := String (Ascii.ascii_of_nat 10) "".

Fixpoint join (sep : string) (parts : list string) : string :=
  match parts with
  | [] => ""
  | [s] => s
  | s :: rest => s +:+ sep +:+ join sep rest
  end.

(** [s.split(c)] for a one-character separator: never the empty list. *)
Fixpoint split (c : ascii) (s : string) : list string :=
  match s with
  | EmptyString => [""]
  | String a rest =>
      if Ascii.eqb a c then "" :: split c rest
      else match split c rest with
           | [] => [String a ""]
           | first :: others => String a first :: others
           end
  end.

Definition isDigit (a : ascii) : bool :=
  let n := N_of_ascii a in ((48 <=? n) && (n <=? 57))%N.

Fixpoint allDigits (s : string) : bool :=
  match s with
  | EmptyString => true
  | String a rest => isDigit a && allDigits rest
  end.

(** The test of the regular expression [^[0-9]+$]. *)
Definition isIndex (s : string) : bool :=
  negb (String.eqb s "") && allDigits s.

Fixpoint digitsValue (acc : N) (s : string) : N :=
  match s with
  | EmptyString => acc
  | String a rest => digitsValue (10 * acc + (N_of_ascii a - 48))%N rest
  end.

(** [Number(part)] for a string of digits. *)
Definition indexOf (s : string) : N := digitsValue 0%N s.

(** [arr[n]]: beyond the end it is undefined.  (Number rounds an index of
    more than fifteen digits; such an index is beyond the end of any array
    either way.) *)
Definition nth (items : list Json) (n : N) : option Json :=
  if (n <? N.of_nat (length items))%N then items !! N.to_nat n else None.

(** ** JSON.stringify *)

Definition hexDigit (n : N) : ascii :=
  ascii_of_N (if (n <? 10)%N then 48 + n else 87 + n)%N.

(** QuoteJSONString on one character: the quote and the backslash are
    escaped, so are the control characters. *)
Definition escapeChar (a : ascii) : string :=
  let n := N_of_ascii a in
  if Ascii.eqb a quoteChar then String backslash (String quoteChar "")
  else if Ascii.eqb a backslash then String backslash (String backslash "")
  else if (n =? 8)%N then String backslash "b"
  else if (n =? 9)%N then String backslash "t"
  else if (n =? 10)%N then String backslash "n"
  else if (n =? 12)%N then String backslash "f"
  else if (n =? 13)%N then String backslash "r"
  else if (n <? 32)%N then
    String backslash ("u00" +:+ String (hexDigit (n / 16)) (String (hexDigit (n mod 16)) ""))
  else String a "".

Fixpoint escape (s : string) : string :=
  match s with
  | EmptyString => ""
  | String a rest => escapeChar a +:+ escape rest
  end.

Definition quote (s : string) : string :=
  String quoteChar (escape s +:+ String quoteChar "").

(** [JSON.stringify(value, null, gap)] with the current indentation
    [indent]; [gap] is empty for the compact form. *)
Fixpoint serialize (gap indent : string) (v : Json) : string :=
  let inner := indent +:+ gap in
  let wrap (opening closing : string) (members : list string) : string :=
    match members with
    | [] => opening +:+ closing
    | _ =>
        if String.eqb gap "" then opening +:+ join "," members +:+ closing
        else opening +:+ newline +:+ inner
             +:+ join ("," +:+ newline +:+ inner) members
             +:+ newline +:+ indent +:+ closing
    end in
  match v with
  | JNull => "null"
  | JBool true => "true"
  | JBool false => "false"
  | JNum literal => literal
  | JStr s => quote s
  | JArr items => wrap "[" "]" (map (serialize gap inner) items)
  | JObj fields =>
      wrap "{" "}"
        (map (fun kv => quote kv.1 +:+ (if String.eqb gap "" then ":" else ": ")
                        +:+ serialize gap inner kv.2) fields)
  end.

(** [JSON.stringify(value)] and [JSON.stringify(value, null, 2)]. *)
Definition stringify (v : Json) : string := serialize "" "" v.
Definition stringify2 (v : Json) : string := serialize "  " "" v.

(** ** Conversion to a string, as a template literal does it *)

Fixpoint toString (v : Json) : string :=
  match v with
  | JNull => "null"
  | JBool true => "true"
  | JBool false => "false"
  | JNum literal => literal
  | JStr s => s
  | JArr items =>
      join "," (map (fun x => match x with JNull => "" | _ => toString x end) items)
  | JObj _ => "[object Object]"
  end.

Definition toStringOpt (v : option Json) : string :=
  match v with Some v => toString v | None => "undefined" end.

End Json.

(* ===================================================================== *)
(** * The REST server                                                     *)
(* ===================================================================== *)

Module Rest.
Import Json Js.

(** The price service as the server sees it: every method is optional (the
    server probes for it) and may throw.  A date getter returns a string or
    something that is not one ([None]); an object getter returns a JSON value
    or undefined. *)
Record PriceService : Type := mkPriceService {
  getDayObject : option (string -> result (option Json));
  getCurrentPriceDate : option (result (option string));
  isNextDayAvailable : option (result bool);
  getNextPriceDate : option (result (option string));
  getPreviousPriceDate : option (result (option string));
  getCurrentDayObject : option (result (option Json));
  getNextDayObject : option (result (option Json));
  getPreviousDayObject : option (result (option Json))
}.

(** The cache access handed over by the price manager. *)
Record CacheAccess : Type := mkCacheAccess {
  getPriceDataByDate : option (string -> result (option Json));
  priceDataExists : option (string -> result bool)
}.

Record RestServer : Type := mkRestServer {
  priceService : option PriceService;
  cacheAccess : option CacheAccess
}.

Record Response : Type := mkResponse {
  status : Z;
  body : Json
}.

(** [res.json(value)]. *)
Definition sendJson (value : Json) : Response := mkResponse 200 value.

Definition _sendError (status : Z) (message : string) : Response :=
  mkResponse status
    (JObj [("status", JNum (pretty status));
           ("error", JStr message);
           ("info", JStr "See REST API usage at https://github.com/iotux/elwiz-prices#rest-api-prices")]).

(** The test of [/^\d{4}-\d{2}-\d{2}$/]. *)
Definition _isValidDate (date : string) : bool :=
  match String.list_ascii_of_string date with
  | [y1; y2; y3; y4; h1; m1; m2; h2; d1; d2] =>
      isDigit y1 && isDigit y2 && isDigit y3 && isDigit y4
      && Ascii.eqb h1 "-" && isDigit m1 && isDigit m2
      && Ascii.eqb h2 "-" && isDigit d1 && isDigit d2
  | _ => false
  end.

Definition truthyObject (r : result (option Json)) : option Json :=
  match r with
  | Ok (Some obj) => if truthy obj then Some obj else None
  | _ => None
  end.

(** Strategy 1 of _fetchPriceObject: the date-based getter. *)
Definition fromDayObject (ps : option PriceService) (date : string) : option Json :=
  match ps with
  | Some ps =>
      match getDayObject ps with
      | Some getter => truthyObject (getter date)
      | None => None
      end
  | None => None
  end.

Definition sameDate (date : string) (other : option string) : bool :=
  match other with Some d => String.eqb date d | None => false end.

(** One of the three guarded getters of strategy 2: an exception leaves the
    try block, a falsy object falls through to the next getter. *)
Definition tryGetter (applies : bool) (getter : option (result (option Json)))
    (next : result (option Json)) : result (option Json) :=
  match applies, getter with
  | true, Some call =>
      bind call (fun obj => if truthyOpt obj then Ok obj else next)
  | _, _ => next
  end.

(** Strategy 2: the current, next and previous day getters. *)
Definition fromWindow (ps : option PriceService) (date : string) : result (option Json) :=
  match ps with
  | None => Ok None
  | Some ps =>
      bind (optCall (getCurrentPriceDate ps)) (fun currentDate =>
      bind (optCall (isNextDayAvailable ps)) (fun available =>
      bind (if default false available then optCall (getNextPriceDate ps) else Ok None)
        (fun nextDate =>
      bind (optCall (getPreviousPriceDate ps)) (fun previousDate =>
        tryGetter (sameDate date (mjoin currentDate)) (getCurrentDayObject ps)
          (tryGetter (sameDate date (mjoin nextDate)) (getNextDayObject ps)
             (tryGetter (sameDate date (mjoin previousDate)) (getPreviousDayObject ps)
                (Ok None)))))))
  end.

(** Strategy 3: the cache.  Whatever is thrown here is caught and the answer
    is null. *)
Definition fromCache (ca : option CacheAccess) (date : string) : option Json :=
  match ca with
  | Some ca =>
      match getPriceDataByDate ca, priceDataExists ca with
      | Some getData, Some dataExists =>
          match dataExists date with
          | Ok true =>
              match getData date with
              | Ok (Some cached) => if truthy cached then Some cached else None
              | _ => None
              end
          | _ => None
          end
      | _, _ => None
      end
  | None => None
  end.

Definition _fetchPriceObject (server : RestServer) (date : string) : option Json :=
  if negb (_isValidDate date) then None
  else
    match fromDayObject (priceService server) date with
    | Some obj => Some obj
    | None =>
        match fromWindow (priceService server) date with
        | Ok (Some obj) => Some obj
        | _ => fromCache (cacheAccess server) date
        end
    end.

(** ** _getByPath *)

Fixpoint stripSlashes (s : string) : string :=
  match s with
  | String a rest => if Ascii.eqb a slash then stripSlashes rest else s
  | EmptyString => s
  end.

Definition charAt (s : string) (n : N) : option Json :=
  match String.get (N.to_nat n) s with
  | Some a => Some (JStr (String a ""))
  | None => None
  end.

(** [Object.prototype.hasOwnProperty.call(cur, part)] together with
    [cur[part]]: the own property, if there is one.  Besides the keys of an
    object these are the length of an array or string and the characters of a
    string under their canonical indices (strings are byte strings here).
    Numbers and booleans have no own property. *)
Definition ownProperty (cur : Json) (part : string) : option Json :=
  match cur with
  | JObj fields => lookupField part fields
  | JArr items =>
      if String.eqb part "length" then Some (JNum (pretty (N.of_nat (length items))))
      else if isIndex part && String.eqb (pretty (indexOf part)) part
      then nth items (indexOf part) else None
  | JStr s =>
      if String.eqb part "length" then Some (JNum (pretty (N.of_nat (String.length s))))
      else if isIndex part && String.eqb (pretty (indexOf part)) part
              && (indexOf part <? N.of_nat (String.length s))%N
      then charAt s (indexOf part) else None
  | _ => None
  end.

(** One turn of the loop of _getByPath.  Leaving the loop with undefined and
    going on with an undefined [cur] end the same way, so the early returns
    are the value [None] carried to the end. *)
Definition stepPath (cur : option Json) (part : string) : option Json :=
  match cur with
  | None | Some JNull => None
  | Some (JArr items) =>
      if isIndex part then nth items (indexOf part) else ownProperty (JArr items) part
  | Some v => ownProperty v part
  end.

Definition isRootPath (pathString : string) : bool :=
  String.eqb pathString "" || String.eqb pathString "/".

Definition pathParts (pathString : string) : list string :=
  split slash (stripSlashes pathString).

Section Routes.
(** [decodeURIComponent]: the decoded string, or [None] when it throws a
    URIError.  The built-in is not modelled further. *)
Variable decodeURIComponent : string -> option string.

Definition _getByPath (root : Json) (pathString : string) : result (option Json) :=
  if isRootPath pathString then Ok (Some root)
  else
    match mapM decodeURIComponent (pathParts pathString) with
    | None => Throw "URI malformed"
    | Some parts => Ok (foldl stepPath (Some root) parts)
    end.

(** ** Routes *)

Definition notAvailable (date : string) : Response :=
  _sendError 404 ("Price data not available for date: " +:+ date).

(** The body shared by the routes that resolve a path below a date:
    [pathString] is what _getByPath gets, [shown] what the message shows. *)
Definition resolveRoute (server : RestServer) (date pathString shown : string) : Response :=
  match priceService server with
  | None => _sendError 500 "Price service not initialized"
  | Some _ =>
      if negb (_isValidDate date)
      then _sendError 400 "Invalid date format. Expected YYYY-MM-DD."
      else
        match _fetchPriceObject server date with
        | None => notAvailable date
        | Some obj =>
            match _getByPath obj pathString with
            | Throw message => _sendError 500 message
            | Ok None => _sendError 404 ("Path not found: " +:+ shown)
            | Ok (Some value) => sendJson value
            end
        end
  end.

(** GET /api/prices/:date/daily/:element *)
Definition routeDailyElement (server : RestServer) (date element : string) : Response :=
  resolveRoute server date ("daily/" +:+ element) ("/daily/" +:+ element).

Definition normalized (path : string) : string :=
  if String.prefix "/" path then path else "/" +:+ path.

(** GET /api/prices/:date/* (the generic path resolver). *)
Definition routeGeneric (server : RestServer) (date path : string) : Response :=
  resolveRoute server date path (normalized path).

End Routes.

(** ** Notions used in the statements *)

Fixpoint percentFree (s : string) : bool :=
  match s with
  | EmptyString => true
  | String a rest => negb (Ascii.eqb a "%") && percentFree rest
  end.

(** The decoder of the examples.  It agrees with decodeURIComponent on the
    segments the examples use: text without a percent sign decodes to itself,
    and a percent sign that two hexadecimal digits do not follow is refused.
    It refuses every other percent sign as well, which the built-in does not;
    no example has one. *)
Definition plainDecode (s : string) : option string :=
  if percentFree s then Some s else None.

(** A segment that does not resolve against the value reached so far: a key
    that a mapping does not have, or an index beyond the end of a sequence. *)
Definition unresolvedAt (v : Json) (part : string) : Prop :=
  (exists fields, v = JObj fields /\ lookupField part fields = None)
  \/ (exists items, v = JArr items /\ isIndex part = true
                   /\ (N.of_nat (length items) <= indexOf part)%N).

End Rest.

(* ===================================================================== *)
(** * The price manager                                                   *)
(* ===================================================================== *)

Module Manager.
Import Json Js.

Definition PRICE_KEY_PREFIX : string := "prices-".
Definition CURRENCY_KEY_PREFIX : string := "currencies-".
Definition MS_PER_DAY : Z := 86400000.

(** ** Calendar dates

    The Gregorian date of a day number (days since 1970-01-01). *)
Definition civilFromDays (days : Z) : Z * Z * Z :=
  let z := days + 719468 in
  let era := z / 146097 in
  let doe := z - era * 146097 in
  let yoe := (doe - doe / 1460 + doe / 36524 - doe / 146096) / 365 in
  let doy := doe - (365 * yoe + yoe / 4 - yoe / 100) in
  let mp := (5 * doy + 2) / 153 in
  let d := doy - (153 * mp + 2) / 5 + 1 in
  let m := if mp <? 10 then mp + 3 else mp - 9 in
  let y := yoe + era * 400 + (if m <=? 2 then 1 else 0) in
  (y, m, d).

(** [String(n).padStart(width, "0")] for n >= 0. *)
Definition padStart (width : nat) (n : Z) : string :=
  let s := pretty n in
  String.concat "" (replicate (width - String.length s) "0") +:+ s.

(** [new Date(now).toISOString().split("T")[0]]: the UTC date. *)
Definition isoDate (ms : Z) : string :=
  let '(y, m, d) := civilFromDays (ms / MS_PER_DAY) in
  let year :=
    if (0 <=? y) && (y <=? 9999) then padStart 4 y
    else (if y <? 0 then "-" else "+") +:+ padStart 6 (Z.abs y) in
  year +:+ "-" +:+ padStart 2 m +:+ "-" +:+ padStart 2 d.

(** ** The world a call runs in *)

Inductive CacheName : Type := PriceCache | CurrencyCache.

(** What a call does that can be seen from outside, in order. *)
Inductive Event : Type :=
| EvFetchPrices (dayOffset : Z) (preferSource : string)
| EvFetchCurrencies
| EvCreateObject (cache : CacheName) (key : string) (value : Json)
| EvDeleteObject (cache : CacheName) (key : string)
| EvClearRates
| EvPublish (topic payload : string) (retain : bool) (qos : Z).

Record World : Type := mkWorld {
  priceCache : gmap string Json;
  currencyCache : gmap string Json;
  currencyRateCache : gmap string Json;
  trace : list Event
}.

(** What the surroundings answer during one call: the clock, the outcome of
    the cache initialisation, the optional methods of the cache backend, the
    upstream fetchers, the Date constructor on a string, and the MQTT
    client.  The clock is read once per call. *)
Record Env : Type := mkEnv {
  now : Z;
  tzOffset : Z;
  cacheReady : result unit;
  currencyCacheReady : result unit;
  backendHas : option (string -> result bool);
  backendKeys : option (result (list string));
  fetchDayAheadPrices : Z -> string -> result Json;
  fetchCurrencies : result Json;
  parseDate : string -> option Z;
  mqttPublish : string -> string -> result unit
}.

Record Config : Type := mkConfig {
  enableMqtt : bool;
  mqttClient : bool;              (* is priceManager.mqttClient set *)
  priceTopic : string;
  currencyKeepDays : Z
}.

(** ** Calls: state passing, with exceptions that keep the state *)

Definition M (A : Type) : Type := World -> result A * World.

Definition ret {A : Type} (a : A) : M A := fun w => (Ok a, w).
Definition throw {A : Type} (message : string) : M A := fun w => (Throw message, w).
Definition lift {A : Type} (r : result A) : M A := fun w => (r, w).

Definition bindM {A B : Type} (m : M A) (k : A -> M B) : M B :=
  fun w => match m w with
           | (Ok a, w') => k a w'
           | (Throw message, w') => (Throw message, w')
           end.

Definition tryCatch {A : Type} (body : M A) (handler : string -> M A) : M A :=
  fun w => match body w with
           | (Throw message, w') => handler message w'
           | done => done
           end.

Notation "x <- m ;; k" := (bindM m (fun x => k))
  (at level 90, m at next level, right associativity).
Notation "m ;;; k" := (bindM m (fun _ => k))
  (at level 90, right associativity).

Definition emit (e : Event) : M unit :=
  fun w => (Ok tt, mkWorld (priceCache w) (currencyCache w) (currencyRateCache w) (trace w ++ [e])).

Fixpoint forEach {A : Type} (items : list A) (body : A -> M unit) : M unit :=
  match items with
  | [] => ret tt
  | x :: rest => body x ;;; forEach rest body
  end.

(** ** The object cache

    Modelled from the spec: the ObjectCache collaborator (the UniCache
    package, which is not part of this repository's sources), by its
    contract has / retrieveObject / createObject / deleteObject / keys over
    a finite map from keys to JSON values. *)
Definition cacheOf (c : CacheName) (w : World) : gmap string Json :=
  match c with PriceCache => priceCache w | CurrencyCache => currencyCache w end.

Definition setCache (c : CacheName) (m : gmap string Json) (w : World) : World :=
  match c with
  | PriceCache => mkWorld m (currencyCache w) (currencyRateCache w) (trace w)
  | CurrencyCache => mkWorld (priceCache w) m (currencyRateCache w) (trace w)
  end.

Definition has (c : CacheName) (key : string) : M bool :=
  fun w => (Ok (bool_decide (is_Some (cacheOf c w !! key))), w).

Definition retrieveObject (c : CacheName) (key : string) : M (option Json) :=
  fun w => (Ok (cacheOf c w !! key), w).

Definition createObject (c : CacheName) (key : string) (value : Json) : M unit :=
  emit (EvCreateObject c key value) ;;;
  fun w => (Ok tt, setCache c (<[key := value]> (cacheOf c w)) w).

Definition deleteObject (c : CacheName) (key : string) : M unit :=
  emit (EvDeleteObject c key) ;;;
  fun w => (Ok tt, setCache c (delete key (cacheOf c w)) w).

Definition keys (c : CacheName) : M (list string) :=
  fun w => (Ok (map fst (map_to_list (cacheOf c w))), w).

Definition clearRates : M unit :=
  emit EvClearRates ;;;
  fun w => (Ok tt, mkWorld (priceCache w) (currencyCache w) ∅ (trace w)).

(** ** Signatures of currency records *)

(** [payload.name] for the names read here (date, priceDate): only an object
    has such a property; reading it off null throws a TypeError (with the
    message the engine of Node.js gives it). *)
Definition getProp (payload : Json) (name : string) : result (option Json) :=
  match payload with
  | JNull => Throw ("Cannot read properties of null (reading '" +:+ name +:+ "')")
  | JObj fields => Ok (lookupField name fields)
  | _ => Ok None
  end.

(** [const { fetchedAt, ...rest } = payload; return rest].  The rest of an
    array is the object of its elements under their indices. *)
Definition stripFetchedAt (payload : Json) : Json :=
  match payload with
  | JObj fields => JObj (filter (fun kv => kv.1 <> "fetchedAt") fields)
  | JArr items => JObj (imap (fun i x => (pretty i, x)) items)
  | _ => payload
  end.

(** An array index as a property key: the canonical decimal of a number
    below 2^32 - 1. *)
Definition arrayIndex (key : string) : option N :=
  if isIndex key && String.eqb (pretty (indexOf key)) key && (indexOf key <? 4294967295)%N
  then Some (indexOf key) else None.

(** The order in which the keys of the object rebuilt by the replacer are
    enumerated: [Object.keys(val).sort()] orders them as strings, the object
    they are assigned to enumerates array indices first, in numeric order. *)
Definition keyLe (a b : string) : bool :=
  match arrayIndex a, arrayIndex b with
  | Some i, Some j => (i <=? j)%N
  | Some _, None => true
  | None, Some _ => false
  | None, None => String.leb a b
  end.

Fixpoint insertField (x : string * Json) (l : list (string * Json)) : list (string * Json) :=
  match l with
  | [] => [x]
  | y :: l' => if keyLe x.1 y.1 then x :: l else y :: insertField x l'
  end.

Definition sortFields (l : list (string * Json)) : list (string * Json) :=
  foldr insertField [] l.

(** The replacer of stableStringify, applied as JSON.stringify applies it: to
    the value and then to every member of what it returned. *)
Fixpoint stable (v : Json) : Json :=
  match v with
  | JObj fields => JObj (sortFields (map (fun kv => (kv.1, stable kv.2)) fields))
  | JArr items => JArr (map stable items)
  | _ => v
  end.

Definition stableStringify (v : Json) : string := stringify (stable v).

(** ** Currency rates *)

Definition fetchAndStoreCurrencyRates (env : Env) : M Json :=
  tryCatch
    (lift (currencyCacheReady env) ;;;
     emit EvFetchCurrencies ;;;
     data <- lift (fetchCurrencies env) ;;
     date <- lift (getProp data "date") ;;
     let dateKey := CURRENCY_KEY_PREFIX +:+ toStringOpt date in
     let latestKey := CURRENCY_KEY_PREFIX +:+ "latest" in
     existing <- retrieveObject CurrencyCache dateKey ;;
     let incomingSignature := stableStringify (stripFetchedAt data) in
     let existingSignature :=
       match existing with
       | Some e => if truthy e then Some (stableStringify (stripFetchedAt e)) else None
       | None => None
       end in
     let hasChanges :=
       negb (truthyOpt existing)
       || negb (bool_decide (existingSignature = Some incomingSignature)) in
     (if hasChanges then
        createObject CurrencyCache dateKey data ;;;
        createObject CurrencyCache latestKey data ;;;
        clearRates
      else
        latestExists <- has CurrencyCache latestKey ;;
        match existing with
        | Some e => if negb latestExists && truthy e
                    then createObject CurrencyCache latestKey e else ret tt
        | None => ret tt
        end) ;;;
     ret data)
    (fun message => throw message).

Definition ensureCurrencyRates (env : Env) : M unit :=
  tryCatch
    (lift (currencyCacheReady env) ;;;
     latest <- retrieveObject CurrencyCache (CURRENCY_KEY_PREFIX +:+ "latest") ;;
     let today := isoDate (now env) in
     let stale :=
       match latest with
       | Some l =>
           negb (truthy l)
           || match getProp l "date" with
              | Ok (Some (JStr d)) => negb (String.eqb d today)
              | _ => true
              end
       | None => true
       end in
     if stale then fetchAndStoreCurrencyRates env ;;; ret tt else ret tt)
    (fun _ => ret tt).

(** ** cleanupCurrencyCache *)

Definition dateOfKey (key : string) : string :=
  String.substring (String.length CURRENCY_KEY_PREFIX)
    (String.length key - String.length CURRENCY_KEY_PREFIX) key.

(** The body of the loop over the keys. *)
Definition sweepKey (env : Env) (cutoffDate : Z) (key : string) : M unit :=
  if negb (String.prefix CURRENCY_KEY_PREFIX key) then ret tt
  else
    let dateStr := dateOfKey key in
    if String.eqb dateStr "latest" then ret tt
    else
      match parseDate env dateStr with
      | None => ret tt
      | Some fileDate =>
          if fileDate <? cutoffDate then deleteObject CurrencyCache key else ret tt
      end.

Definition cleanupCurrencyCache (cfg : Config) (env : Env) : M unit :=
  lift (currencyCacheReady env) ;;;
  allKeys <- keys CurrencyCache ;;
  let cutoffDate := now env - currencyKeepDays cfg * MS_PER_DAY in
  forEach allKeys (sweepKey env cutoffDate).

(** ** Prices *)

Definition ensureCacheReady (env : Env) : M unit := lift (cacheReady env).

Definition getPriceKey (dateStr : string) : string := PRICE_KEY_PREFIX +:+ dateStr.

(** The local date [dayOffset] days from today, year unpadded. *)
Definition getDateForOffset (env : Env) (dayOffset : Z) : string :=
  let '(y, m, d) := civilFromDays ((now env + tzOffset env) / MS_PER_DAY + dayOffset) in
  pretty y +:+ "-" +:+ padStart 2 m +:+ "-" +:+ padStart 2 d.

Definition getPriceDataByDate (env : Env) (dateStr : string) : M (option Json) :=
  ensureCacheReady env ;;;
  retrieveObject PriceCache (getPriceKey dateStr).

Definition priceDataExists (env : Env) (dateStr : string) : M bool :=
  ensureCacheReady env ;;;
  let key := getPriceKey dateStr in
  let viaBackend :=
    match backendHas env with
    | Some backendHas =>
        match backendHas key with
        | Ok exists_ => exists_
        | Throw _ => false
        end
    | None => false
    end in
  if viaBackend then ret true else has PriceCache key.

(** [this.priceFetcher.fetchPrices(dayOffset, preferSource)], by what the
    upstream source answers.  The fetcher is handed getCurrencyRate and may
    call it while it fetches; what such a call does to the currency cache and
    to the rate table is not modelled, and the statements about a fetch speak
    of prices only. *)
Definition fetchPrices (env : Env) (dayOffset : Z) (preferSource : string) : M Json :=
  emit (EvFetchPrices dayOffset preferSource) ;;;
  lift (fetchDayAheadPrices env dayOffset preferSource).

Definition fetchPricesOnly (env : Env) (dayOffset : Z) (preferSource : string)
    : M (option Json) :=
  tryCatch
    (ensureCacheReady env ;;;
     ensureCurrencyRates env ;;;
     let dateStr := getDateForOffset env dayOffset in
     exists_ <- priceDataExists env dateStr ;;
     if exists_ then retrieveObject PriceCache (getPriceKey dateStr)
     else
       prices <- fetchPrices env dayOffset preferSource ;;
       createObject PriceCache (getPriceKey dateStr) prices ;;;
       ret (Some prices))
    (fun message => throw message).

Definition listPriceKeys (env : Env) : M (list string) :=
  ensureCacheReady env ;;;
  match backendKeys env with
  | Some (Ok listed) => ret listed
  | _ => keys PriceCache
  end.

Definition getAllCachedDates (env : Env) : M (list string) :=
  ensureCacheReady env ;;;
  listed <- listPriceKeys env ;;
  ret (map (fun key => String.substring (String.length PRICE_KEY_PREFIX)
                         (String.length key - String.length PRICE_KEY_PREFIX) key)
           (filter (fun key => String.prefix PRICE_KEY_PREFIX key = true) listed)).

(** ** Notions used in the statements *)



(** The effects on prices: an upstream price fetch, a write to or a removal
    from the price cache. *)
Definition isPriceEffect (e : Event) : bool :=
  match e with
  | EvFetchPrices _ _ => true
  | EvCreateObject PriceCache _ _ => true
  | EvDeleteObject PriceCache _ => true
  | _ => false
  end.

(** [w'] comes after [w], and nothing happened to prices in between. *)
Definition pricesUntouched (w w' : World) : Prop :=
  priceCache w' = priceCache w
  /\ exists evs, trace w' = trace w ++ evs /\ Forall (fun e => isPriceEffect e = false) evs.

Definition keepsPrices {A : Type} (m : M A) : Prop :=
  forall w, pricesUntouched w (m w).2.

Definition dateKeyOf (fields : list (string * Json)) : string :=
  CURRENCY_KEY_PREFIX +:+ toStringOpt (lookupField "date" fields).

Definition latestKey : string := CURRENCY_KEY_PREFIX +:+ "latest".

(** The comparison of signatures, and the world after one fetch cycle that
    fetched the record [fields], spelled out. *)
Definition sameSignature (e d : Json) : bool :=
  bool_decide (stableStringify (stripFetchedAt e) = stableStringify (stripFetchedAt d)).

(** The stored record that makes the cycle skip the write. *)
Definition unchangedRecord (fields : list (string * Json)) (w : World) : option Json :=
  match currencyCache w !! dateKeyOf fields with
  | Some e => if truthy e && sameSignature e (JObj fields) then Some e else None
  | None => None
  end.

Definition cycleWorld (fields : list (string * Json)) (w : World) : World :=
  let data := JObj fields in
  match unchangedRecord fields w with
  | Some e =>
      if bool_decide (is_Some (currencyCache w !! latestKey))
      then mkWorld (priceCache w) (currencyCache w) (currencyRateCache w)
             (trace w ++ [EvFetchCurrencies])
      else mkWorld (priceCache w) (<[latestKey := e]> (currencyCache w)) (currencyRateCache w)
             (trace w ++ [EvFetchCurrencies; EvCreateObject CurrencyCache latestKey e])
  | None =>
      mkWorld (priceCache w)
        (<[latestKey := data]> (<[dateKeyOf fields := data]> (currencyCache w))) ∅
        (trace w ++ [EvFetchCurrencies;
                     EvCreateObject CurrencyCache (dateKeyOf fields) data;
                     EvCreateObject CurrencyCache latestKey data;
                     EvClearRates])
  end.

Definition isWrite (e : Event) : bool :=
  match e with
  | EvCreateObject _ _ _ | EvDeleteObject _ _ | EvClearRates => true
  | _ => false
  end.

End Manager.

(* ===================================================================== *)
(** * The command line entry point: publishing after a fetch cycle        *)
(* ===================================================================== *)

Module Cli.
Import Json Js Manager.

(** [mqttClient.publish(topic, payload, { retain: true, qos: 1 })].

    Modelled from the spec: the PublishTransport collaborator (utils/mqttClient
    is not among the sources): a publish is issued, and is then acknowledged
    or fails. *)
Definition publish (env : Env) (topic payload : string) : M unit :=
  emit (EvPublish topic payload true 1) ;;;
  lift (mqttPublish env topic payload).

Definition topicOf (cfg : Config) (date : string) : string :=
  priceTopic cfg +:+ "/" +:+ date.

(** Publish the cached prices of a date, if the cache has them. *)
Definition publishCached (cfg : Config) (env : Env) (date : string) : M unit :=
  data <- getPriceDataByDate env date ;;
  match data with
  | Some d => if truthy d then publish env (topicOf cfg date) (stringify2 d) else ret tt
  | None => ret tt
  end.

(** Clear the retained message of a date, if the cache has its prices. *)
Definition unpublishCached (cfg : Config) (env : Env) (date : string) : M unit :=
  data <- getPriceDataByDate env date ;;
  if truthyOpt data then publish env (topicOf cfg date) "" else ret tt.

(** The UTC date [days] days from now ([setDate(getDate() + days)], then
    [toISOString().split("T")[0]]). *)
Definition dayFromNow (env : Env) (days : Z) : string :=
  isoDate (now env + days * MS_PER_DAY).

(** The two lists handleMqttPublishing computes first (cachedDates and
    latestDates, the latter getAllCachedDates again, sorted and cut to two)
    are not used afterwards; what they can do to the run is throw. *)
Definition handleMqttPublishing (cfg : Config) (env : Env) : M unit :=
  if negb (mqttClient cfg) || negb (enableMqtt cfg) then ret tt
  else
    tryCatch
      (getAllCachedDates env ;;;
       getAllCachedDates env ;;;
       let today := dayFromNow env 0 in
       let tomorrow := dayFromNow env 1 in
       tomorrowAvailable <- priceDataExists env tomorrow ;;
       if tomorrowAvailable then
         publishCached cfg env today ;;;
         publishCached cfg env tomorrow ;;;
         unpublishCached cfg env (dayFromNow env (-1))
       else
         publishCached cfg env (dayFromNow env (-1)) ;;;
         publishCached cfg env today ;;;
         unpublishCached cfg env (dayFromNow env (-2)))
      (fun _ => ret tt).


End Cli.

(* ===================================================================== *)
(** * Notions for the interval normaliser                                 *)
(* ===================================================================== *)

Module NormalizerSpec.
Import Js Normalizer.

(** The sum of the values of a series, added up from zero in the order of
    the series. *)
Definition sumValues (l : list Point) : JsNumber :=
  foldl (fun s q => jsAdd s (p_value q)) (Num 0%Qc) l.

(** The earliest start and the latest end among a point and the points
    after it. *)
Definition minStart (p : Point) (l : list Point) : Z :=
  foldl (fun m q => Z.min m (p_start q)) (p_start p) l.

Definition maxEnd (p : Point) (l : list Point) : Z :=
  foldl (fun m q => Z.max m (p_end q)) (p_end p) l.

(** The first truthy currency among a point and the points after it (the
    last one seen when none is truthy). *)
Definition firstCurrency (p : Point) (l : list Point) : option string :=
  foldl (fun c q => if truthyStr c then c else p_currency q) (p_currency p) l.

(** The number of a list's elements. *)
Definition count (l : list Point) : Z := Z.of_nat (length l).

(** The hour key of a bucket is the local hour of its start. *)
Definition keyedBucket (rt : Runtime) (kb : Z * Bucket) : Prop :=
  hourStart rt (b_start kb.2) = kb.1.

(** The four quarter-hour windows of an hour that starts at [s]. *)
Definition quarters (s : Z) (v : JsNumber) (c : option string) : list Point :=
  [mkPoint s (s + 900000) v c;
   mkPoint (s + 900000) (s + 1800000) v c;
   mkPoint (s + 1800000) (s + 2700000) v c;
   mkPoint (s + 2700000) (s + 3600000) v c].


End NormalizerSpec.

(* ===================================================================== *)
(** * The REST server: the other routes                                   *)
(* ===================================================================== *)

Module RestRoutes.
Import Json Js Rest.

(** [parseInt(hour, 10)] on a parameter that the route pattern [(\d+)]
    matched, a non-empty string of digits: its value, which is a number and
    is not below zero.  (Beyond 2^53 parseInt rounds, to a number that is
    above 23 all the same.) *)
Definition parseHour (hour : string) : N := indexOf hour.

(** GET /api/prices/:date, the whole day object. *)
Definition routeWholeDay (server : RestServer) (date : string) : Response :=
  match priceService server with
  | None => _sendError 500 "Price service not initialized"
  | Some _ =>
      if negb (_isValidDate date)
      then _sendError 400 "Invalid date format. Expected YYYY-MM-DD."
      else
        match _fetchPriceObject server date with
        | None => _sendError 404 ("Price data not available for date: " +:+ date)
        | Some obj => sendJson obj
        end
  end.

(** The fallback handler for a request no route took. *)
Definition routeNotFound (originalUrl : string) : Response :=
  _sendError 404 ("Route not found: " +:+ originalUrl).

Section Routes.
Variable decodeURIComponent : string -> option string.

(** GET /api/prices/:date/daily *)
Definition routeDaily (server : RestServer) (date : string) : Response :=
  resolveRoute decodeURIComponent server date "daily" "/daily".

(** GET /api/prices/:date/:hour, the hour shorthand.  The hour is checked
    after the date and before any data is fetched. *)
Definition routeHour (server : RestServer) (date hour : string) : Response :=
  match priceService server with
  | None => _sendError 500 "Price service not initialized"
  | Some _ =>
      if negb (_isValidDate date)
      then _sendError 400 "Invalid date format. Expected YYYY-MM-DD."
      else if (23 <? parseHour hour)%N
      then _sendError 400 "Invalid hour. Must be 0-23."
      else resolveRoute decodeURIComponent server date
             ("hourly/" +:+ pretty (parseHour hour))
             ("/hourly/" +:+ pretty (parseHour hour))
  end.

(** GET /api/prices/:date/:hour/:element *)
Definition routeHourElement (server : RestServer) (date hour element : string) : Response :=
  match priceService server with
  | None => _sendError 500 "Price service not initialized"
  | Some _ =>
      if negb (_isValidDate date)
      then _sendError 400 "Invalid date format. Expected YYYY-MM-DD."
      else if (23 <? parseHour hour)%N
      then _sendError 400 "Invalid hour. Must be 0-23."
      else resolveRoute decodeURIComponent server date
             ("hourly/" +:+ pretty (parseHour hour) +:+ "/" +:+ element)
             ("/hourly/" +:+ pretty (parseHour hour) +:+ "/" +:+ element)
  end.

End Routes.

(** ** Notions used in the statements *)

(** The statuses a route answers with. *)
Definition answered (r : Response) : Prop :=
  status r = 200 \/ status r = 400 \/ status r = 404 \/ status r = 500.

(** What the path resolver needs of an hour below 24 and its decimal. *)
Definition hourSegment (n : N) : bool :=
  bool_decide (pathParts ("hourly/" +:+ pretty n) = ["hourly"; pretty n])
  && negb (isRootPath ("hourly/" +:+ pretty n))
  && percentFree (pretty n) && isIndex (pretty n)
  && (indexOf (pretty n) =? n)%N.

End RestRoutes.

(* ===================================================================== *)
(** * The price manager: the other operations                             *)
(* ===================================================================== *)

Module ManagerMore.
Import Json Js Manager.

(** [this.config.keepDays || 7]: seven days when the configuration has no
    such entry, and when the entry is 0. *)
Definition keepDaysOf (keepDays : option Z) : Z :=
  match keepDays with
  | Some days => if days =? 0 then 7 else days
  | None => 7
  end.

(** [key.slice(PRICE_KEY_PREFIX.length)]. *)
Definition priceDateOfKey (key : string) : string :=
  String.substring (String.length PRICE_KEY_PREFIX)
    (String.length key - String.length PRICE_KEY_PREFIX) key.

(** The body of the loop of cleanupOldCache.  An Invalid Date compares false
    with the cut-off. *)
Definition sweepPriceKey (env : Env) (cutoffDate : Z) (key : string) : M unit :=
  if negb (String.prefix PRICE_KEY_PREFIX key) then ret tt
  else
    match parseDate env (priceDateOfKey key) with
    | Some fileDate =>
        if fileDate <? cutoffDate then deleteObject PriceCache key else ret tt
    | None => ret tt
    end.

(** [keepDays] is the keepDays entry of the configuration ([cfg] carries the
    days currency records are kept, which the constructor resolved). *)
Definition cleanupOldCache (cfg : Config) (keepDays : option Z) (env : Env) : M unit :=
  ensureCacheReady env ;;;
  listed <- listPriceKeys env ;;
  let cutoffDate := now env - keepDaysOf keepDays * MS_PER_DAY in
  forEach listed (sweepPriceKey env cutoffDate) ;;;
  cleanupCurrencyCache cfg env.

Section Mqtt.
(** [mqttClient.waitForConnect()]: it resolves, or rejects. *)
Variable waitForConnect : result unit.

Definition publishToMqtt (cfg : Config) (env : Env) (priceData : Json) : M unit :=
  if negb (mqttClient cfg) || negb (enableMqtt cfg)
  then throw "MQTT is not enabled or client not available"
  else
    tryCatch
      (lift waitForConnect ;;;
       priceDate <- lift (getProp priceData "priceDate") ;;
       let topic := priceTopic cfg +:+ "/" +:+ toStringOpt priceDate in
       Cli.publish env topic (stringify2 priceData))
      (fun message => throw message).

Definition fetchAndProcessPrices (cfg : Config) (env : Env) (dayOffset : Z)
    (preferSource : string) : M Json :=
  tryCatch
    (prices <- fetchPrices env dayOffset preferSource ;;
     (if mqttClient cfg && enableMqtt cfg then publishToMqtt cfg env prices else ret tt) ;;;
     ret prices)
    (fun message => throw message).

End Mqtt.

(** ** getCurrencyRate *)

Section Rates.
(** The built-ins [String.prototype.toUpperCase] and [Number], and the
    priceCurrency entry of the configuration. *)
Variable toUpperCase : string -> string.
Variable toNumber : Json -> Json.
Variable priceCurrency : option string.

(** [currencyCode || this.config.priceCurrency || "EUR"]: the first of them
    that is a non-empty string. *)
Definition firstTruthy (candidates : list (option string)) (fallback : string) : string :=
  foldr (fun c rest => match c with
                       | Some s => if String.eqb s "" then rest else s
                       | None => rest
                       end) fallback candidates.

Definition codeOf (currencyCode : option string) : string :=
  toUpperCase (firstTruthy [currencyCode; priceCurrency] "EUR").

(** [latest.rates[code]] when [latest] and [latest.rates] are truthy, and
    undefined otherwise.  Only an object has a rates member; below it the
    property is an own property (no inherited property has an upper-case
    name). *)
Definition rateIn (latest : option Json) (code : string) : option Json :=
  match latest with
  | Some (JObj fields) =>
      match lookupField "rates" fields with
      | Some rates => if truthy rates then Rest.ownProperty rates code else None
      | None => None
      end
  | _ => None
  end.

(** [this.currencyRateCache.set(code, rate)] *)
Definition setRate (code : string) (rate : Json) : M unit :=
  fun w => (Ok tt, mkWorld (priceCache w) (currencyCache w)
                     (<[code := rate]> (currencyRateCache w)) (trace w)).

Definition getRate (code : string) : M (option Json) :=
  fun w => (Ok (currencyRateCache w !! code), w).

Definition getCurrencyRate (env : Env) (currencyCode : option string) : M Json :=
  let code := codeOf currencyCode in
  if String.eqb code "EUR" then ret (JNum "1")
  else
    known <- getRate code ;;
    match known with
    | Some rate => ret rate
    | None =>
        lift (currencyCacheReady env) ;;;
        stored <- retrieveObject CurrencyCache (CURRENCY_KEY_PREFIX +:+ "latest") ;;
        latest <- match rateIn stored code with
                  | Some _ => ret stored
                  | None => data <- fetchAndStoreCurrencyRates env ;; ret (Some data)
                  end ;;
        match rateIn latest code with
        | None => throw ("Currency rate for " +:+ code +:+ " not available")
        | Some raw =>
            let rate := toNumber raw in
            setRate code rate ;;; ret rate
        end
    end.

End Rates.

(** ** Notions used in the statements *)

(** The backend does not report the key: it has no method has, or the method
    answers false or throws. *)
Definition backendMisses (env : Env) (key : string) : Prop :=
  match backendHas env with
  | Some backendHas => backendHas key <> Ok true
  | None => True
  end.



(** The world after an event: a write changes the cache it names, and the
    event joins the trace. *)
Definition after (e : Event) (w : World) : World :=
  match e with
  | EvCreateObject PriceCache key value =>
      mkWorld (<[key := value]> (priceCache w)) (currencyCache w) (currencyRateCache w)
        (trace w ++ [e])
  | EvCreateObject CurrencyCache key value =>
      mkWorld (priceCache w) (<[key := value]> (currencyCache w)) (currencyRateCache w)
        (trace w ++ [e])
  | EvDeleteObject PriceCache key =>
      mkWorld (delete key (priceCache w)) (currencyCache w) (currencyRateCache w)
        (trace w ++ [e])
  | EvDeleteObject CurrencyCache key =>
      mkWorld (priceCache w) (delete key (currencyCache w)) (currencyRateCache w)
        (trace w ++ [e])
  | EvClearRates => mkWorld (priceCache w) (currencyCache w) ∅ (trace w ++ [e])
  | _ => mkWorld (priceCache w) (currencyCache w) (currencyRateCache w) (trace w ++ [e])
  end.

Definition replay (evs : list Event) (w : World) : World :=
  foldl (fun w e => after e w) w evs.

(** A call all of whose effects are events that satisfy [P]: the world it
    leaves is the world it found after those events. *)
Definition emitsOnly {A : Type} (P : Event -> bool) (m : M A) : Prop :=
  forall w, exists evs, (m w).2 = replay evs w /\ Forall (fun e => P e = true) evs.

(** The same, with a bound on the number of events. *)
Definition emitsAtMost {A : Type} (P : Event -> bool) (n : nat) (m : M A) : Prop :=
  forall w, exists evs, (m w).2 = replay evs w /\ Forall (fun e => P e = true) evs
                        /\ (length evs <= n)%nat.

Definition sameCaches (w w' : World) : Prop :=
  priceCache w' = priceCache w /\ currencyCache w' = currencyCache w
  /\ currencyRateCache w' = currencyRateCache w.

Definition isFetch (e : Event) : bool :=
  match e with
  | EvFetchPrices _ _ | EvFetchCurrencies => true
  | _ => false
  end.

(** The events that concern the currency rates. *)
Definition concernsRates (e : Event) : bool :=
  match e with
  | EvFetchCurrencies | EvClearRates => true
  | EvCreateObject CurrencyCache _ _ | EvDeleteObject CurrencyCache _ => true
  | _ => false
  end.


(** A retained publish with qos 1 on a topic below the price topic. *)
Definition isPublish (cfg : Config) (e : Event) : bool :=
  match e with
  | EvPublish topic _ retain qos =>
      String.prefix (priceTopic cfg +:+ "/") topic && retain && (qos =? 1)
  | _ => false
  end.

End ManagerMore.

(* ===================================================================== *)
(** * The command line entry point: the fetch cycle                       *)
(* ===================================================================== *)

Module Scheduler.
Import Json Js Manager Cli ManagerMore.

(** The entries of the configuration the fetch cycle reads.  The schedule
    lists hold numbers (whole hours and minutes); a list is empty when the
    entry is missing, is not an array or is an empty array. *)
Record Schedule : Type := mkSchedule {
  scheduleHours : list Z;
  scheduleMinutes : list Z;
  nextDayFetchHour : option Z;
  nextDayFetchMinute : option Z;
  keepDays : option Z;
  priceFetchPriority : option string
}.

Definition hoursOf (config : Schedule) : list Z :=
  match scheduleHours config with
  | [] => [default 13 (nextDayFetchHour config)]
  | hours => hours
  end.

Definition minutesOf (config : Schedule) : list Z :=
  match scheduleMinutes config with
  | [] => [default 0 (nextDayFetchMinute config)]
  | minutes => minutes
  end.

(** [Math.max(...values)]; [None] is -Infinity. *)
Definition mathMax (values : list Z) : option Z :=
  foldl (fun best v => match best with Some b => Some (Z.max b v) | None => Some v end)
    None values.

Definition includes (values : list Z) (v : Z) : bool := existsb (Z.eqb v) values.

(** [getHours()] and [getMinutes()] of a local time in milliseconds. *)
Definition getHours (reference : Z) : Z := (reference mod MS_PER_DAY) / 3600000.
Definition getMinutes (reference : Z) : Z := (reference mod 3600000) / 60000.

Definition shouldFetchNextDay (config : Schedule) (reference : Z) : bool :=
  let hours := hoursOf config in
  let minutes := minutesOf config in
  let currentHour := getHours reference in
  let currentMinute := getMinutes reference in
  let latestHour := mathMax hours in
  if includes hours currentHour && includes minutes currentMinute then true
  else match latestHour with
       | Some latest => latest <? currentHour
       | None => true
       end.

(** [uniqueNumbers]: [Number] has been applied, [None] is NaN.  A Set keeps
    the first occurrence of a value. *)
Definition dedupe (values : list Z) : list Z :=
  foldl (fun seen v => if includes seen v then seen else seen ++ [v]) [] values.

Definition uniqueNumbers (values : list (option Z)) : list Z :=
  Normalizer.sortBy (fun v => v) (dedupe (omap (fun v => v) values)).

(** The local time the cycle reads off the clock. *)
Definition localNow (env : Env) : Z := now env + tzOffset env.

(** [safeFetchAndProcess]; null is [Some JNull].  Reading [prices.priceDate]
    for the log line throws when the fetch gave null or undefined. *)
Definition safeFetchAndProcess (config : Schedule) (env : Env) (dayOffset : Z)
    (priceFetchPriority : string) : M (option Json) :=
  tryCatch
    (if (dayOffset =? 1) && negb (shouldFetchNextDay config (localNow env))
     then ret (Some JNull)
     else
       let targetDate := getDateForOffset env dayOffset in
       exists_ <- priceDataExists env targetDate ;;
       if exists_ then getPriceDataByDate env targetDate
       else
         prices <- fetchPricesOnly env dayOffset priceFetchPriority ;;
         match prices with
         | None => throw "Cannot read properties of undefined (reading 'priceDate')"
         | Some JNull => throw "Cannot read properties of null (reading 'priceDate')"
         | Some _ => ret prices
         end)
    (fun _ => ret (Some JNull)).

(** [config.priceFetchPriority || "nordpool"] *)
Definition priorityOf (config : Schedule) : string :=
  match priceFetchPriority config with
  | Some p => if String.eqb p "" then "nordpool" else p
  | None => "nordpool"
  end.

(** One turn of the loop of runFetchCycle. *)
Definition fetchDay (config : Schedule) (env : Env) (allowNextDayFetch : bool) (i : Z)
    : M unit :=
  tryCatch
    (let dateStr := getDateForOffset env i in
     if (i =? 1) && negb allowNextDayFetch then ret tt
     else
       exists_ <- priceDataExists env dateStr ;;
       if negb exists_
       then safeFetchAndProcess config env i (priorityOf config) ;;; ret tt
       else ret tt)
    (fun _ => ret tt).

Definition runFetchCycle (cfg : Config) (config : Schedule) (env : Env) : M unit :=
  let keepDays := keepDaysOf (keepDays config) in
  let allowNextDayFetch := shouldFetchNextDay config (localNow env) in
  forEach (seqZ ((keepDays - 1) * -1) (keepDays + 1))
    (fetchDay config env allowNextDayFetch) ;;;
  cleanupOldCache cfg (Scheduler.keepDays config) env ;;;
  handleMqttPublishing cfg env.

(** ** Notions used in the statements *)

(** The offsets the cycle visits. *)
Definition visited (config : Schedule) (env : Env) (i : Z) : Prop :=
  1 - keepDaysOf (keepDays config) <= i <= 1
  /\ (i = 1 -> shouldFetchNextDay config (localNow env) = true).

End Scheduler.

(* ===================================================================== *)
(** * Concrete inputs                                                     *)
(* ===================================================================== *)

Module Samples.
Import Json Js Rest Manager Cli.

Definition dayObject (date : string) : Json :=
  JObj [("priceDate", JStr date);
        ("daily", JObj [("avgPrice", JNum "1.23")]);
        ("hourly", JArr [JObj [("spotPrice", JNum "0.5")]])].

Definition rates (fetchedAt : string) : list (string * Json) :=
  [("date", JStr "2025-10-14");
   ("rates", JObj [("NOK", JNum "11.72"); ("SEK", JNum "11.01")]);
   ("fetchedAt", JStr fetchedAt)].

(** The same record with its keys in another order and a later timestamp. *)
Definition ratesAgain : list (string * Json) :=
  [("fetchedAt", JStr "2025-10-15T13:06:00.000Z");
   ("rates", JObj [("SEK", JNum "11.01"); ("NOK", JNum "11.72")]);
   ("date", JStr "2025-10-14")].

(** 2025-10-15 12:00 UTC, two hours east of Greenwich; the upstream sources
    answer, the backend has no methods of its own, every publish is
    acknowledged. *)
Definition sampleEnv (fetched : list (string * Json)) : Env :=
  mkEnv 1760529600000 7200000 (Ok tt) (Ok tt) None None
    (fun _ _ => Ok (dayObject "2025-10-15")) (Ok (JObj fetched))
    (fun _ => None) (fun _ _ => Ok tt).

Definition sampleConfig : Config := mkConfig true true "elwiz/prices" 7.

(** The Date constructor on the two dates the sample currency cache holds. *)
Definition sampleParseDate (s : string) : option Z :=
  if String.eqb s "2025-10-01" then Some 1759276800000
  else if String.eqb s "2025-10-14" then Some 1760400000000
  else None.

Definition sweepEnv : Env :=
  mkEnv 1760529600000 7200000 (Ok tt) (Ok tt) None None
    (fun _ _ => Throw "not ready") (Throw "not ready")
    sampleParseDate (fun _ _ => Ok tt).

Definition currencyWorld : World :=
  mkWorld ∅
    (<["currencies-latest" := JObj (rates "t1")]>
       (<["currencies-2025-10-14" := JObj (rates "t1")]>
          (<["currencies-2025-10-01" := JObj (rates "t0")]>
             (<["settings" := JNull]> ∅))))
    ∅ [].

Definition sampleWorld : World :=
  mkWorld
    (<["prices-2025-10-16" := dayObject "2025-10-16"]>
       (<["prices-2025-10-15" := dayObject "2025-10-15"]>
          (<["prices-2025-10-14" := dayObject "2025-10-14"]> ∅)))
    ∅ ∅ [].

(** A server whose price service holds 2025-10-15 and 2025-10-14 in memory
    and whose cache holds the given object for every date. *)
Definition sampleService : PriceService :=
  mkPriceService None (Some (Ok (Some "2025-10-15"))) (Some (Ok false)) None
    (Some (Ok (Some "2025-10-14"))) (Some (Ok None)) None (Some (Ok None)).

Definition cachedServer (obj : Json) : RestServer :=
  mkRestServer (Some sampleService)
    (Some (mkCacheAccess (Some (fun _ => Ok (Some obj))) (Some (fun _ => Ok true)))).

Definition sampleDay : Json :=
  JObj [("priceDate", JStr "2025-10-10");
        ("daily", JObj [("avgPrice", JNum "1.23")]);
        ("hourly", JArr (replicate 24 (JObj [("spotPrice", JNum "0.5")])))].

Definition unreachableServer : RestServer :=
  mkRestServer (Some sampleService)
    (Some (mkCacheAccess (Some (fun _ => Throw "connect ECONNREFUSED"))
                         (Some (fun _ => Throw "connect ECONNREFUSED")))).

End Samples.

(* ===================================================================== *)
(** * More concrete inputs                                                *)
(* ===================================================================== *)

Module MoreSamples.
Import Json Js Rest Manager Cli ManagerMore Scheduler Samples.

(** A price cache with a day of two weeks ago, yesterday's day, and an entry
    that is not a day of prices. *)
Definition agedWorld : World :=
  mkWorld
    (<["prices-2025-10-14" := dayObject "2025-10-14"]>
       (<["prices-2025-10-01" := dayObject "2025-10-01"]>
          (<["settings" := JNull]> ∅)))
    ∅ ∅ [].

(** The window of 2025-10-15 with the default schedule and two days kept. *)
Definition twoDays : Schedule := mkSchedule [] [] None None (Some 2) None.

Definition windowWorld : World :=
  mkWorld
    (<["prices-2025-10-15" := dayObject "2025-10-15"]>
       (<["prices-2025-10-14" := dayObject "2025-10-14"]> ∅))
    ∅ ∅ [].

(** An environment whose cache cannot be initialised. *)
Definition brokenEnv : Env :=
  mkEnv 1760529600000 7200000 (Throw "EACCES") (Ok tt) None None
    (fun _ _ => Throw "not ready") (Throw "not ready")
    sampleParseDate (fun _ _ => Ok tt).


(** Upper case of the currency codes of the examples. *)
Definition sampleUpper (s : string) : string :=
  if String.eqb s "nok" then "NOK" else if String.eqb s "eur" then "EUR" else s.

End MoreSamples.

(* ===================================================================== *)
(** * Concrete series and zones                                           *)
(* ===================================================================== *)

Module NormalizerSamples.
Import Js Normalizer.

(** One hour east of Greenwich all year, with date-fns 2. *)
Definition plusOne : Runtime := fixedZone 3600000 None.


(** 2025-10-26T01:00:00Z, when the clocks of Europe/Oslo go back from 03:00
    to 02:00. *)
Definition clocksGoBack : Z := 1761440400000.

(** Europe/Oslo in the autumn of 2025: two hours east of Greenwich before
    the clocks go back, one hour after.  The local hour from 02:00 to 03:00
    is repeated; UTC reads it as its first occurrence. *)
Definition oslo : Runtime :=
  mkRuntime (fun t => t + (if t <? clocksGoBack then 7200000 else 3600000))
            (fun t => if t - 7200000 <? clocksGoBack then t - 7200000 else t - 3600000)
            None.


(** 2025-10-25T23:00Z to 23:15Z, and 2025-10-26T00:00Z to 01:00Z: the hour
    before the clocks of Europe/Oslo go back. *)
Definition lastSummerHour : JsPoints :=
  Array [EObject (mkRawPoint (TInstant 1761433200000) (TInstant 1761434100000)
                    (VNumber (Num 1%Qc)) None);
         EObject (mkRawPoint (TInstant 1761436800000) (TInstant 1761440400000)
                    (VNumber (Num (Q2Qc (inject_Z 4)))) None)].


End NormalizerSamples.

(* ===================================================================== *)
(** * Properties of the interval normaliser                               *)
(* ===================================================================== *)

Module NormalizerFacts.
Import Js Normalizer NormalizerSpec NormalizerSamples.

(** ** Facts about the stable sort *)

Section SortFacts.
Context {A : Type} (key : A -> Z).

Lemma insertBy_perm (x : A) (l : list A) : insertBy key x l ≡ₚ x :: l.
Proof.
  induction l as [|y l IH]; simpl; [done|].
  destruct (key x <=? key y); [done|].
  rewrite IH. apply Permutation_swap.
Qed.

Lemma sortBy_perm (l : list A) : sortBy key l ≡ₚ l.
Proof.
  induction l as [|x l IH]; simpl; [done|].
  rewrite insertBy_perm. by rewrite IH.
Qed.

Lemma insertBy_sorted (x : A) (l : list A) :
  Sorted (byKey key) l -> Sorted (byKey key) (insertBy key x l).
Proof.
  induction 1 as [|y l Hs IH Hhd]; simpl.
  - by repeat constructor.
  - destruct (Z.leb_spec (key x) (key y)) as [Hle|Hgt].
    + constructor; [by constructor|]. by constructor.
    + constructor; [done|].
      destruct Hhd as [|z l Hyz]; simpl.
      * constructor. unfold byKey. lia.
      * destruct (key x <=? key z); constructor; unfold byKey in *; lia.
Qed.

Lemma sortBy_sorted (l : list A) : Sorted (byKey key) (sortBy key l).
Proof.
  induction l as [|x l IH]; simpl; [constructor|].
  by apply insertBy_sorted.
Qed.

(** Sorting a sorted list changes nothing: this is where stability shows. *)
Lemma sortBy_id (l : list A) : Sorted (byKey key) l -> sortBy key l = l.
Proof.
  induction 1 as [|x l Hs IH Hhd]; [done|].
  change (sortBy key (x :: l)) with (insertBy key x (sortBy key l)).
  rewrite IH.
  destruct Hhd as [|y l Hxy]; simpl; [done|].
  unfold byKey in Hxy. by rewrite (proj2 (Z.leb_le _ _) Hxy).
Qed.

Lemma sortBy_Forall (P : A -> Prop) (l : list A) : Forall P l -> Forall P (sortBy key l).
Proof. intros H. by rewrite sortBy_perm. Qed.

End SortFacts.

Lemma Sorted_byKey_map {A B : Type} (f : A -> B) (ka : A -> Z) (kb : B -> Z) (l : list A) :
  (forall x, kb (f x) = ka x) -> Sorted (byKey ka) l -> Sorted (byKey kb) (map f l).
Proof.
  intros Hk. induction 1 as [|x l Hs IH Hhd]; simpl; constructor; [done|].
  destruct Hhd; simpl; constructor. unfold byKey in *. by rewrite !Hk.
Qed.

(** ** Numbers *)




Lemma jsDiv_isNaN (v : JsNumber) (n : Z) : 0 < n -> isNaN (jsDiv v n) = isNaN v.
Proof.
  intros Hn. destruct v; simpl; [done| |by destruct (0 <=? n)..].
  by rewrite (proj2 (Z.eqb_neq n 0)) by lia.
Qed.

(** ** Formatted timestamps *)

Lemma formatISO_idem (ms : Z) : formatISO (formatISO ms) = formatISO ms.
Proof. unfold formatISO. rewrite (Z.mul_comm 1000 (ms / 1000)), Z.div_mul by lia. lia. Qed.

Lemma formatISO_quarter (ms : Z) : formatISO (ms + 15 * 60000) = formatISO ms + 15 * 60000.
Proof.
  unfold formatISO. replace (ms + 15 * 60000) with (ms + 900 * 1000) by lia.
  rewrite Z.div_add by lia. lia.
Qed.

Lemma readable_formatISO (rt : Runtime) (ms : Z) :
  readable rt (formatISO ms) = readable rt ms.
Proof. unfold readable. by rewrite formatISO_idem. Qed.

(** ** The callbacks of map and filter *)




(** ** The pre-filter *)

Lemma omap_cons {A B : Type} (f : A -> option B) (x : A) (l : list A) :
  omap f (x :: l) = match f x with Some y => y :: omap f l | None => omap f l end.
Proof. reflexivity. Qed.

(** What the filter answers on a mapped point is whether the element leaves
    a point in the sorted stage. *)
Lemma keepPoint_survivor (rt : Runtime) (p : RawPoint) (m : MappedPoint) (keep : bool) :
  mapPoint rt p = Ok m -> keepPoint rt m = Ok keep ->
  survivor rt (EObject p) = if keep then asPoint m else None.
Proof.
  destruct p as [s e v c]. unfold mapPoint, keepPoint, survivor, asPoint. simpl.
  destruct s as [| |s| |]; simpl; try discriminate;
    destruct e as [| |e| |]; simpl; try discriminate;
    destruct (Number v) as [n|]; simpl; try discriminate;
    intros [= <-]; simpl;
    repeat (first [ progress simpl | case_match ]);
    intros; simplify_eq/=; try done.
Qed.

Lemma stage_one (rt : Runtime) (elements : list Element)
    (mapped : list (option MappedPoint)) (kept : list MappedPoint) :
  mapR (mapElement rt) elements = Ok mapped ->
  filterR (keepPoint rt) (omap id mapped) = Ok kept ->
  omap asPoint kept = omap (survivor rt) elements.
Proof.
  revert mapped kept. induction elements as [|el elements IH]; intros mapped kept Hmap Hkept.
  - injection Hmap as <-. by injection Hkept as <-.
  - simpl in Hmap. destruct (mapElement rt el) as [om|] eqn:Hel; [|done]. simpl in Hmap.
    destruct (mapR (mapElement rt) elements) as [mapped'|]; [|done].
    simpl in Hmap. injection Hmap as <-.
    destruct el as [| | |p]; simpl in Hel; try discriminate.
    + injection Hel as <-. by apply (IH mapped' kept).
    + destruct (mapPoint rt p) as [m|] eqn:Hm; [|done]. simpl in Hel. injection Hel as <-.
      rewrite omap_cons in Hkept. simpl in Hkept.
      destruct (keepPoint rt m) as [keep|] eqn:Hkeep; [|done]. simpl in Hkept.
      destruct (filterR (keepPoint rt) (omap id mapped')) as [kept'|] eqn:Hkept'; [|done].
      simpl in Hkept. injection Hkept as <-.
      rewrite (omap_cons (survivor rt)), (keepPoint_survivor rt p m keep Hm Hkeep).
      rewrite <- (IH mapped' kept' eq_refl Hkept').
      destruct keep; [|done]. rewrite omap_cons. by destruct (asPoint m).
Qed.

Lemma sortedPoints_survivors (rt : Runtime) (elements : list Element) (sorted : list Point) :
  sortedPoints rt elements = Ok sorted ->
  sorted = sortBy p_start (omap (survivor rt) elements).
Proof.
  unfold sortedPoints.
  destruct (mapR (mapElement rt) elements) as [mapped|] eqn:Hmap; [|done]. simpl.
  destruct (filterR (keepPoint rt) (omap id mapped)) as [kept|] eqn:Hkept; [|done]. simpl.
  intros [= <-]. by rewrite (stage_one rt elements mapped kept Hmap Hkept).
Qed.

Lemma survivor_inv (rt : Runtime) (element : Element) (q : Point) :
  survivor rt element = Some q <->
  exists p s e v,
    element = EObject p /\ start p = TInstant s /\ end_ p = TInstant e
    /\ readable rt s = true /\ readable rt e = true
    /\ Number (value p) = Ok v /\ isNaN v = false
    /\ q = mkPoint (formatISO s) (formatISO e) v (currency p).
Proof.
  split.
  - destruct element as [| | |p]; simpl; try discriminate.
    destruct (start p) as [| |s| |] eqn:Hs; try discriminate.
    destruct (end_ p) as [| |e| |] eqn:He; try discriminate.
    destruct (Number (value p)) as [v|] eqn:Hv; try discriminate.
    destruct (readable rt s) eqn:Hrs; [|done].
    destruct (readable rt e) eqn:Hre; [|done].
    destruct (isNaN v) eqn:Hnan; [done|]. simpl. intros [= <-].
    by exists p, s, e, v.
  - intros (p & s & e & v & -> & Hs & He & Hrs & Hre & Hv & Hnan & ->).
    simpl. by rewrite Hs, He, Hv, Hrs, Hre, Hnan.
Qed.

Lemma survivor_shape (rt : Runtime) (element : Element) (q : Point) :
  survivor rt element = Some q ->
  wholeSeconds q /\ readablePoint rt q /\ isNaN (p_value q) = false.
Proof.
  intros (p & s & e & v & _ & _ & _ & Hrs & Hre & _ & Hnan & ->)%survivor_inv.
  unfold wholeSeconds, readablePoint. simpl.
  by rewrite !formatISO_idem, !readable_formatISO.
Qed.

Lemma sortedPoints_sorted (rt : Runtime) (elements : list Element) (sorted : list Point) :
  sortedPoints rt elements = Ok sorted -> Sorted (byKey p_start) sorted.
Proof. intros ->%sortedPoints_survivors. apply sortBy_sorted. Qed.

Lemma sortedPoints_shape (rt : Runtime) (elements : list Element) (sorted : list Point) :
  sortedPoints rt elements = Ok sorted ->
  Forall wholeSeconds sorted /\ Forall (readablePoint rt) sorted
  /\ Forall (fun q => isNaN (p_value q) = false) sorted.
Proof.
  intros ->%sortedPoints_survivors.
  assert (Forall (fun q => wholeSeconds q /\ readablePoint rt q /\ isNaN (p_value q) = false)
            (omap (survivor rt) elements)) as H.
  { apply Forall_forall. intros q (el & _ & Hq)%list_elem_of_omap.
    by eapply survivor_shape. }
  repeat split; apply sortBy_Forall; eapply Forall_impl; try exact H; simpl; tauto.
Qed.

(** *** When the stage raises nothing, and when it raises *)









(** ** detectInterval *)

(** C3, as amended.  With fewer than two points detectInterval returns null;
    when the first two starts are exactly 15 minutes apart it returns 15m,
    exactly 60 minutes apart 1h; the count heuristic is what it returns for
    two or more points whose first gap rounds to neither. *)
Theorem detectInterval_cases (points : list Point) :
  ((length points < 2)%nat -> detectInterval points = None)
  /\ (forall a b rest, points = a :: b :: rest ->
        p_start b - p_start a = 15 * 60000 -> detectInterval points = Some "15m")
  /\ (forall a b rest, points = a :: b :: rest ->
        p_start b - p_start a = 60 * 60000 -> detectInterval points = Some "1h")
  /\ (forall a b rest, points = a :: b :: rest ->
        roundDiv (p_start b - p_start a) 60000 <> 15 ->
        roundDiv (p_start b - p_start a) 60000 <> 60 ->
        detectInterval points = Some (countHeuristic points)).
Proof.
  repeat split.
  - destruct points as [|a [|b rest]]; simpl; [done|done|lia].
  - intros a b rest -> Hgap. unfold detectInterval. by rewrite Hgap.
  - intros a b rest -> Hgap. unfold detectInterval. by rewrite Hgap.
  - intros a b rest -> H15 H60. unfold detectInterval, countHeuristic.
    apply Z.eqb_neq in H15, H60. rewrite H15, H60.
    by destruct (48 <? _).
Qed.

Lemma detectInterval_cases_witness :
  detectInterval [] = None
  /\ detectInterval [mkPoint 0 900000 (Num 1%Qc) None; mkPoint 900000 1800000 (Num 1%Qc) None]
     = Some "15m"
  /\ detectInterval [mkPoint 0 3600000 (Num 1%Qc) None; mkPoint 3600000 7200000 (Num 1%Qc) None]
     = Some "1h"
  /\ detectInterval [mkPoint 0 1800000 (Num 1%Qc) None; mkPoint 1800000 3600000 (Num 1%Qc) None]
     = Some (countHeuristic
               [mkPoint 0 1800000 (Num 1%Qc) None; mkPoint 1800000 3600000 (Num 1%Qc) None]).
Proof.
  split; [|split; [|split]].
  - apply (proj1 (detectInterval_cases [])). simpl. lia.
  - eapply (proj1 (proj2 (detectInterval_cases _))); [reflexivity|]. simpl. lia.
  - eapply (proj1 (proj2 (proj2 (detectInterval_cases _)))); [reflexivity|]. simpl. lia.
  - eapply (proj2 (proj2 (proj2 (detectInterval_cases _)))); [reflexivity| |];
      vm_compute; discriminate.
Defined.

(** C3, as stated, fails: on a series of fewer than two points the result is
    null, not the count heuristic's 1h. *)
Lemma detectInterval_short_is_null :
  (length ([] : list Point) < 2)%nat
  /\ detectInterval [] <> Some (countHeuristic [])
  /\ (length [mkPoint 0 3600000 (Num 1%Qc) None] < 2)%nat
  /\ detectInterval [mkPoint 0 3600000 (Num 1%Qc) None]
     <> Some (countHeuristic [mkPoint 0 3600000 (Num 1%Qc) None]).
Proof. simpl. repeat split; (lia || discriminate). Qed.

(** ** A series handed back *)




(** ** Aggregation and expansion reach a fixed point after one pass *)

Section Idempotence.
Variable rt : Runtime.

Lemma updateBucket_found (p : Point) (k : Z) (b : Bucket) :
  wholeSeconds p -> readablePoint rt p -> hourOf rt p = k -> okBucket rt (k, b) ->
  okBucket rt (k, updateBucket p (Some b)).
Proof.
  intros [Hps Hpe] [Hrs Hre] Hk (Hb & Hbs & Hbe & Hbrs & Hbre).
  unfold okBucket, updateBucket in *; simpl in *.
  destruct (p_start p <? b_start b), (b_end b <? p_end p); done.
Qed.

Lemma updateBucket_fresh (p : Point) :
  wholeSeconds p -> readablePoint rt p -> okBucket rt (hourOf rt p, updateBucket p None).
Proof.
  intros [Hps Hpe] [Hrs Hre]. unfold okBucket, updateBucket; simpl.
  rewrite !Z.ltb_irrefl. done.
Qed.

Lemma upsert_ok (p : Point) (buckets : list (Z * Bucket)) :
  wholeSeconds p -> readablePoint rt p -> Forall (okBucket rt) buckets ->
  Forall (okBucket rt) (upsert (hourOf rt p) p buckets).
Proof.
  intros Hp Hr. induction 1 as [|[k b] rest Hkb Hrest IH]; simpl.
  - constructor; [by apply updateBucket_fresh | constructor].
  - destruct (Z.eqb_spec k (hourOf rt p)) as [->|Hne].
    + constructor; [|done]. by apply updateBucket_found.
    + by constructor.
Qed.

Lemma upsert_keys (key : Z) (p : Point) (buckets : list (Z * Bucket)) :
  map fst (upsert key p buckets)
  = map fst buckets ++ (if bool_decide (key ∈ map fst buckets) then [] else [key]).
Proof.
  induction buckets as [|[k b] rest IH]; simpl; [done|].
  - destruct (Z.eqb_spec k key) as [->|Hne]; simpl.
    + rewrite bool_decide_eq_true_2 by apply list_elem_of_here.
      by rewrite app_nil_r.
    + rewrite IH. f_equal.
      rewrite (bool_decide_ext (key ∈ k :: map fst rest) (key ∈ map fst rest)); [done|].
      rewrite elem_of_cons. intuition congruence.
Qed.


Lemma foldl_addPoint_ok (points : list Point) (buckets : list (Z * Bucket)) :
  Forall wholeSeconds points -> Forall (readablePoint rt) points ->
  NoDup (map fst buckets) -> Forall (okBucket rt) buckets ->
  NoDup (map fst (foldl (addPoint rt) buckets points))
  /\ Forall (okBucket rt) (foldl (addPoint rt) buckets points).
Proof.
  intros Hw. revert buckets.
  induction Hw as [|p points Hp _ IH]; intros buckets Hr Hnd Hok; [done|].
  inversion Hr; subst. simpl. apply IH; [done| |].
  - unfold addPoint. rewrite upsert_keys. case_bool_decide as Hin.
    + by rewrite app_nil_r.
    + apply NoDup_app. split; [done|]. split; [|apply NoDup_singleton].
      intros x Hx Hx'. apply list_elem_of_singleton in Hx'. by subst.
  - by apply upsert_ok.
Qed.




Lemma aggregateToHourly_shape (points : list Point) :
  Forall wholeSeconds points -> Forall (readablePoint rt) points ->
  Forall wholeSeconds (aggregateToHourly rt points)
  /\ Forall (readablePoint rt) (aggregateToHourly rt points)
  /\ Sorted (byKey p_start) (aggregateToHourly rt points)
  /\ NoDup (map (hourOf rt) (aggregateToHourly rt points)).
Proof.
  intros Hw Hr. unfold aggregateToHourly.
  destruct (foldl_addPoint_ok points [] Hw Hr) as [Hnd Hok]; [constructor|constructor|].
  set (buckets := foldl (addPoint rt) [] points) in *.
  assert (Forall (fun b => formatISO (b_start b) = b_start b
                          /\ formatISO (b_end b) = b_end b) (map snd buckets)) as Hws.
  { apply Forall_map. eapply Forall_impl; [exact Hok|]. by intros [k b] (_ & ? & ? & _). }
  assert (Forall (fun b => readable rt (b_start b) = true
                          /\ readable rt (b_end b) = true) (map snd buckets)) as Hrs.
  { apply Forall_map. eapply Forall_impl; [exact Hok|]. by intros [k b] (_ & _ & _ & ? & ?). }
  assert (map (fun b => hourStart rt (b_start b)) (map snd buckets) = map fst buckets) as Hkeys.
  { rewrite map_map. apply map_ext_Forall. eapply Forall_impl; [exact Hok|].
    by intros [k b] (? & _). }
  split; [|split; [|split]].
  - apply Forall_map. apply sortBy_Forall. eapply Forall_impl; [exact Hws|]. by intros b [? ?].
  - apply Forall_map. apply sortBy_Forall. eapply Forall_impl; [exact Hrs|]. by intros b [? ?].
  - apply (Sorted_byKey_map _ b_start); [done|]. apply sortBy_sorted.
  - rewrite map_map. unfold hourOf; simpl.
    rewrite (sortBy_perm b_start (map snd buckets)). by rewrite Hkeys.
Qed.


Lemma quarterWindow_whole (p : Point) : quarterWindow p -> wholeSeconds p.
Proof.
  intros [Hs He]. split; [done|]. by rewrite He, formatISO_quarter, Hs.
Qed.

(** In a zone without clock changes the minutes are added to the instant. *)
Lemma expandPoint_fixedOffset (offset : Z) (p : Point) :
  fixedOffset rt offset ->
  expandPoint rt p
  = map (fun index =>
           mkPoint (formatISO (p_start p + index * 15 * 60000))
                   (formatISO (p_start p + index * 15 * 60000 + 15 * 60000))
                   (jsDiv (p_value p) (slicesOf p)) (p_currency p))
        (seqZ 0 (slicesOf p)).
Proof.
  intros [Hlocal Hutc]. unfold expandPoint, addMinutes. cbv zeta.
  apply map_ext. intros index. rewrite !Hlocal, !Hutc.
  f_equal; f_equal; lia.
Qed.

Lemma expandPoint_whole (p q : Point) : q ∈ expandPoint rt p -> wholeSeconds q.
Proof.
  unfold expandPoint. intros Hq.
  apply list_elem_of_In, in_map_iff in Hq as (index & <- & _).
  split; simpl; apply formatISO_idem.
Qed.



Lemma expandToQuarterHour_whole (points : list Point) :
  Forall wholeSeconds (expandToQuarterHour rt points).
Proof.
  apply sortBy_Forall, Forall_forall. intros q Hq.
  apply list_elem_of_In, in_concat in Hq as (l & Hl & Hq).
  apply in_map_iff in Hl as (p & <- & _).
  eapply expandPoint_whole. by apply list_elem_of_In.
Qed.




(** ** normalizeSeries *)

Lemma normalizeSeries_Array (elements : list Element) (target : string) (out : list Point) :
  normalizeSeries rt (Array elements) target = Ok out ->
  elements = [] /\ out = []
  \/ exists sorted,
       sortedPoints rt elements = Ok sorted
       /\ out = if String.eqb target "1h" then
                  if bool_decide (detectInterval sorted = Some "1h") then sorted
                  else aggregateToHourly rt sorted
                else if String.eqb target "15m" then
                  if bool_decide (detectInterval sorted = Some "15m") then sorted
                  else expandToQuarterHour rt sorted
                else sorted.
Proof.
  destruct elements as [|el els]; simpl.
  - intros [= <-]. by left.
  - destruct (sortedPoints rt (el :: els)) as [sorted|]; [|done]. simpl.
    intros [= <-]. right. by exists sorted.
Qed.

Lemma normalizeSeries_shape (points : JsPoints) (target : string) (out : list Point) :
  normalizeSeries rt points target = Ok out ->
  Forall wholeSeconds out /\ Sorted (byKey p_start) out.
Proof.
  destruct points as [|elements]; [intros [= <-]; by split; constructor|].
  intros [[_ ->]|(sorted & Hsorted & ->)]%normalizeSeries_Array; [by split; constructor|].
  destruct (sortedPoints_shape _ _ _ Hsorted) as (Hw & Hr & _).
  pose proof (sortedPoints_sorted _ _ _ Hsorted) as Hs.
  destruct (String.eqb target "1h").
  { case_bool_decide; [done|].
    destruct (aggregateToHourly_shape sorted Hw Hr) as (? & _ & ? & _). done. }
  destruct (String.eqb target "15m"); [|done].
  case_bool_decide; [done|].
  split; [apply expandToQuarterHour_whole|apply sortBy_sorted].
Qed.



(** C9.  For a [points] argument that is not an array, and for the empty
    array, normalizeSeries returns the empty series whatever the target. *)
Theorem normalizeSeries_degenerate (targetInterval : string) :
  normalizeSeries rt NotArray targetInterval = Ok []
  /\ normalizeSeries rt (Array []) targetInterval = Ok [].
Proof. split; reflexivity. Qed.

End Idempotence.



End NormalizerFacts.

(* ===================================================================== *)
(** * Properties of the REST server                                       *)
(* ===================================================================== *)

Module RestFacts.
Import Json Js Rest Samples.

Lemma foldl_stepPath_undefined (parts : list string) : foldl stepPath None parts = None.
Proof. induction parts as [|part parts IH]; [done|]. simpl. apply IH. Qed.

Lemma stepPath_unresolved (v : Json) (part : string) :
  unresolvedAt v part -> stepPath (Some v) part = None.
Proof.
  intros [(fields & -> & Hnone)|(items & -> & Hidx & Hlen)]; simpl; [done|].
  rewrite Hidx. unfold nth.
  by rewrite (proj2 (N.ltb_ge _ _) Hlen).
Qed.

Lemma walk_unresolved (root v : Json) (pre post : list string) (part : string) :
  foldl stepPath (Some root) pre = Some v -> unresolvedAt v part ->
  foldl stepPath (Some root) (pre ++ part :: post) = None.
Proof.
  intros Hpre Hun. rewrite foldl_app, Hpre.
  change (foldl stepPath (stepPath (Some v) part) post = None).
  rewrite (stepPath_unresolved _ _ Hun). apply foldl_stepPath_undefined.
Qed.

Lemma fetched_date_valid (server : RestServer) (date : string) (obj : Json) :
  _fetchPriceObject server date = Some obj -> _isValidDate date = true.
Proof. unfold _fetchPriceObject. by destruct (_isValidDate date). Qed.

Section PathResolver.
Variable decodeURIComponent : string -> option string.
Hypothesis decode_plain :
  forall s, percentFree s = true -> decodeURIComponent s = Some s.

Lemma resolveRoute_fetched (server : RestServer) (date pathString shown : string) (obj : Json) :
  is_Some (priceService server) -> _fetchPriceObject server date = Some obj ->
  resolveRoute decodeURIComponent server date pathString shown
  = match _getByPath decodeURIComponent obj pathString with
    | Throw message => _sendError 500 message
    | Ok None => _sendError 404 ("Path not found: " +:+ shown)
    | Ok (Some value) => sendJson value
    end.
Proof.
  intros [ps Hps] Hobj. unfold resolveRoute.
  by rewrite Hps, (fetched_date_valid _ _ _ Hobj), Hobj.
Qed.

(** C6.  Below a stored day object, a path all of whose segments decode and
    one of whose segments does not resolve (a key the mapping lacks, an index
    beyond the end of the sequence) is answered 404 with the message "Path
    not found: " followed by the whole requested path, slash first; a path
    with a segment that does not decode is answered 500 "URI malformed",
    whatever its other segments are.  In particular hourly/99 against an
    hourly array of 24 elements gives "Path not found: /hourly/99", and
    daily/avgPrice against daily.avgPrice = 1.23 gives 1.23. *)
Theorem unresolved_segment_is_not_found :
  (forall server date obj path,
     is_Some (priceService server) ->
     _fetchPriceObject server date = Some obj ->
     isRootPath path = false ->
     mapM decodeURIComponent (pathParts path) = None ->
     routeGeneric decodeURIComponent server date path = _sendError 500 "URI malformed")
  /\ (forall server date obj path pre part post v,
     is_Some (priceService server) ->
     _fetchPriceObject server date = Some obj ->
     isRootPath path = false ->
     mapM decodeURIComponent (pathParts path) = Some (pre ++ part :: post) ->
     foldl stepPath (Some obj) pre = Some v ->
     unresolvedAt v part ->
     routeGeneric decodeURIComponent server date path
     = _sendError 404 ("Path not found: " +:+ normalized path))
  /\ (forall server date fields hourly,
        is_Some (priceService server) ->
        _fetchPriceObject server date = Some (JObj fields) ->
        lookupField "hourly" fields = Some (JArr hourly) ->
        length hourly = 24%nat ->
        routeGeneric decodeURIComponent server date "hourly/99"
        = _sendError 404 "Path not found: /hourly/99")
  /\ (forall server date fields daily,
        is_Some (priceService server) ->
        _fetchPriceObject server date = Some (JObj fields) ->
        lookupField "daily" fields = Some (JObj daily) ->
        lookupField "avgPrice" daily = Some (JNum "1.23") ->
        _getByPath decodeURIComponent (JObj fields) "daily/avgPrice" = Ok (Some (JNum "1.23"))
        /\ routeDailyElement decodeURIComponent server date "avgPrice" = sendJson (JNum "1.23")).
Proof.
  split; [|split; [|split]].
  - intros server date obj path Hps Hobj Hroot Hparts.
    unfold routeGeneric. rewrite (resolveRoute_fetched _ _ _ _ obj) by done.
    unfold _getByPath. by rewrite Hroot, Hparts.
  - intros server date obj path pre part post v Hps Hobj Hroot Hparts Hpre Hun.
    unfold routeGeneric. rewrite (resolveRoute_fetched _ _ _ _ obj) by done.
    unfold _getByPath. rewrite Hroot, Hparts.
    by rewrite (walk_unresolved _ _ _ _ _ Hpre Hun).
  - intros server date fields hourly Hps Hobj Hhourly Hlen.
    unfold routeGeneric. rewrite (resolveRoute_fetched _ _ _ _ (JObj fields)) by done.
    unfold _getByPath. simpl.
    rewrite !decode_plain by reflexivity. simpl.
    rewrite Hhourly. simpl. unfold nth. rewrite Hlen. done.
  - intros server date fields daily Hps Hobj Hdaily Havg.
    assert (_getByPath decodeURIComponent (JObj fields) "daily/avgPrice"
            = Ok (Some (JNum "1.23"))) as Hget.
    { unfold _getByPath. simpl. rewrite !decode_plain by reflexivity. simpl.
      rewrite Hdaily. simpl. by rewrite Havg. }
    split; [done|].
    unfold routeDailyElement. rewrite (resolveRoute_fetched _ _ _ _ (JObj fields)) by done.
    change ("daily/" +:+ "avgPrice") with "daily/avgPrice". by rewrite Hget.
Qed.

End PathResolver.

Lemma unresolved_segment_is_not_found_witness :
  routeGeneric plainDecode (cachedServer sampleDay) "2025-10-10" "hourly/0/%zz"
  = _sendError 500 "URI malformed"
  /\ routeGeneric plainDecode (cachedServer sampleDay) "2025-10-10" "hourly/99"
  = _sendError 404 "Path not found: /hourly/99"
  /\ routeGeneric plainDecode (cachedServer sampleDay) "2025-10-10" "daily/maxPrice/x"
     = _sendError 404 "Path not found: /daily/maxPrice/x"
  /\ routeDailyElement plainDecode (cachedServer sampleDay) "2025-10-10" "avgPrice"
     = sendJson (JNum "1.23").
Proof.
  assert (forall s, percentFree s = true -> plainDecode s = Some s) as Hdec.
  { intros s Hs. unfold plainDecode. by rewrite Hs. }
  destruct (unresolved_segment_is_not_found plainDecode Hdec)
    as (Hmalformed & Hgen & Hhour & Hdaily).
  split; [|split; [|split]].
  - eapply (Hmalformed (cachedServer sampleDay) "2025-10-10"); [by eexists|reflexivity..].
  - eapply (Hhour (cachedServer sampleDay) "2025-10-10"); [by eexists|reflexivity..].
  - apply (Hgen (cachedServer sampleDay) "2025-10-10" sampleDay "daily/maxPrice/x"
             ["daily"] "maxPrice" ["x"] (JObj [("avgPrice", JNum "1.23")]));
      [by eexists|reflexivity..|].
    left. by eexists.
  - eapply (Hdaily (cachedServer sampleDay) "2025-10-10"); [by eexists|reflexivity..].
Defined.

(** C6 fails as stated, twice.  The segment 99 of hourly/99/%zz does not
    resolve against the 24 elements of hourly, and the path is answered 500
    "URI malformed": every segment is decoded before the first is looked up.
    And daily/maxPrice/x fails at maxPrice, while the message shows the whole
    requested path. *)
Lemma unresolved_segment_is_answered_malformed :
  (exists v, foldl stepPath (Some sampleDay) ["hourly"] = Some v /\ unresolvedAt v "99")
  /\ routeGeneric plainDecode (cachedServer sampleDay) "2025-10-10" "hourly/99/%zz"
     = _sendError 500 "URI malformed"
  /\ (exists v, foldl stepPath (Some sampleDay) ["daily"] = Some v
                /\ unresolvedAt v "maxPrice")
  /\ routeGeneric plainDecode (cachedServer sampleDay) "2025-10-10" "daily/maxPrice/x"
     = _sendError 404 "Path not found: /daily/maxPrice/x"
  /\ "/daily/maxPrice/x" <> "/daily/maxPrice".
Proof.
  split; [|split; [|split; [|split]]].
  - eexists. split; [reflexivity|]. right. eexists. by split; [|split].
  - reflexivity.
  - eexists. split; [reflexivity|]. left. by eexists.
  - reflexivity.
  - done.
Qed.

(** ** A cache that cannot be reached *)

(** C5 fails on the code.  When neither the date getter nor the day window
    supplies the object and the existence check of the cache throws,
    _fetchPriceObject answers null and the generic route answers 404 "Price
    data not available", not a server error. *)
Theorem cache_failure_is_answered_not_found
    (decodeURIComponent : string -> option string)
    (server : RestServer) (ps : PriceService) (ca : CacheAccess)
    (getData : string -> result (option Json)) (dataExists : string -> result bool)
    (date path message : string) :
  priceService server = Some ps ->
  cacheAccess server = Some ca ->
  getPriceDataByDate ca = Some getData ->
  priceDataExists ca = Some dataExists ->
  _isValidDate date = true ->
  fromDayObject (Some ps) date = None ->
  fromWindow (Some ps) date = Ok None ->
  dataExists date = Throw message ->
  _fetchPriceObject server date = None
  /\ routeGeneric decodeURIComponent server date path
     = _sendError 404 ("Price data not available for date: " +:+ date)
  /\ status (routeGeneric decodeURIComponent server date path) = 404.
Proof.
  intros Hps Hca Hget Hex Hdate H1 H2 Hthrow.
  assert (_fetchPriceObject server date = None) as Hnone.
  { unfold _fetchPriceObject, fromCache.
    by rewrite Hdate, Hps, H1, H2, Hca, Hget, Hex, Hthrow. }
  split; [done|].
  unfold routeGeneric, resolveRoute, notAvailable.
  by rewrite Hps, Hdate, Hnone.
Qed.

Lemma cache_failure_is_answered_not_found_witness :
  _fetchPriceObject unreachableServer "2025-10-10" = None
  /\ routeGeneric plainDecode unreachableServer "2025-10-10" "hourly/0"
     = _sendError 404 "Price data not available for date: 2025-10-10"
  /\ status (routeGeneric plainDecode unreachableServer "2025-10-10" "hourly/0") = 404.
Proof.
  by eapply (cache_failure_is_answered_not_found plainDecode unreachableServer
               sampleService _ _ _ "2025-10-10" "hourly/0" "connect ECONNREFUSED").
Defined.

End RestFacts.

(* ===================================================================== *)
(** * Properties of the price manager                                     *)
(* ===================================================================== *)

Module ManagerFacts.
Import Json Js Manager.

(** ** cleanupCurrencyCache *)





(** ** Calls that leave the price cache alone *)

Lemma pricesUntouched_refl (w : World) : pricesUntouched w w.
Proof. split; [done|]. exists []. by rewrite app_nil_r. Qed.

Lemma pricesUntouched_trans (w1 w2 w3 : World) :
  pricesUntouched w1 w2 -> pricesUntouched w2 w3 -> pricesUntouched w1 w3.
Proof.
  intros [Hp1 (e1 & Ht1 & Hf1)] [Hp2 (e2 & Ht2 & Hf2)]. split; [congruence|].
  exists (e1 ++ e2). rewrite Ht2, Ht1, app_assoc. split; [done|]. by apply Forall_app.
Qed.

Lemma keepsPrices_ret {A : Type} (a : A) : keepsPrices (ret a).
Proof. intros w. apply pricesUntouched_refl. Qed.

Lemma keepsPrices_throw {A : Type} (message : string) : keepsPrices (@throw A message).
Proof. intros w. apply pricesUntouched_refl. Qed.

Lemma keepsPrices_lift {A : Type} (r : result A) : keepsPrices (lift r).
Proof. intros w. apply pricesUntouched_refl. Qed.

Lemma keepsPrices_bind {A B : Type} (m : M A) (k : A -> M B) :
  keepsPrices m -> (forall a, keepsPrices (k a)) -> keepsPrices (bindM m k).
Proof.
  intros Hm Hk w. unfold bindM. specialize (Hm w).
  destruct (m w) as [[a|message] w1]; simpl in *; [|done].
  eapply pricesUntouched_trans; [exact Hm|]. apply Hk.
Qed.

Lemma keepsPrices_tryCatch {A : Type} (body : M A) (handler : string -> M A) :
  keepsPrices body -> (forall message, keepsPrices (handler message)) ->
  keepsPrices (tryCatch body handler).
Proof.
  intros Hb Hh w. unfold tryCatch. specialize (Hb w).
  destruct (body w) as [[a|message] w1]; simpl in *; [done|].
  eapply pricesUntouched_trans; [exact Hb|]. apply Hh.
Qed.

Lemma keepsPrices_emit (e : Event) : isPriceEffect e = false -> keepsPrices (emit e).
Proof.
  intros He w. split; [done|]. exists [e]. split; [done|]. by constructor.
Qed.

Lemma keepsPrices_has (c : CacheName) (key : string) : keepsPrices (has c key).
Proof. intros w. apply pricesUntouched_refl. Qed.

Lemma keepsPrices_retrieveObject (c : CacheName) (key : string) :
  keepsPrices (retrieveObject c key).
Proof. intros w. apply pricesUntouched_refl. Qed.

Lemma keepsPrices_createObject (key : string) (value : Json) :
  keepsPrices (createObject CurrencyCache key value).
Proof.
  apply keepsPrices_bind; [by apply keepsPrices_emit|].
  intros _ w. split; [done|]. exists []. by rewrite app_nil_r.
Qed.

Lemma keepsPrices_clearRates : keepsPrices clearRates.
Proof.
  apply keepsPrices_bind; [by apply keepsPrices_emit|].
  intros _ w. split; [done|]. exists []. by rewrite app_nil_r.
Qed.

Create HintDb keeps_prices.
#[local] Hint Resolve keepsPrices_ret keepsPrices_throw keepsPrices_lift
  keepsPrices_has keepsPrices_retrieveObject keepsPrices_createObject
  keepsPrices_clearRates : keeps_prices.

Ltac keeps_prices :=
  repeat first
    [ solve [auto with keeps_prices]
    | apply keepsPrices_emit; reflexivity
    | apply keepsPrices_tryCatch; [|intros ?]
    | apply keepsPrices_bind; [|intros ?]
    | match goal with
      | |- keepsPrices (if ?b then _ else _) => destruct b
      | |- keepsPrices (match ?x with _ => _ end) => destruct x
      end ].

Lemma keepsPrices_fetchAndStoreCurrencyRates (env : Env) :
  keepsPrices (fetchAndStoreCurrencyRates env).
Proof. unfold fetchAndStoreCurrencyRates. keeps_prices. Qed.

Lemma keepsPrices_ensureCurrencyRates (env : Env) : keepsPrices (ensureCurrencyRates env).
Proof.
  unfold ensureCurrencyRates.
  pose proof (keepsPrices_fetchAndStoreCurrencyRates env).
  keeps_prices.
Qed.

Lemma ensureCurrencyRates_returns (env : Env) (w : World) :
  (ensureCurrencyRates env w).1 = Ok tt.
Proof.
  unfold ensureCurrencyRates, tryCatch.
  match goal with |- context [match ?b w with _ => _ end] => destruct (b w) as [[[]|m] w1] end;
    reflexivity.
Qed.

(** ** fetchPricesOnly on a cached date *)

Lemma priceDataExists_cached (env : Env) (dateStr : string) (obj : Json) (w : World) :
  cacheReady env = Ok tt ->
  priceCache w !! getPriceKey dateStr = Some obj ->
  priceDataExists env dateStr w = (Ok true, w).
Proof.
  intros Hready Hobj. unfold priceDataExists, ensureCacheReady, bindM, lift.
  rewrite Hready.
  destruct (match backendHas env with
            | Some backendHas => match backendHas (getPriceKey dateStr) with
                                 | Ok exists_ => exists_ | Throw _ => false end
            | None => false end); [done|].
  unfold has. simpl. rewrite Hobj. by rewrite bool_decide_eq_true_2.
Qed.

Lemma fetchPricesOnly_hit_eq (env : Env) (dayOffset : Z) (preferSource : string)
    (obj : Json) (w : World) :
  cacheReady env = Ok tt ->
  priceCache w !! getPriceKey (getDateForOffset env dayOffset) = Some obj ->
  fetchPricesOnly env dayOffset preferSource w
  = (Ok (Some obj), (ensureCurrencyRates env w).2).
Proof.
  intros Hready Hobj.
  unfold fetchPricesOnly, tryCatch, bindM at 1, ensureCacheReady at 1, lift.
  rewrite Hready. unfold bindM at 1.
  pose proof (ensureCurrencyRates_returns env w) as Hret.
  pose proof (keepsPrices_ensureCurrencyRates env w) as Hkeep.
  destruct (ensureCurrencyRates env w) as [r w1]. simpl in Hret, Hkeep. subst r.
  unfold bindM.
  rewrite (priceDataExists_cached env _ obj) by (try done; by rewrite (proj1 Hkeep)).
  unfold retrieveObject. simpl. by rewrite (proj1 Hkeep), Hobj.
Qed.

Lemma fetchPricesOnly_hit (env : Env) (dayOffset : Z) (preferSource : string)
    (obj : Json) (w : World) :
  cacheReady env = Ok tt ->
  priceCache w !! getPriceKey (getDateForOffset env dayOffset) = Some obj ->
  (fetchPricesOnly env dayOffset preferSource w).1 = Ok (Some obj)
  /\ pricesUntouched w (fetchPricesOnly env dayOffset preferSource w).2.
Proof.
  intros Hready Hobj. rewrite (fetchPricesOnly_hit_eq env _ _ obj) by done.
  split; [done|]. apply keepsPrices_ensureCurrencyRates.
Qed.

(** C1.  When the price cache holds an object under prices-D, the existence
    check answers true and fetchPricesOnly, for an offset that resolves to D,
    returns that object; the upstream price fetcher is not called and the
    price cache is not written.  A second call sees the same cache and does
    the same. *)
Theorem fetchPricesOnly_returns_cached
    (env1 env2 : Env) (w : World) (offset1 offset2 : Z) (source1 source2 : string)
    (D : string) (obj : Json) :
  cacheReady env1 = Ok tt ->
  cacheReady env2 = Ok tt ->
  getDateForOffset env1 offset1 = D ->
  getDateForOffset env2 offset2 = D ->
  priceCache w !! getPriceKey D = Some obj ->
  let first := fetchPricesOnly env1 offset1 source1 w in
  let second := fetchPricesOnly env2 offset2 source2 first.2 in
  (priceDataExists env1 D w).1 = Ok true
  /\ first.1 = Ok (Some obj)
  /\ second.1 = Ok (Some obj)
  /\ priceCache first.2 = priceCache w
  /\ priceCache second.2 = priceCache w
  /\ exists evs, trace second.2 = trace w ++ evs
                 /\ Forall (fun e => isPriceEffect e = false) evs.
Proof.
  intros Hr1 Hr2 HD1 HD2 Hobj first second.
  destruct (fetchPricesOnly_hit env1 offset1 source1 obj w Hr1) as [Hv1 Hw1];
    [by rewrite HD1|].
  fold first in Hv1, Hw1.
  destruct (fetchPricesOnly_hit env2 offset2 source2 obj first.2 Hr2) as [Hv2 Hw2];
    [by rewrite HD2, (proj1 Hw1)|].
  fold second in Hv2, Hw2.
  pose proof (pricesUntouched_trans _ _ _ Hw1 Hw2) as [Hp Hev].
  split; [by rewrite (priceDataExists_cached env1 D obj)|].
  repeat split; try done. apply Hw1.
Qed.

(** ** Signatures *)

Lemma keyLe_refl (a : string) : keyLe a a = true.
Proof.
  unfold keyLe. destruct (arrayIndex a) as [i|].
  - apply N.leb_refl.
  - by destruct (String.leb_total a a).
Qed.

Lemma lookupField_insertField (key : string) (x : string * Json) (l : list (string * Json)) :
  lookupField key (insertField x l)
  = if String.eqb x.1 key then Some x.2 else lookupField key l.
Proof.
  destruct x as [kx vx]. induction l as [|[ky vy] l IH]; simpl; [done|].
  destruct (keyLe kx ky) eqn:Hle; simpl; [done|].
  rewrite IH. simpl.
  destruct (String.eqb_spec ky key) as [->|_]; [|done].
  destruct (String.eqb_spec kx key) as [->|_]; [|done].
  by rewrite keyLe_refl in Hle.
Qed.

Lemma lookupField_sortFields (key : string) (l : list (string * Json)) :
  lookupField key (sortFields l) = lookupField key l.
Proof.
  induction l as [|[k v] l IH]; [done|].
  change (sortFields ((k, v) :: l)) with (insertField (k, v) (sortFields l)).
  rewrite lookupField_insertField, IH. done.
Qed.

Lemma lookupField_map_stable (key : string) (l : list (string * Json)) :
  lookupField key (map (fun kv => (kv.1, stable kv.2)) l) = stable <$> lookupField key l.
Proof.
  induction l as [|[k v] l IH]; [done|]. simpl.
  destruct (String.eqb k key); [done|]. apply IH.
Qed.

Lemma lookupField_strip (key : string) (l : list (string * Json)) :
  key <> "fetchedAt" ->
  lookupField key (filter (fun kv => kv.1 <> "fetchedAt") l) = lookupField key l.
Proof.
  intros Hkey. induction l as [|[k v] l IH]; [done|].
  rewrite filter_cons. simpl. case_decide as Hk; simpl.
  - by rewrite IH.
  - rewrite IH. destruct (String.eqb_spec k key) as [->|_]; [|done].
    exfalso. apply Hkey. by destruct (decide (key = "fetchedAt")).
Qed.

(** The replacer reorders keys; the text of a value as a template literal
    prints it does not depend on their order. *)
Lemma toString_stable : forall v, toString (stable v) = toString v.
Proof.
  fix IH 1. intros [| | | |items|fields]; simpl; try reflexivity.
  f_equal. induction items as [|x items IHitems]; [reflexivity|].
  simpl. f_equal; [|exact IHitems].
  pose proof (IH x) as Hx. destruct x; simpl in *; try reflexivity; exact Hx.
Qed.

(** Records that are the same up to key order and fetchedAt have the same
    date key. *)
Lemma dateKeyOf_stable (f1 f2 : list (string * Json)) :
  stable (stripFetchedAt (JObj f1)) = stable (stripFetchedAt (JObj f2)) ->
  dateKeyOf f1 = dateKeyOf f2.
Proof.
  simpl. intros [= Heq]. unfold dateKeyOf. f_equal.
  apply (f_equal (lookupField "date")) in Heq.
  rewrite !lookupField_sortFields, !lookupField_map_stable, !lookupField_strip in Heq by done.
  destruct (lookupField "date" f1) as [v1|], (lookupField "date" f2) as [v2|];
    simpl in *; try done.
  injection Heq as Heq. by rewrite <- (toString_stable v1), Heq, toString_stable.
Qed.

(** ** One fetch cycle of the currency rates, spelled out *)

Lemma fetchAndStoreCurrencyRates_eq (env : Env) (fields : list (string * Json)) (w : World) :
  currencyCacheReady env = Ok tt ->
  fetchCurrencies env = Ok (JObj fields) ->
  fetchAndStoreCurrencyRates env w = (Ok (JObj fields), cycleWorld fields w).
Proof.
  intros Hready Hfetch.
  unfold fetchAndStoreCurrencyRates, cycleWorld, unchangedRecord, sameSignature.
  unfold tryCatch, bindM, lift, emit, retrieveObject, has, createObject, clearRates, bindM, emit.
  rewrite Hready, Hfetch. simpl.
  fold (dateKeyOf fields). fold latestKey.
  destruct (currencyCache w !! dateKeyOf fields) as [e|] eqn:He; simpl.
  - destruct (truthy e) eqn:Ht; simpl.
    + case_bool_decide as Hsig.
      * rewrite bool_decide_eq_true_2 by congruence. simpl.
        case_bool_decide as Hlatest; simpl.
        -- destruct w; reflexivity.
        -- by rewrite <- !app_assoc.
      * rewrite bool_decide_eq_false_2 by congruence. simpl.
        by rewrite <- !app_assoc.
    + by rewrite <- !app_assoc.
  - by rewrite <- !app_assoc.
Qed.

Lemma fetchAndStoreCurrencyRates_not_ready (env : Env) (message : string) (w : World) :
  currencyCacheReady env = Throw message ->
  fetchAndStoreCurrencyRates env w = (Throw message, w).
Proof.
  intros Hready. unfold fetchAndStoreCurrencyRates, tryCatch, bindM, lift.
  by rewrite Hready.
Qed.

(** After a cycle that fetched a record, the cache holds under the record's
    date key a record with the same signature, and the latest pointer. *)
Lemma cycleWorld_settled (fields : list (string * Json)) (w : World) :
  is_Some (unchangedRecord fields (cycleWorld fields w))
  /\ is_Some (currencyCache (cycleWorld fields w) !! latestKey).
Proof.
  unfold cycleWorld. destruct (unchangedRecord fields w) as [e|] eqn:Hun.
  - case_bool_decide as Hlatest; simpl.
    + split; [|done]. unfold unchangedRecord in *. simpl.
      destruct (currencyCache w !! dateKeyOf fields); [|done]. by destruct (_ && _).
    + split; [|by rewrite lookup_insert_eq].
      unfold unchangedRecord in *. simpl.
      destruct (decide (latestKey = dateKeyOf fields)) as [Heq|Hne].
      * exfalso. apply Hlatest. rewrite Heq.
        destruct (currencyCache w !! dateKeyOf fields); [by eexists|done].
      * rewrite lookup_insert_ne by done.
        destruct (currencyCache w !! dateKeyOf fields); [|done]. by destruct (_ && _).
  - simpl. split; [|by rewrite lookup_insert_eq].
    unfold unchangedRecord. simpl.
    assert ((<[latestKey := JObj fields]> (<[dateKeyOf fields := JObj fields]> (currencyCache w)))
              !! dateKeyOf fields = Some (JObj fields)) as ->.
    { destruct (decide (latestKey = dateKeyOf fields)) as [<-|Hne].
      - by rewrite lookup_insert_eq.
      - by rewrite lookup_insert_ne, lookup_insert_eq. }
    simpl. unfold sameSignature. by rewrite bool_decide_eq_true_2.
Qed.

(** With the stored record unchanged and the latest pointer present, a cycle
    only fetches. *)
Lemma cycleWorld_quiet (fields : list (string * Json)) (w : World) :
  is_Some (unchangedRecord fields w) ->
  is_Some (currencyCache w !! latestKey) ->
  cycleWorld fields w
  = mkWorld (priceCache w) (currencyCache w) (currencyRateCache w)
      (trace w ++ [EvFetchCurrencies]).
Proof.
  intros [e He] Hlatest. unfold cycleWorld. rewrite He.
  by rewrite bool_decide_eq_true_2.
Qed.

Lemma unchangedRecord_stable (f1 f2 : list (string * Json)) (w : World) :
  stable (stripFetchedAt (JObj f1)) = stable (stripFetchedAt (JObj f2)) ->
  unchangedRecord f2 w = unchangedRecord f1 w.
Proof.
  intros Heq. unfold unchangedRecord, sameSignature, stableStringify.
  rewrite (dateKeyOf_stable f1 f2 Heq). by rewrite Heq.
Qed.

(** C7.  Two consecutive fetch cycles whose fetched records are the same up
    to key order once fetchedAt is stripped: the second cycle writes nothing
    to the cache and leaves the rate table as it is.  And in any one cycle,
    when the stored record has the signature of the fetched one, the rate
    table is not cleared and the fetched record is not written; the one write
    that can still happen is the stored record being put back under
    currencies-latest when that key is missing. *)
Theorem identical_rates_are_not_rewritten :
  (forall (env1 env2 : Env) (w : World) (f1 f2 : list (string * Json)),
     currencyCacheReady env1 = Ok tt ->
     fetchCurrencies env1 = Ok (JObj f1) ->
     fetchCurrencies env2 = Ok (JObj f2) ->
     stable (stripFetchedAt (JObj f1)) = stable (stripFetchedAt (JObj f2)) ->
     let w1 := (fetchAndStoreCurrencyRates env1 w).2 in
     let w2 := (fetchAndStoreCurrencyRates env2 w1).2 in
     currencyCache w2 = currencyCache w1
     /\ currencyRateCache w2 = currencyRateCache w1
     /\ priceCache w2 = priceCache w1
     /\ exists evs, trace w2 = trace w1 ++ evs /\ Forall (fun e => isWrite e = false) evs)
  /\ (forall (env : Env) (w : World) (f : list (string * Json)) (e : Json),
        fetchCurrencies env = Ok (JObj f) ->
        currencyCache w !! dateKeyOf f = Some e ->
        truthy e = true ->
        stableStringify (stripFetchedAt e) = stableStringify (stripFetchedAt (JObj f)) ->
        let w' := (fetchAndStoreCurrencyRates env w).2 in
        currencyRateCache w' = currencyRateCache w
        /\ currencyCache w' !! dateKeyOf f = Some e
        /\ exists evs, trace w' = trace w ++ evs
             /\ Forall (fun ev => ev = EvFetchCurrencies
                          \/ (ev = EvCreateObject CurrencyCache latestKey e
                              /\ currencyCache w !! latestKey = None)) evs).
Proof.
  split.
  - intros env1 env2 w f1 f2 Hready1 Hfetch1 Hfetch2 Hsame w1 w2.
    subst w1 w2. rewrite (fetchAndStoreCurrencyRates_eq env1 f1 w) by done. simpl.
    destruct (cycleWorld_settled f1 w) as [Hun Hlatest].
    destruct (currencyCacheReady env2) as [[]|message] eqn:Hready2.
    + rewrite (fetchAndStoreCurrencyRates_eq env2 f2) by done. simpl.
      rewrite cycleWorld_quiet; [|by rewrite (unchangedRecord_stable f1 f2)|done].
      simpl. repeat split. exists [EvFetchCurrencies]. split; [done|]. by repeat constructor.
    + rewrite (fetchAndStoreCurrencyRates_not_ready env2 message) by done. simpl.
      repeat split. exists []. by rewrite app_nil_r.
  - intros env w f e Hfetch He Htruthy Hsig w'. subst w'.
    destruct (currencyCacheReady env) as [[]|message] eqn:Hready.
    + rewrite (fetchAndStoreCurrencyRates_eq env f w) by done. simpl.
      unfold cycleWorld, unchangedRecord, sameSignature. rewrite He, Htruthy. simpl.
      rewrite bool_decide_eq_true_2 by done.
      case_bool_decide as Hlatest; simpl.
      * repeat split; [done|]. exists [EvFetchCurrencies]. split; [done|].
        constructor; [by left|constructor].
      * assert (currencyCache w !! latestKey = None) as Hnone.
        { destruct (currencyCache w !! latestKey) eqn:Hl; [|done].
          exfalso. apply Hlatest. by eexists. }
        repeat split.
        -- rewrite lookup_insert_ne; [done|]. intros Heq. by rewrite Heq, He in Hnone.
        -- eexists. split; [done|].
           constructor; [by left|]. constructor; [by right|constructor].
    + rewrite (fetchAndStoreCurrencyRates_not_ready env message) by done. simpl.
      repeat split; [done|]. exists []. by rewrite app_nil_r.
Qed.

End ManagerFacts.

(* ===================================================================== *)
(** * Properties of the publish cycle                                     *)
(* ===================================================================== *)

Module CliFacts.
Import Json Js Manager Cli.

Lemma bindM_ok {A B : Type} (m : M A) (k : A -> M B) (w w' : World) (a : A) :
  m w = (Ok a, w') -> bindM m k w = k a w'.
Proof. intros Hm. unfold bindM. by rewrite Hm. Qed.


Lemma getPriceDataByDate_ok (env : Env) (dateStr : string) (w : World) :
  cacheReady env = Ok tt ->
  getPriceDataByDate env dateStr w = (Ok (priceCache w !! getPriceKey dateStr), w).
Proof.
  intros Hready. unfold getPriceDataByDate, ensureCacheReady, bindM, lift.
  by rewrite Hready.
Qed.





End CliFacts.

(* ===================================================================== *)
(** * The theorems at concrete inputs                                     *)
(* ===================================================================== *)

Module Witnesses.
Import Json Js Rest Manager Cli Samples.

Lemma fetchPricesOnly_returns_cached_witness :
  (fetchPricesOnly (sampleEnv (rates "t1")) 0 "nordpool" sampleWorld).1
  = Ok (Some (dayObject "2025-10-15"))
  /\ priceCache (fetchPricesOnly (sampleEnv (rates "t1")) 0 "nordpool" sampleWorld).2
     = priceCache sampleWorld.
Proof.
  pose proof (ManagerFacts.fetchPricesOnly_returns_cached
                (sampleEnv (rates "t1")) (sampleEnv ratesAgain) sampleWorld
                0 0 "nordpool" "entsoe" "2025-10-15" (dayObject "2025-10-15")
                eq_refl eq_refl
                ltac:(vm_compute; reflexivity) ltac:(vm_compute; reflexivity)
                ltac:(vm_compute; reflexivity)) as H.
  cbv zeta in H. destruct H as (_ & H1 & _ & H2 & _). split; assumption.
Defined.

Lemma identical_rates_are_not_rewritten_witness :
  currencyCache
    (fetchAndStoreCurrencyRates (sampleEnv ratesAgain)
       (fetchAndStoreCurrencyRates (sampleEnv (rates "t1")) sampleWorld).2).2
  = currencyCache (fetchAndStoreCurrencyRates (sampleEnv (rates "t1")) sampleWorld).2.
Proof.
  pose proof (proj1 ManagerFacts.identical_rates_are_not_rewritten
                (sampleEnv (rates "t1")) (sampleEnv ratesAgain) sampleWorld
                (rates "t1") ratesAgain eq_refl eq_refl eq_refl
                ltac:(vm_compute; reflexivity)) as H.
  cbv zeta in H. exact (proj1 H).
Defined.



End Witnesses.

(* ===================================================================== *)
(** * More about the interval normaliser                                  *)
(* ===================================================================== *)

Module NormalizerMore.
Import Js Normalizer NormalizerSpec NormalizerSamples NormalizerFacts.

(** X1.  detectInterval answers null exactly on a series of fewer than two
    points, and otherwise nothing but 15m or 1h. *)
Theorem detectInterval_range (points : list Point) :
  (detectInterval points = None <-> (length points < 2)%nat)
  /\ (forall interval, detectInterval points = Some interval ->
        interval = "15m" \/ interval = "1h").
Proof.
  destruct points as [|a [|b rest]]; simpl.
  - split; [split; [lia|done]|done].
  - split; [split; [lia|done]|done].
  - split.
    + split; [|lia]. by repeat case_match.
    + intros interval. repeat case_match; intros [= <-]; auto.
Qed.

Section Passes.
Variable rt : Runtime.

(** X2.  Whatever goes in, what normalizeSeries returns is in ascending order
    of start, and every start and end in it is on a whole second. *)
Theorem normalizeSeries_ascending
    (points : JsPoints) (targetInterval : string) (out : list Point) :
  normalizeSeries rt points targetInterval = Ok out ->
  Sorted (byKey p_start) out /\ Forall wholeSeconds out.
Proof.
  intros Hout. destruct (normalizeSeries_shape rt points targetInterval out Hout) as [Hw Hs].
  by split.
Qed.

(** *** aggregateToHourly *)

Lemma upsert_keyed (p : Point) (buckets : list (Z * Bucket)) :
  Forall (keyedBucket rt) buckets ->
  Forall (keyedBucket rt) (upsert (hourOf rt p) p buckets).
Proof.
  induction 1 as [|[k b] rest Hkb Hrest IH]; simpl.
  - constructor; [|constructor]. unfold keyedBucket, updateBucket; simpl.
    by rewrite Z.ltb_irrefl.
  - destruct (Z.eqb_spec k (hourOf rt p)) as [->|Hne]; [|by constructor].
    constructor; [|done]. unfold keyedBucket, updateBucket in *; simpl in *.
    by destruct (p_start p <? b_start b).
Qed.

Lemma foldl_addPoint_keys (points : list Point) (buckets : list (Z * Bucket)) :
  NoDup (map fst buckets) -> Forall (keyedBucket rt) buckets ->
  NoDup (map fst (foldl (addPoint rt) buckets points))
  /\ Forall (keyedBucket rt) (foldl (addPoint rt) buckets points)
  /\ (forall k, k ∈ map fst (foldl (addPoint rt) buckets points)
                <-> k ∈ map fst buckets \/ k ∈ map (hourOf rt) points).
Proof.
  revert buckets. induction points as [|p points IH]; intros buckets Hnd Hok.
  - simpl. repeat split; [done..| |]; [by left|]. intros [?|Hk]; [done|]. by apply elem_of_nil in Hk.
  - simpl. destruct (IH (addPoint rt buckets p)) as (IH1 & IH2 & IH3).
    + unfold addPoint. rewrite upsert_keys. case_bool_decide as Hin.
      * by rewrite app_nil_r.
      * apply NoDup_app. split; [done|]. split; [|apply NoDup_singleton].
        intros x Hx Hx'. apply list_elem_of_singleton in Hx'. by subst.
    + by apply upsert_keyed.
    + split; [done|]. split; [done|]. intros k. rewrite IH3.
      unfold addPoint. rewrite upsert_keys, elem_of_app, elem_of_cons.
      fold (hourOf rt p).
      case_bool_decide as Hin.
      * rewrite elem_of_nil. split; [intuition|].
        intros [?|[->|?]]; [intuition..].
      * rewrite list_elem_of_singleton. intuition.
Qed.

(** X3.  aggregateToHourly returns one point for every local hour in which an
    input point starts, and no other: the hours of the outcome are distinct,
    they are the hours of the input, and the outcome is in ascending order of
    start. *)
Theorem aggregateToHourly_one_per_hour (points : list Point) :
  NoDup (map (hourOf rt) (aggregateToHourly rt points))
  /\ (forall hour, hour ∈ map (hourOf rt) (aggregateToHourly rt points)
                   <-> hour ∈ map (hourOf rt) points)
  /\ Sorted (byKey p_start) (aggregateToHourly rt points)
  /\ (length (aggregateToHourly rt points) <= length points)%nat.
Proof.
  unfold aggregateToHourly.
  destruct (foldl_addPoint_keys points []) as (Hnd & Hok & Hkeys); [constructor..|].
  set (buckets := foldl (addPoint rt) [] points) in *.
  assert (map (hourOf rt) (map bucketPoint (sortBy b_start (map snd buckets)))
          ≡ₚ map fst buckets) as Hperm.
  { rewrite map_map. unfold hourOf; simpl.
    rewrite (sortBy_perm b_start (map snd buckets)), map_map.
    erewrite map_ext_Forall; [done|].
    eapply Forall_impl; [exact Hok|]. by intros [k b]. }
  split; [by rewrite Hperm|]. split; [|split].
  - intros hour. rewrite Hperm, Hkeys. split; [intros [H|H]; [by apply elem_of_nil in H|done]|by right].
  - apply (Sorted_byKey_map _ b_start); [done|]. apply sortBy_sorted.
  - rewrite length_map, (Permutation_length (sortBy_perm b_start _)), length_map.
    rewrite <- (length_map fst), <- (length_map (hourOf rt) points).
    apply NoDup_incl_length; [by apply NoDup_ListNoDup|].
    intros k Hk. apply list_elem_of_In. apply list_elem_of_In, Hkeys in Hk as [Hk|Hk]; [|done].
    by apply elem_of_nil in Hk.
Qed.

Lemma foldl_addPoint_same_hour (k : Z) (points : list Point) (b : Bucket) :
  Forall (fun q => hourOf rt q = k) points ->
  foldl (addPoint rt) [(k, b)] points
  = [(k, foldl (fun b q => updateBucket q (Some b)) b points)].
Proof.
  intros Hk. revert b. induction Hk as [|q points Hq _ IH]; intros b; [done|].
  simpl. unfold addPoint at 2. fold (hourOf rt q). rewrite Hq. simpl.
  rewrite Z.eqb_refl. apply IH.
Qed.

Lemma merged_bucket (points : list Point) (b : Bucket) :
  let merged := foldl (fun b q => updateBucket q (Some b)) b points in
  b_start merged = foldl (fun m q => Z.min m (p_start q)) (b_start b) points
  /\ b_end merged = foldl (fun m q => Z.max m (p_end q)) (b_end b) points
  /\ b_sum merged = foldl (fun s q => jsAdd s (p_value q)) (b_sum b) points
  /\ b_count merged = b_count b + Z.of_nat (length points)
  /\ b_currency merged
     = foldl (fun c q => if truthyStr c then c else p_currency q) (b_currency b) points.
Proof.
  revert b. induction points as [|q points IH]; intros b.
  - simpl. repeat split. lia.
  - cbn zeta. simpl foldl.
    destruct (IH (updateBucket q (Some b))) as (H1 & H2 & H3 & H4 & H5).
    rewrite H1, H2, H3, H4, H5. unfold updateBucket; cbn -[jsAdd].
    repeat split.
    + f_equal. destruct (Z.ltb_spec (p_start q) (b_start b)); lia.
    + f_equal. destruct (Z.ltb_spec (b_end b) (p_end q)); lia.
    + lia.
Qed.

(** X4.  Points that start in one and the same local hour are aggregated
    into a single point: it starts at the earliest start, ends at the latest
    end, carries the first truthy currency, and its value is the arithmetic
    mean of the values. *)
Theorem aggregateToHourly_mean (p : Point) (rest : list Point) :
  Forall (fun q => hourOf rt q = hourOf rt p) rest ->
  aggregateToHourly rt (p :: rest)
  = [mkPoint (minStart p rest) (maxEnd p rest)
       (jsDiv (sumValues (p :: rest)) (count (p :: rest)))
       (firstCurrency p rest)].
Proof.
  intros Hsame. unfold aggregateToHourly.
  change (foldl (addPoint rt) [] (p :: rest))
    with (foldl (addPoint rt) [(hourOf rt p, updateBucket p None)] rest).
  rewrite (foldl_addPoint_same_hour _ _ _ Hsame). cbn -[jsAdd jsDiv].
  destruct (merged_bucket rest (updateBucket p None)) as (H1 & H2 & H3 & H4 & H5).
  unfold bucketPoint. rewrite H1, H2, H3, H4, H5.
  unfold updateBucket; cbn -[jsAdd jsDiv]. rewrite !Z.ltb_irrefl.
  replace (0 + 1 + Z.of_nat (length rest)) with (Z.of_nat (S (length rest))) by lia.
  rewrite (proj2 (Z.ltb_lt 0 _)) by lia.
  unfold minStart, maxEnd, firstCurrency, sumValues, count. cbn -[jsAdd jsDiv Z.of_nat].
  f_equal. by destruct (truthyStr (p_currency p)).
Qed.

(** *** expandToQuarterHour *)




(** X6.  In a zone without clock changes, a point that passed the filter
    and whose window is exactly one hour, starting on a whole second, expands
    to the four quarter hours of that hour, each carrying a quarter of the
    value and the point's currency. *)
Theorem expandToQuarterHour_hour (offset s : Z) (v : JsNumber) (c : option string) :
  fixedOffset rt offset ->
  readablePoint rt (mkPoint s (s + 60 * 60000) v c) ->
  formatISO s = s ->
  expandToQuarterHour rt [mkPoint s (s + 60 * 60000) v c] = quarters s (jsDiv v 4) c.
Proof.
  intros Hfixed _ Hs.
  assert (slicesOf (mkPoint s (s + 60 * 60000) v c) = 4) as Hslices.
  { unfold slicesOf. cbn [p_start p_end].
    replace (s + 60 * 60000 - s) with 3600000 by lia. reflexivity. }
  unfold expandToQuarterHour. cbn [map concat]. rewrite app_nil_r.
  rewrite (expandPoint_fixedOffset rt offset _ Hfixed). rewrite Hslices.
  change (seqZ 0 4) with [0; 1; 2; 3]. cbn [map p_start p_end p_value p_currency].
  assert (forall k, formatISO (s + k * 1000) = s + k * 1000) as Hk.
  { intros k. unfold formatISO in *. rewrite Z.div_add by lia. lia. }
  replace (s + 0 * 15 * 60000) with (s + 0 * 1000) by lia.
  replace (s + 0 * 1000 + 15 * 60000) with (s + 900 * 1000) by lia.
  replace (s + 1 * 15 * 60000) with (s + 900 * 1000) by lia.
  replace (s + 900 * 1000 + 15 * 60000) with (s + 1800 * 1000) by lia.
  replace (s + 2 * 15 * 60000) with (s + 1800 * 1000) by lia.
  replace (s + 1800 * 1000 + 15 * 60000) with (s + 2700 * 1000) by lia.
  replace (s + 3 * 15 * 60000) with (s + 2700 * 1000) by lia.
  replace (s + 2700 * 1000 + 15 * 60000) with (s + 3600 * 1000) by lia.
  rewrite !Hk. rewrite Z.add_0_r.
  rewrite sortBy_id.
  - unfold quarters. repeat f_equal; lia.
  - repeat constructor; unfold byKey; simpl; lia.
Qed.

End Passes.

Lemma normalizeSeries_ascending_witness :
  normalizeSeries oslo lastSummerHour "15m"
  = Ok (sortBy p_start
          (expandPoint oslo (mkPoint 1761433200000 1761434100000 (Num 1%Qc) None)
           ++ expandPoint oslo
                (mkPoint 1761436800000 1761440400000 (Num (Q2Qc (inject_Z 4))) None)))
  /\ Sorted (byKey p_start)
       (sortBy p_start
          (expandPoint oslo (mkPoint 1761433200000 1761434100000 (Num 1%Qc) None)
           ++ expandPoint oslo
                (mkPoint 1761436800000 1761440400000 (Num (Q2Qc (inject_Z 4))) None))).
Proof.
  assert (normalizeSeries oslo lastSummerHour "15m"
          = Ok (sortBy p_start
                  (expandPoint oslo (mkPoint 1761433200000 1761434100000 (Num 1%Qc) None)
                   ++ expandPoint oslo
                        (mkPoint 1761436800000 1761440400000 (Num (Q2Qc (inject_Z 4))) None))))
    as Hout.
  { vm_compute. reflexivity. }
  split; [exact Hout|].
  exact (proj1 (normalizeSeries_ascending oslo _ _ _ Hout)).
Defined.

Lemma aggregateToHourly_mean_witness :
  let p := mkPoint 0 900000 (Num (Q2Qc (inject_Z 2))) (Some "EUR") in
  let rest := [mkPoint 900000 1800000 (Num (Q2Qc (inject_Z 4))) None] in
  Forall (fun q => hourOf plusOne q = hourOf plusOne p) rest
  /\ aggregateToHourly plusOne (p :: rest)
     = [mkPoint (minStart p rest) (maxEnd p rest)
          (jsDiv (sumValues (p :: rest)) (count (p :: rest))) (firstCurrency p rest)].
Proof.
  assert (Forall (fun q => hourOf plusOne q
                           = hourOf plusOne
                               (mkPoint 0 900000 (Num (Q2Qc (inject_Z 2))) (Some "EUR")))
            [mkPoint 900000 1800000 (Num (Q2Qc (inject_Z 4))) None]) as Hsame.
  { repeat constructor. }
  split; [exact Hsame|].
  exact (aggregateToHourly_mean plusOne _ _ Hsame).
Defined.


Lemma expandToQuarterHour_hour_witness :
  fixedOffset plusOne 3600000
  /\ readablePoint plusOne
       (mkPoint 7200000 (7200000 + 60 * 60000) (Num (Q2Qc (inject_Z 8))) (Some "EUR"))
  /\ formatISO 7200000 = 7200000
  /\ expandToQuarterHour plusOne
       [mkPoint 7200000 (7200000 + 60 * 60000) (Num (Q2Qc (inject_Z 8))) (Some "EUR")]
     = quarters 7200000 (jsDiv (Num (Q2Qc (inject_Z 8))) 4) (Some "EUR").
Proof.
  assert (fixedOffset plusOne 3600000) as Hfixed.
  { split; intros t; reflexivity. }
  assert (readablePoint plusOne
            (mkPoint 7200000 (7200000 + 60 * 60000) (Num (Q2Qc (inject_Z 8))) (Some "EUR")))
    as Hreadable.
  { split; reflexivity. }
  split; [exact Hfixed|]. split; [exact Hreadable|]. split; [reflexivity|].
  exact (expandToQuarterHour_hour plusOne 3600000 7200000 _ _ Hfixed Hreadable eq_refl).
Defined.

End NormalizerMore.

(* ===================================================================== *)
(** * More on the REST server                                             *)
(* ===================================================================== *)

Module RestMore.
Import Json Js Rest RestRoutes RestFacts Samples.

Lemma _sendError_answered (code : Z) (message : string) :
  code = 400 \/ code = 404 \/ code = 500 -> answered (_sendError code message).
Proof. unfold answered. simpl. tauto. Qed.

Lemma resolveRoute_answered decode (server : RestServer) (date pathString shown : string) :
  answered (resolveRoute decode server date pathString shown).
Proof.
  unfold resolveRoute, notAvailable.
  destruct (priceService server); [|apply _sendError_answered; tauto].
  destruct (_isValidDate date); simpl; [|apply _sendError_answered; tauto].
  destruct (_fetchPriceObject server date); [|apply _sendError_answered; tauto].
  destruct (_getByPath decode j pathString) as [[v|]|message];
    [by left|apply _sendError_answered; tauto..].
Qed.

Lemma resolveRoute_no_service decode (server : RestServer) (date pathString shown : string) :
  priceService server = None ->
  resolveRoute decode server date pathString shown
  = _sendError 500 "Price service not initialized".
Proof. intros Hps. unfold resolveRoute. by rewrite Hps. Qed.

Lemma resolveRoute_bad_date decode (server : RestServer) (date pathString shown : string) :
  is_Some (priceService server) -> _isValidDate date = false ->
  resolveRoute decode server date pathString shown
  = _sendError 400 "Invalid date format. Expected YYYY-MM-DD.".
Proof. intros [ps Hps] Hdate. unfold resolveRoute. by rewrite Hps, Hdate. Qed.

(** X7.  Every route below /api/prices/:date answers 200, 400, 404 or 500
    and nothing else.  All of them check in the same order: without a price
    service the answer is 500 "Price service not initialized" whatever the
    date, and with one a date that is not YYYY-MM-DD is answered 400 before
    any data is looked up. *)
Theorem routes_answer_in_order decode (server : RestServer) (date hour element path : string) :
  let answers :=
    [routeDaily decode server date; routeDailyElement decode server date element;
     routeHour decode server date hour; routeHourElement decode server date hour element;
     routeGeneric decode server date path; routeWholeDay server date] in
  Forall answered answers
  /\ (priceService server = None ->
      Forall (fun r => r = _sendError 500 "Price service not initialized") answers)
  /\ (is_Some (priceService server) -> _isValidDate date = false ->
      Forall (fun r => r = _sendError 400 "Invalid date format. Expected YYYY-MM-DD.")
        answers).
Proof.
  cbv zeta. split; [|split].
  - repeat (apply List.Forall_cons); try apply List.Forall_nil;
      unfold routeDaily, routeDailyElement, routeGeneric, routeHour, routeHourElement,
        routeWholeDay;
      try apply resolveRoute_answered;
      (destruct (priceService server); [|apply _sendError_answered; tauto]);
      (destruct (_isValidDate date); simpl; [|apply _sendError_answered; tauto]).
    + destruct (_ <? _)%N; [apply _sendError_answered; tauto|apply resolveRoute_answered].
    + destruct (_ <? _)%N; [apply _sendError_answered; tauto|apply resolveRoute_answered].
    + destruct (_fetchPriceObject server date); [by left|apply _sendError_answered; tauto].
  - intros Hps.
    repeat (apply List.Forall_cons); try apply List.Forall_nil;
      unfold routeDaily, routeDailyElement, routeGeneric, routeHour, routeHourElement,
        routeWholeDay;
      try (by apply resolveRoute_no_service); by rewrite Hps.
  - intros Hsome Hdate.
    repeat (apply List.Forall_cons); try apply List.Forall_nil;
      unfold routeDaily, routeDailyElement, routeGeneric, routeHour, routeHourElement,
        routeWholeDay;
      try (by apply resolveRoute_bad_date);
      destruct Hsome as [ps Hps]; by rewrite Hps, Hdate.
Qed.

(** ** _fetchPriceObject *)

Lemma truthyObject_truthy (r : result (option Json)) (obj : Json) :
  truthyObject r = Some obj -> truthy obj = true.
Proof.
  destruct r as [[o|]|message]; simpl; try done.
  destruct (truthy o) eqn:Ht; [|done]. by intros [= <-].
Qed.

Lemma tryGetter_truthy (applies : bool) (getter : option (result (option Json)))
    (next : result (option Json)) (obj : Json) :
  (next = Ok (Some obj) -> truthy obj = true) ->
  tryGetter applies getter next = Ok (Some obj) -> truthy obj = true.
Proof.
  intros Hnext. unfold tryGetter.
  destruct applies, getter as [[o|message]|]; simpl; try done.
  destruct (truthyOpt o) eqn:Ht; [|done].
  intros [= ->]. exact Ht.
Qed.

Lemma fromWindow_truthy (ps : option PriceService) (date : string) (obj : Json) :
  fromWindow ps date = Ok (Some obj) -> truthy obj = true.
Proof.
  unfold fromWindow. destruct ps as [ps|]; [|done].
  destruct (optCall (getCurrentPriceDate ps)) as [currentDate|]; [|done]. simpl.
  destruct (optCall (isNextDayAvailable ps)) as [available|]; [|done]. simpl.
  destruct (if default false available then optCall (getNextPriceDate ps) else Ok None)
    as [nextDate|]; [|done]. simpl.
  destruct (optCall (getPreviousPriceDate ps)) as [previousDate|]; [|done]. simpl.
  repeat (apply tryGetter_truthy). done.
Qed.

Lemma fromCache_truthy (ca : option CacheAccess) (date : string) (obj : Json) :
  fromCache ca date = Some obj -> truthy obj = true.
Proof.
  unfold fromCache. destruct ca as [ca|]; [|done].
  destruct (getPriceDataByDate ca) as [getData|]; [|done].
  destruct (priceDataExists ca) as [dataExists|]; [|done].
  destruct (dataExists date) as [[]|]; try done.
  destruct (getData date) as [[cached|]|]; try done.
  destruct (truthy cached) eqn:Ht; [|done]. by intros [= <-].
Qed.

(** X8.  Whatever the price service and the cache answer or throw,
    _fetchPriceObject gives an object only for a date of the form YYYY-MM-DD,
    and the object it gives is truthy: a falsy answer of a getter or of the
    cache is never handed on. *)
Theorem _fetchPriceObject_truthy (server : RestServer) (date : string) (obj : Json) :
  _fetchPriceObject server date = Some obj ->
  _isValidDate date = true /\ truthy obj = true.
Proof.
  intros Hobj. split; [by eapply fetched_date_valid|].
  unfold _fetchPriceObject in Hobj.
  destruct (_isValidDate date); [|done]. simpl in Hobj.
  destruct (fromDayObject (priceService server) date) as [o|] eqn:Hday.
  - injection Hobj as ->. unfold fromDayObject in Hday.
    destruct (priceService server) as [ps|]; [|done].
    destruct (getDayObject ps) as [getter|]; [|done].
    by eapply truthyObject_truthy.
  - destruct (fromWindow (priceService server) date) as [[o|]|message] eqn:Hwin.
    + injection Hobj as ->. by eapply fromWindow_truthy.
    + by eapply fromCache_truthy.
    + by eapply fromCache_truthy.
Qed.

Lemma _fetchPriceObject_truthy_witness :
  _fetchPriceObject (cachedServer sampleDay) "2025-10-10" = Some sampleDay
  /\ _isValidDate "2025-10-10" = true /\ truthy sampleDay = true.
Proof.
  split; [reflexivity|].
  exact (_fetchPriceObject_truthy (cachedServer sampleDay) "2025-10-10" sampleDay eq_refl).
Defined.

(** ** Paths *)

Lemma split_nonempty (c : ascii) (s : string) : split c s <> [].
Proof.
  induction s as [|a s IH]; simpl; [done|].
  destruct (Ascii.eqb a c); [done|]. by destruct (split c s).
Qed.

Lemma split_app (p q : string) :
  split slash (p +:+ "/" +:+ q) = split slash p ++ split slash q.
Proof.
  induction p as [|a p IH]; [done|].
  change (String a p +:+ "/" +:+ q) with (String a (p +:+ "/" +:+ q)).
  simpl. rewrite IH. destruct (Ascii.eqb a slash); [done|].
  pose proof (split_nonempty slash p). by destruct (split slash p).
Qed.

Lemma mapM_app {A B : Type} (f : A -> option B) (l1 l2 : list A) (k1 : list B) :
  mapM f l1 = Some k1 ->
  mapM f (l1 ++ l2) = match mapM f l2 with Some k2 => Some (k1 ++ k2) | None => None end.
Proof.
  revert k1. induction l1 as [|x l1 IH]; intros k1; simpl.
  - intros [= <-]. by destruct (mapM f l2).
  - destruct (f x) as [y|]; [|done]. simpl.
    destruct (mapM f l1) as [k|]; [|done]. simpl. intros [= <-].
    rewrite (IH k eq_refl). by destruct (mapM f l2).
Qed.

Lemma stripSlashes_idem (s : string) : stripSlashes (stripSlashes s) = stripSlashes s.
Proof.
  induction s as [|a s IH]; [done|]. simpl.
  destruct (Ascii.eqb a slash) eqn:Ha; [done|]. simpl. by rewrite Ha.
Qed.

Lemma stripSlashes_app (p rest : string) :
  p <> "" -> stripSlashes p = p -> stripSlashes (p +:+ rest) = p +:+ rest.
Proof.
  destruct p as [|a p]; [done|]. intros _. simpl.
  destruct (Ascii.eqb a slash) eqn:Ha; [|done].
  intros Hp. exfalso.
  assert (String.length (stripSlashes p) <= String.length p)%nat as Hlen.
  { clear. induction p as [|b p IH]; simpl; [lia|].
    destruct (Ascii.eqb b slash); simpl; lia. }
  rewrite Hp in Hlen. simpl in Hlen. lia.
Qed.

Lemma stripped_not_root (s : string) :
  s <> "" -> stripSlashes s = s -> isRootPath s = false.
Proof.
  intros Hne Hs. unfold isRootPath.
  destruct s as [|a s]; [done|]. simpl in *.
  destruct (Ascii.eqb a slash) eqn:Ha.
  - exfalso.
    assert (String.length (stripSlashes s) <= String.length s)%nat as Hlen.
    { clear. induction s as [|b s IH]; simpl; [lia|].
      destruct (Ascii.eqb b slash); simpl; lia. }
    rewrite Hs in Hlen. simpl in Hlen. lia.
  - unfold slash in Ha. by rewrite Ha.
Qed.

Section Paths.
Variable decodeURIComponent : string -> option string.

(** X9.  Walking a path is done segment by segment: when the path [p]
    (without a leading slash) leads from the root to a value, the path p/q
    leads from the root where [q] leads from that value, and fails to decode
    when [q] does. *)
Theorem _getByPath_composes (root v : Json) (p q : string) :
  stripSlashes p = p -> q <> "" -> stripSlashes q = q ->
  _getByPath decodeURIComponent root p = Ok (Some v) ->
  _getByPath decodeURIComponent root (p +:+ "/" +:+ q)
  = _getByPath decodeURIComponent v q.
Proof.
  intros Hp Hq Hsq Hwalk.
  assert (isRootPath q = false) as Hrq by by apply stripped_not_root.
  destruct (decide (p = "")) as [->|Hne].
  - injection Hwalk as <-.
    unfold _getByPath, pathParts. rewrite Hrq.
    replace (isRootPath ("" +:+ "/" +:+ q)) with false; [done|].
    destruct q; [done|]. reflexivity.
  - unfold _getByPath in *.
    rewrite (stripped_not_root p Hne Hp) in Hwalk.
    replace (isRootPath (p +:+ "/" +:+ q)) with false.
    2:{ symmetry. apply stripped_not_root.
        - by destruct p.
        - by apply stripSlashes_app. }
    rewrite Hrq. unfold pathParts in *.
    rewrite stripSlashes_app by done. rewrite split_app. rewrite Hp in Hwalk. rewrite Hsq.
    destruct (mapM decodeURIComponent (split slash p)) as [parts|] eqn:Hparts; [|done].
    rewrite (mapM_app _ _ _ _ Hparts).
    destruct (mapM decodeURIComponent (split slash q)) as [more|]; [|done].
    rewrite foldl_app. by injection Hwalk as ->.
Qed.

(** X10.  Leading slashes of a path are ignored, as long as something
    follows them.  A path of nothing but two or more slashes is not the
    root: it asks for the property with the empty name. *)
Theorem _getByPath_leading_slashes (root : Json) (p : string) :
  (stripSlashes p <> "" ->
   _getByPath decodeURIComponent root p
   = _getByPath decodeURIComponent root (stripSlashes p))
  /\ (stripSlashes p = "" -> isRootPath p = false ->
      _getByPath decodeURIComponent root p
      = match decodeURIComponent "" with
        | Some part => Ok (stepPath (Some root) part)
        | None => Throw "URI malformed"
        end).
Proof.
  split.
  { intros Hne. unfold _getByPath, pathParts.
    rewrite stripSlashes_idem.
    rewrite (stripped_not_root (stripSlashes p) Hne (stripSlashes_idem p)).
    replace (isRootPath p) with false; [done|].
    unfold isRootPath. destruct p as [|a [|b p]]; try done.
    - simpl in *. destruct (Ascii.eqb a slash) eqn:Ha; [done|].
      unfold slash in Ha. by rewrite Ha.
    - simpl. by destruct (Ascii.eqb a "/"). }
  intros Hs Hroot. unfold _getByPath, pathParts. rewrite Hroot, Hs. simpl.
  by destruct (decodeURIComponent "").
Qed.

Hypothesis decode_plain :
  forall s, percentFree s = true -> decodeURIComponent s = Some s.

Lemma nth_lookup (items : list Json) (n : N) : nth items n = items !! N.to_nat n.
Proof.
  unfold nth. destruct (N.ltb_spec n (N.of_nat (length items))); [done|].
  symmetry. apply lookup_ge_None. lia.
Qed.

Lemma hourSegment_ok (n : N) : (n <= 23)%N -> hourSegment n = true.
Proof.
  intros Hn.
  assert (forallb hourSegment (map N.of_nat (seq 0 24)) = true) as Hall
    by (vm_compute; reflexivity).
  rewrite forallb_forall in Hall. apply Hall.
  apply in_map_iff. exists (N.to_nat n). split; [lia|]. apply in_seq. lia.
Qed.

(** X11.  The hour shorthand /:date/:hour (the hour is a string of digits,
    the route takes no other) answers, for a day object whose hourly member
    is an array, with the element of that array at the hour's number (so 07
    is hour 7); 404 "Path not found" when the array is too short; and 400 for
    an hour above 23, whatever the data. *)
Theorem hour_shorthand_indexes_hourly
    (server : RestServer) (date hour : string) (fields : list (string * Json))
    (items : list Json) :
  isIndex hour = true ->
  is_Some (priceService server) ->
  _fetchPriceObject server date = Some (JObj fields) ->
  lookupField "hourly" fields = Some (JArr items) ->
  routeHour decodeURIComponent server date hour
  = if (23 <? parseHour hour)%N then _sendError 400 "Invalid hour. Must be 0-23."
    else match items !! N.to_nat (parseHour hour) with
         | Some value => sendJson value
         | None => _sendError 404 ("Path not found: /hourly/" +:+ pretty (parseHour hour))
         end.
Proof.
  intros _ Hps Hobj Hhourly.
  unfold routeHour. destruct Hps as [ps Hps]. rewrite Hps.
  rewrite (fetched_date_valid _ _ _ Hobj). simpl.
  destruct (N.ltb_spec 23 (parseHour hour)) as [|Hle]; [done|].
  rewrite (resolveRoute_fetched _ _ _ _ _ (JObj fields)) by (try done; by eexists).
  pose proof (hourSegment_ok _ Hle) as Hseg. unfold hourSegment in Hseg.
  repeat (apply andb_prop in Hseg as [Hseg ?]).
  apply bool_decide_eq_true_1 in Hseg.
  unfold _getByPath.
  destruct (isRootPath ("hourly/" +:+ pretty (parseHour hour))); [done|].
  rewrite Hseg. simpl. rewrite !decode_plain by done. simpl.
  rewrite Hhourly. simpl.
  destruct (isIndex (pretty (parseHour hour))); [|done].
  rewrite nth_lookup.
  replace (indexOf (pretty (parseHour hour))) with (parseHour hour)
    by (symmetry; by apply N.eqb_eq).
  by destruct (items !! N.to_nat (parseHour hour)).
Qed.

End Paths.

Lemma plainDecode_plain (s : string) : percentFree s = true -> plainDecode s = Some s.
Proof. intros Hs. unfold plainDecode. by rewrite Hs. Qed.

Lemma _getByPath_composes_witness :
  _getByPath plainDecode sampleDay "hourly/0" = Ok (Some (JObj [("spotPrice", JNum "0.5")]))
  /\ _getByPath plainDecode sampleDay ("hourly/0" +:+ "/" +:+ "spotPrice")
     = _getByPath plainDecode (JObj [("spotPrice", JNum "0.5")]) "spotPrice".
Proof.
  split; [reflexivity|].
  apply (_getByPath_composes plainDecode sampleDay _ "hourly/0" "spotPrice");
    [reflexivity|discriminate|reflexivity|reflexivity].
Defined.

Lemma hour_shorthand_indexes_hourly_witness :
  routeHour plainDecode (cachedServer sampleDay) "2025-10-10" "07"
  = sendJson (JObj [("spotPrice", JNum "0.5")])
  /\ routeHour plainDecode (cachedServer sampleDay) "2025-10-10" "24"
     = _sendError 400 "Invalid hour. Must be 0-23.".
Proof.
  split.
  - exact (hour_shorthand_indexes_hourly plainDecode plainDecode_plain
             (cachedServer sampleDay) "2025-10-10" "07" _ _
             eq_refl (ex_intro _ _ eq_refl) eq_refl eq_refl).
  - exact (hour_shorthand_indexes_hourly plainDecode plainDecode_plain
             (cachedServer sampleDay) "2025-10-10" "24" _ _
             eq_refl (ex_intro _ _ eq_refl) eq_refl eq_refl).
Defined.

End RestMore.

(* ===================================================================== *)
(** * More on the price manager                                           *)
(* ===================================================================== *)

Module ManagerMoreFacts.
Import Json Js Manager Cli ManagerMore ManagerFacts CliFacts Samples.

(** ** Worlds and their events *)

Lemma replay_app (evs1 evs2 : list Event) (w : World) :
  replay (evs1 ++ evs2) w = replay evs2 (replay evs1 w).
Proof. apply foldl_app. Qed.

Lemma trace_after (e : Event) (w : World) : trace (after e w) = trace w ++ [e].
Proof. by destruct e as [| |[]|[]| |]. Qed.

Lemma trace_replay (evs : list Event) (w : World) : trace (replay evs w) = trace w ++ evs.
Proof.
  revert w. induction evs as [|e evs IH]; intros w.
  - simpl. by rewrite app_nil_r.
  - change (replay (e :: evs) w) with (replay evs (after e w)).
    rewrite IH, trace_after. by rewrite <- app_assoc.
Qed.

Lemma sameCaches_refl (w : World) : sameCaches w w.
Proof. done. Qed.

Lemma sameCaches_replay (evs : list Event) (w : World) :
  Forall (fun e => isWrite e = false) evs -> sameCaches w (replay evs w).
Proof.
  intros Hevs. revert w. induction Hevs as [|e evs He _ IH]; intros w; [done|].
  change (replay (e :: evs) w) with (replay evs (after e w)).
  destruct (IH (after e w)) as (H1 & H2 & H3).
  unfold sameCaches. rewrite H1, H2, H3. by destruct e as [| |[]|[]| |].
Qed.

Lemma priceCache_replay (evs : list Event) (w : World) :
  Forall (fun e => isPriceEffect e = false) evs -> priceCache (replay evs w) = priceCache w.
Proof.
  intros Hevs. revert w. induction Hevs as [|e evs He _ IH]; intros w; [done|].
  change (replay (e :: evs) w) with (replay evs (after e w)).
  rewrite IH. by destruct e as [| |[]|[]| |].
Qed.

(** ** Calls whose events are all of one kind *)

Lemma emitsOnly_quiet {A : Type} (P : Event -> bool) (m : M A) :
  (forall w, (m w).2 = w) -> emitsOnly P m.
Proof. intros Hm w. exists []. by rewrite Hm. Qed.

Lemma emitsOnly_ret {A : Type} (P : Event -> bool) (a : A) : emitsOnly P (ret a).
Proof. by apply emitsOnly_quiet. Qed.

Lemma emitsOnly_throw {A : Type} (P : Event -> bool) (message : string) :
  emitsOnly P (@throw A message).
Proof. by apply emitsOnly_quiet. Qed.

Lemma emitsOnly_lift {A : Type} (P : Event -> bool) (r : result A) : emitsOnly P (lift r).
Proof. by apply emitsOnly_quiet. Qed.

Lemma emitsOnly_has (P : Event -> bool) (c : CacheName) (key : string) :
  emitsOnly P (has c key).
Proof. by apply emitsOnly_quiet. Qed.

Lemma emitsOnly_retrieveObject (P : Event -> bool) (c : CacheName) (key : string) :
  emitsOnly P (retrieveObject c key).
Proof. by apply emitsOnly_quiet. Qed.

Lemma emitsOnly_keys (P : Event -> bool) (c : CacheName) : emitsOnly P (keys c).
Proof. by apply emitsOnly_quiet. Qed.

Lemma emitsOnly_bind {A B : Type} (P : Event -> bool) (m : M A) (k : A -> M B) :
  emitsOnly P m -> (forall a, emitsOnly P (k a)) -> emitsOnly P (bindM m k).
Proof.
  intros Hm Hk w. unfold bindM. destruct (Hm w) as (evs1 & Hw1 & Hevs1).
  destruct (m w) as [[a|message] w1]; simpl in *; [|by exists evs1].
  destruct (Hk a w1) as (evs2 & Hw2 & Hevs2).
  exists (evs1 ++ evs2). rewrite replay_app, <- Hw1. split; [done|]. by apply Forall_app.
Qed.

Lemma emitsOnly_tryCatch {A : Type} (P : Event -> bool) (body : M A)
    (handler : string -> M A) :
  emitsOnly P body -> (forall message, emitsOnly P (handler message)) ->
  emitsOnly P (tryCatch body handler).
Proof.
  intros Hb Hh w. unfold tryCatch. destruct (Hb w) as (evs1 & Hw1 & Hevs1).
  destruct (body w) as [[a|message] w1]; simpl in *; [by exists evs1|].
  destruct (Hh message w1) as (evs2 & Hw2 & Hevs2).
  exists (evs1 ++ evs2). rewrite replay_app, <- Hw1. split; [done|]. by apply Forall_app.
Qed.

Lemma emitsOnly_forEach {A : Type} (P : Event -> bool) (items : list A) (body : A -> M unit) :
  (forall x, emitsOnly P (body x)) -> emitsOnly P (forEach items body).
Proof.
  intros Hbody. induction items as [|x items IH]; simpl.
  - apply emitsOnly_ret.
  - apply emitsOnly_bind; [apply Hbody|]. intros _. apply IH.
Qed.

Lemma emitsOnly_emit (P : Event -> bool) (e : Event) :
  isWrite e = false -> P e = true -> emitsOnly P (emit e).
Proof.
  intros Hw HP w. exists [e]. split; [|by constructor].
  by destruct e as [| |[]|[]| |].
Qed.

Lemma emitsOnly_createObject (P : Event -> bool) (c : CacheName) (key : string) (value : Json) :
  P (EvCreateObject c key value) = true -> emitsOnly P (createObject c key value).
Proof. intros HP w. exists [EvCreateObject c key value]. split; [by destruct c|by constructor]. Qed.

Lemma emitsOnly_deleteObject (P : Event -> bool) (c : CacheName) (key : string) :
  P (EvDeleteObject c key) = true -> emitsOnly P (deleteObject c key).
Proof. intros HP w. exists [EvDeleteObject c key]. split; [by destruct c|by constructor]. Qed.

Lemma emitsOnly_clearRates (P : Event -> bool) :
  P EvClearRates = true -> emitsOnly P clearRates.
Proof. intros HP w. exists [EvClearRates]. split; [done|by constructor]. Qed.

Lemma emitsOnly_weaken {A : Type} (P Q : Event -> bool) (m : M A) :
  (forall e, P e = true -> Q e = true) -> emitsOnly P m -> emitsOnly Q m.
Proof.
  intros HPQ Hm w. destruct (Hm w) as (evs & Hw & Hevs). exists evs. split; [done|].
  eapply Forall_impl; [exact Hevs|]. apply HPQ.
Qed.

Create HintDb emits_only.
#[local] Hint Resolve emitsOnly_ret emitsOnly_throw emitsOnly_lift emitsOnly_has
  emitsOnly_retrieveObject emitsOnly_keys : emits_only.

Ltac emits_only :=
  repeat first
    [ solve [auto with emits_only]
    | apply emitsOnly_emit; reflexivity
    | apply emitsOnly_createObject; reflexivity
    | apply emitsOnly_deleteObject; reflexivity
    | apply emitsOnly_clearRates; reflexivity
    | apply emitsOnly_tryCatch; [|intros ?]
    | apply emitsOnly_bind; [|intros ?]
    | apply emitsOnly_forEach; intros ?
    | match goal with
      | |- emitsOnly _ (if ?b then _ else _) => destruct b
      | |- emitsOnly _ (match ?x with _ => _ end) => destruct x
      end ].

Lemma emitsOnly_priceDataExists (P : Event -> bool) (env : Env) (dateStr : string) :
  emitsOnly P (priceDataExists env dateStr).
Proof. unfold priceDataExists, ensureCacheReady. emits_only. Qed.

Lemma emitsOnly_getPriceDataByDate (P : Event -> bool) (env : Env) (dateStr : string) :
  emitsOnly P (getPriceDataByDate env dateStr).
Proof. unfold getPriceDataByDate, ensureCacheReady. emits_only. Qed.

Lemma emitsOnly_listPriceKeys (P : Event -> bool) (env : Env) :
  emitsOnly P (listPriceKeys env).
Proof. unfold listPriceKeys, ensureCacheReady. emits_only. Qed.

Lemma emitsOnly_getAllCachedDates (P : Event -> bool) (env : Env) :
  emitsOnly P (getAllCachedDates env).
Proof.
  unfold getAllCachedDates, ensureCacheReady.
  pose proof (emitsOnly_listPriceKeys P env). emits_only.
Qed.

#[local] Hint Resolve emitsOnly_priceDataExists emitsOnly_getPriceDataByDate
  emitsOnly_listPriceKeys emitsOnly_getAllCachedDates : emits_only.

(** ** fetchPricesOnly on a date that is not cached *)

Lemma priceDataExists_absent (env : Env) (dateStr : string) (w : World) :
  cacheReady env = Ok tt ->
  backendMisses env (getPriceKey dateStr) ->
  priceCache w !! getPriceKey dateStr = None ->
  priceDataExists env dateStr w = (Ok false, w).
Proof.
  intros Hready Hmiss Hnone. unfold priceDataExists, ensureCacheReady, bindM, lift.
  rewrite Hready. unfold backendMisses in Hmiss.
  assert (match backendHas env with
          | Some backendHas => match backendHas (getPriceKey dateStr) with
                               | Ok exists_ => exists_ | Throw _ => false end
          | None => false end = false) as ->.
  { destruct (backendHas env) as [backendHas|]; [|done].
    destruct (backendHas (getPriceKey dateStr)) as [[]|]; done. }
  unfold has. simpl. rewrite Hnone. by rewrite bool_decide_eq_false_2 by by intros [? ?].
Qed.

Lemma priceDataExists_ready (env : Env) (dateStr : string) (w : World) :
  cacheReady env = Ok tt ->
  exists answer, priceDataExists env dateStr w = (Ok answer, w).
Proof.
  intros Hready. unfold priceDataExists, ensureCacheReady, bindM, lift. rewrite Hready.
  destruct (match backendHas env with
            | Some backendHas => match backendHas (getPriceKey dateStr) with
                                 | Ok exists_ => exists_ | Throw _ => false end
            | None => false end); by eexists.
Qed.

Lemma fetchPricesOnly_miss_eq (env : Env) (dayOffset : Z) (preferSource : string) (w : World) :
  cacheReady env = Ok tt ->
  backendMisses env (getPriceKey (getDateForOffset env dayOffset)) ->
  priceCache w !! getPriceKey (getDateForOffset env dayOffset) = None ->
  fetchPricesOnly env dayOffset preferSource w
  = let w1 := after (EvFetchPrices dayOffset preferSource) (ensureCurrencyRates env w).2 in
    match fetchDayAheadPrices env dayOffset preferSource with
    | Ok prices =>
        (Ok (Some prices),
         after (EvCreateObject PriceCache (getPriceKey (getDateForOffset env dayOffset)) prices)
           w1)
    | Throw message => (Throw message, w1)
    end.
Proof.
  intros Hready Hmiss Hnone.
  unfold fetchPricesOnly, tryCatch, bindM at 1, ensureCacheReady at 1, lift.
  rewrite Hready. unfold bindM at 1.
  pose proof (ensureCurrencyRates_returns env w) as Hret.
  pose proof (keepsPrices_ensureCurrencyRates env w) as Hkeep.
  destruct (ensureCurrencyRates env w) as [r w1]. simpl in Hret, Hkeep. subst r.
  unfold bindM at 1.
  rewrite (priceDataExists_absent env _ w1) by (try done; by rewrite (proj1 Hkeep)).
  unfold fetchPrices, bindM, emit, lift, createObject, bindM, emit, ret. simpl.
  by destruct (fetchDayAheadPrices env dayOffset preferSource).
Qed.

Lemma filter_price_effects (evs : list Event) :
  Forall (fun e => isPriceEffect e = false) evs ->
  filter (fun e => isPriceEffect e = true) evs = [].
Proof.
  induction 1 as [|e evs He _ IH]; [done|].
  rewrite filter_cons, decide_False by (by rewrite He). exact IH.
Qed.

(** X12.  For a date that neither the cache nor its backend holds, when the
    upstream source answers: fetchPricesOnly returns the fetched object and
    stores it under prices-<date>; of what it does, the upstream fetch and
    then the store are all that concerns prices.  A second call then returns
    the same object without another fetch. *)
Theorem fetchPricesOnly_stores_fetched
    (env : Env) (dayOffset : Z) (preferSource : string) (prices : Json) (w : World) :
  cacheReady env = Ok tt ->
  backendMisses env (getPriceKey (getDateForOffset env dayOffset)) ->
  priceCache w !! getPriceKey (getDateForOffset env dayOffset) = None ->
  fetchDayAheadPrices env dayOffset preferSource = Ok prices ->
  let key := getPriceKey (getDateForOffset env dayOffset) in
  let first := fetchPricesOnly env dayOffset preferSource w in
  let second := fetchPricesOnly env dayOffset preferSource first.2 in
  first.1 = Ok (Some prices)
  /\ priceCache first.2 = <[key := prices]> (priceCache w)
  /\ (exists evs, trace first.2 = trace w ++ evs
                  /\ filter (fun e => isPriceEffect e = true) evs
                     = [EvFetchPrices dayOffset preferSource;
                        EvCreateObject PriceCache key prices])
  /\ second.1 = Ok (Some prices)
  /\ pricesUntouched first.2 second.2.
Proof.
  intros Hready Hmiss Hnone Hfetch key first second.
  assert (first = (Ok (Some prices),
                   after (EvCreateObject PriceCache key prices)
                     (after (EvFetchPrices dayOffset preferSource)
                        (ensureCurrencyRates env w).2))) as Hfirst.
  { unfold first. rewrite fetchPricesOnly_miss_eq by done. simpl. by rewrite Hfetch. }
  destruct (keepsPrices_ensureCurrencyRates env w) as [Hp (evs & Ht & Hevs)].
  assert (priceCache first.2 = <[key := prices]> (priceCache w)) as Hcache.
  { rewrite Hfirst. simpl. by rewrite Hp. }
  split; [by rewrite Hfirst|]. split; [done|]. split.
  { exists (evs ++ [EvFetchPrices dayOffset preferSource;
                    EvCreateObject PriceCache key prices]).
    split.
    - rewrite Hfirst. simpl. rewrite Ht. by rewrite <- !app_assoc.
    - rewrite filter_app, filter_price_effects by done. reflexivity. }
  apply (fetchPricesOnly_hit env dayOffset preferSource prices first.2 Hready).
  rewrite Hcache. apply lookup_insert_eq.
Qed.

Lemma fetchPricesOnly_not_ready (env : Env) (dayOffset : Z) (preferSource message : string)
    (w : World) :
  cacheReady env = Throw message ->
  fetchPricesOnly env dayOffset preferSource w = (Throw message, w).
Proof.
  intros Hready. unfold fetchPricesOnly, tryCatch, bindM, ensureCacheReady, lift.
  by rewrite Hready.
Qed.

Lemma fetchPricesOnly_ready (env : Env) (dayOffset : Z) (preferSource : string) (w : World) :
  cacheReady env = Ok tt ->
  let key := getPriceKey (getDateForOffset env dayOffset) in
  let w1 := (ensureCurrencyRates env w).2 in
  let w2 := after (EvFetchPrices dayOffset preferSource) w1 in
  fetchPricesOnly env dayOffset preferSource w
  = match (priceDataExists env (getDateForOffset env dayOffset) w1).1 with
    | Ok true => (Ok (priceCache w1 !! key), w1)
    | _ =>
        match fetchDayAheadPrices env dayOffset preferSource with
        | Ok prices => (Ok (Some prices), after (EvCreateObject PriceCache key prices) w2)
        | Throw message => (Throw message, w2)
        end
    end.
Proof.
  intros Hready. cbv zeta.
  unfold fetchPricesOnly, tryCatch, bindM at 1, ensureCacheReady at 1, lift.
  rewrite Hready. unfold bindM at 1.
  pose proof (ensureCurrencyRates_returns env w) as Hret.
  destruct (ensureCurrencyRates env w) as [r w1]. simpl in Hret. subst r.
  unfold bindM at 1. simpl.
  destruct (priceDataExists_ready env (getDateForOffset env dayOffset) w1 Hready)
    as [answer ->].
  simpl. destruct answer; [done|].
  unfold fetchPrices, bindM, emit, lift, createObject, bindM, emit, ret. simpl.
  by destruct (fetchDayAheadPrices env dayOffset preferSource).
Qed.

(** X13.  For a date that neither the cache nor its backend holds, when the
    upstream source fails: fetchPricesOnly throws that failure, and nothing
    is stored: the price cache is as it was, and the upstream fetch is all it
    did that concerns prices. *)
Theorem fetchPricesOnly_failure_stores_nothing
    (env : Env) (dayOffset : Z) (preferSource message : string) (w : World) :
  cacheReady env = Ok tt ->
  backendMisses env (getPriceKey (getDateForOffset env dayOffset)) ->
  priceCache w !! getPriceKey (getDateForOffset env dayOffset) = None ->
  fetchDayAheadPrices env dayOffset preferSource = Throw message ->
  (fetchPricesOnly env dayOffset preferSource w).1 = Throw message
  /\ priceCache (fetchPricesOnly env dayOffset preferSource w).2 = priceCache w
  /\ exists evs,
       trace (fetchPricesOnly env dayOffset preferSource w).2 = trace w ++ evs
       /\ filter (fun e => isPriceEffect e = true) evs
          = [EvFetchPrices dayOffset preferSource].
Proof.
  intros Hready Hmiss Hnone Hfetch.
  rewrite fetchPricesOnly_miss_eq by done. cbv zeta. rewrite Hfetch. simpl.
  destruct (keepsPrices_ensureCurrencyRates env w) as [Hp (evs & Ht & Hevs)].
  split; [done|]. split; [done|].
  exists (evs ++ [EvFetchPrices dayOffset preferSource]). split.
  - by rewrite Ht, <- app_assoc.
  - rewrite filter_app, filter_price_effects by done. reflexivity.
Qed.

Lemma fetchPricesOnly_stores_fetched_witness :
  (fetchPricesOnly (sampleEnv (rates "t1")) 2 "nordpool" sampleWorld).1
  = Ok (Some (dayObject "2025-10-15"))
  /\ priceCache (fetchPricesOnly (sampleEnv (rates "t1")) 2 "nordpool" sampleWorld).2
     = <["prices-2025-10-17" := dayObject "2025-10-15"]> (priceCache sampleWorld).
Proof.
  pose proof (fetchPricesOnly_stores_fetched (sampleEnv (rates "t1")) 2 "nordpool"
                (dayObject "2025-10-15") sampleWorld eq_refl I
                ltac:(vm_compute; reflexivity) eq_refl) as H.
  cbv zeta in H. destruct H as (H1 & H2 & _). split; [exact H1|exact H2].
Defined.

Lemma fetchPricesOnly_failure_stores_nothing_witness :
  (fetchPricesOnly sweepEnv 2 "nordpool" sampleWorld).1 = Throw "not ready"
  /\ priceCache (fetchPricesOnly sweepEnv 2 "nordpool" sampleWorld).2 = priceCache sampleWorld.
Proof.
  pose proof (fetchPricesOnly_failure_stores_nothing sweepEnv 2 "nordpool" "not ready"
                sampleWorld eq_refl I ltac:(vm_compute; reflexivity) eq_refl) as H.
  destruct H as (H1 & H2 & _). split; [exact H1|exact H2].
Defined.

(** ** Currency rates *)

Lemma ensureCurrencyRates_not_ready (env : Env) (message : string) (w : World) :
  currencyCacheReady env = Throw message -> ensureCurrencyRates env w = (Ok tt, w).
Proof.
  intros Hready. unfold ensureCurrencyRates, tryCatch, bindM, lift. by rewrite Hready.
Qed.

(** X14.  ensureCurrencyRates never throws.  It leaves the world alone when
    the currency cache cannot be initialised, and when the record under
    currencies-latest is dated today (the UTC date); without a record under
    currencies-latest it does what fetchAndStoreCurrencyRates does. *)
Theorem ensureCurrencyRates_refreshes_when_stale (env : Env) (w : World) :
  (ensureCurrencyRates env w).1 = Ok tt
  /\ (forall message, currencyCacheReady env = Throw message ->
        (ensureCurrencyRates env w).2 = w)
  /\ (forall fields, currencyCacheReady env = Ok tt ->
        currencyCache w !! latestKey = Some (JObj fields) ->
        lookupField "date" fields = Some (JStr (isoDate (now env))) ->
        (ensureCurrencyRates env w).2 = w)
  /\ (currencyCacheReady env = Ok tt ->
      currencyCache w !! latestKey = None ->
      (ensureCurrencyRates env w).2 = (fetchAndStoreCurrencyRates env w).2).
Proof.
  split; [apply ensureCurrencyRates_returns|]. split; [|split].
  - intros message Hready. by rewrite (ensureCurrencyRates_not_ready env message).
  - intros fields Hready Hlatest Hdate.
    unfold ensureCurrencyRates, tryCatch, bindM, lift, retrieveObject. rewrite Hready. simpl.
    fold latestKey. rewrite Hlatest. simpl. rewrite Hdate. by rewrite String.eqb_refl.
  - intros Hready Hlatest.
    unfold ensureCurrencyRates, tryCatch, bindM, lift, retrieveObject. rewrite Hready. simpl.
    fold latestKey. rewrite Hlatest.
    by destruct (fetchAndStoreCurrencyRates env w) as [[data|message] w1].
Qed.

(** X15.  After a fetch cycle that fetched a record (a JSON object): the
    record is returned; the cache holds under the record's date key a truthy
    record with the signature of the fetched one, and holds something under
    currencies-latest; the price cache is as it was. *)
Theorem fetchAndStoreCurrencyRates_settles
    (env : Env) (fields : list (string * Json)) (w : World) :
  currencyCacheReady env = Ok tt ->
  fetchCurrencies env = Ok (JObj fields) ->
  let w' := (fetchAndStoreCurrencyRates env w).2 in
  (fetchAndStoreCurrencyRates env w).1 = Ok (JObj fields)
  /\ (exists stored, currencyCache w' !! dateKeyOf fields = Some stored
                     /\ truthy stored = true
                     /\ stableStringify (stripFetchedAt stored)
                        = stableStringify (stripFetchedAt (JObj fields)))
  /\ is_Some (currencyCache w' !! latestKey)
  /\ priceCache w' = priceCache w.
Proof.
  intros Hready Hfetch. cbv zeta.
  rewrite (fetchAndStoreCurrencyRates_eq env fields w) by done. simpl.
  destruct (cycleWorld_settled fields w) as [[stored Hstored] Hlatest].
  split; [done|]. split; [|split; [done|]].
  - unfold unchangedRecord, sameSignature in Hstored.
    destruct (currencyCache (cycleWorld fields w) !! dateKeyOf fields) as [e|]; [|done].
    destruct (truthy e) eqn:Ht; [|done]. simpl in Hstored.
    case_bool_decide as Hsig; [|done]. by exists e.
  - unfold cycleWorld. destruct (unchangedRecord fields w); [|done]. by case_bool_decide.
Qed.

Lemma fetchAndStoreCurrencyRates_settles_witness :
  (fetchAndStoreCurrencyRates (sampleEnv (rates "t1")) sampleWorld).1 = Ok (JObj (rates "t1"))
  /\ is_Some (currencyCache (fetchAndStoreCurrencyRates (sampleEnv (rates "t1")) sampleWorld).2
                !! latestKey).
Proof.
  pose proof (fetchAndStoreCurrencyRates_settles (sampleEnv (rates "t1")) (rates "t1")
                sampleWorld eq_refl eq_refl) as H.
  cbv zeta in H. destruct H as (H1 & _ & H2 & _). split; [exact H1|exact H2].
Defined.

Lemma fetchAndStoreCurrencyRates_returns (env : Env) (data : Json) (w : World) :
  currencyCacheReady env = Ok tt -> fetchCurrencies env = Ok data -> data <> JNull ->
  (fetchAndStoreCurrencyRates env w).1 = Ok data.
Proof.
  intros Hready Hfetch Hdata.
  unfold fetchAndStoreCurrencyRates, tryCatch, bindM, lift, emit, retrieveObject, has,
    createObject, clearRates, bindM, emit, ret.
  rewrite Hready, Hfetch.
  destruct data; try done; simpl; repeat case_match; simplify_eq; done.
Qed.

(** X16.  A fetch cycle of the currency rates that fails before it has
    anything to store writes nothing.  When the currency cache cannot be
    initialised, fetchAndStoreCurrencyRates throws that failure and does
    nothing; when the upstream source fails it throws that failure, and when
    the upstream source answers null it throws as well: in both cases the
    caches and the rate table are as they were and the upstream fetch is all
    that was done. *)
Theorem fetchAndStoreCurrencyRates_failure_writes_nothing (env : Env) (w : World) :
  let call := fetchAndStoreCurrencyRates env w in
  (forall message, currencyCacheReady env = Throw message -> call = (Throw message, w))
  /\ (forall message, currencyCacheReady env = Ok tt ->
        fetchCurrencies env = Throw message ->
        call.1 = Throw message
        /\ sameCaches w call.2 /\ trace call.2 = trace w ++ [EvFetchCurrencies])
  /\ (currencyCacheReady env = Ok tt ->
      fetchCurrencies env = Ok JNull ->
      (exists message, call.1 = Throw message)
      /\ sameCaches w call.2 /\ trace call.2 = trace w ++ [EvFetchCurrencies]).
Proof.
  cbv zeta. split; [|split].
  - intros message Hready. by apply fetchAndStoreCurrencyRates_not_ready.
  - intros message Hready Hfetch.
    unfold fetchAndStoreCurrencyRates, tryCatch, bindM, lift, emit.
    by rewrite Hready, Hfetch.
  - intros Hready Hfetch.
    unfold fetchAndStoreCurrencyRates, tryCatch, bindM, lift, emit.
    rewrite Hready, Hfetch. simpl. split; [by eexists|done].
Qed.

Lemma fetchAndStoreCurrencyRates_failure_writes_nothing_witness :
  (fetchAndStoreCurrencyRates sweepEnv currencyWorld).1 = Throw "not ready"
  /\ sameCaches currencyWorld (fetchAndStoreCurrencyRates sweepEnv currencyWorld).2.
Proof.
  pose proof (fetchAndStoreCurrencyRates_failure_writes_nothing sweepEnv currencyWorld) as H.
  cbv zeta in H. destruct H as (_ & H & _).
  destruct (H "not ready" eq_refl eq_refl) as (H1 & H2 & _). split; [exact H1|exact H2].
Defined.

(** ** cleanupOldCache *)










(** ** getAllCachedDates *)

Lemma substring_full (s : string) : String.substring 0 (String.length s) s = s.
Proof. induction s as [|a s IH]; [done|]. simpl. by rewrite IH. Qed.

Lemma prefix_split (p key : string) :
  String.prefix p key = true ->
  key = p +:+ String.substring (String.length p) (String.length key - String.length p) key.
Proof.
  revert key. induction p as [|a p IH]; intros key.
  - intros _. simpl. by rewrite Nat.sub_0_r, substring_full.
  - destruct key as [|b key]; [done|]. simpl.
    destruct (ascii_dec a b) as [<-|]; [|done]. intros Hp.
    change (String a p +:+ ?s) with (String a (p +:+ s)). f_equal. by apply IH.
Qed.

Lemma prefix_app (p s : string) : String.prefix p (p +:+ s) = true.
Proof.
  induction p as [|a p IH]; [by destruct s|].
  change (String a p +:+ s) with (String a (p +:+ s)). simpl.
  by destruct (ascii_dec a a).
Qed.

Lemma priceDateOfKey_getPriceKey (dateStr : string) :
  priceDateOfKey (getPriceKey dateStr) = dateStr.
Proof.
  unfold priceDateOfKey, getPriceKey, PRICE_KEY_PREFIX. simpl.
  rewrite Nat.sub_0_r. apply substring_full.
Qed.

Lemma getPriceKey_priceDateOfKey (key : string) :
  String.prefix PRICE_KEY_PREFIX key = true -> getPriceKey (priceDateOfKey key) = key.
Proof. intros Hp. symmetry. by apply prefix_split. Qed.

(** X18.  On a ready cache whose backend has no key listing of its own,
    getAllCachedDates returns, without repetition, exactly the dates D for
    which the price cache holds an entry under prices-D: the dates for which
    getPriceDataByDate finds an object. *)
Theorem getAllCachedDates_lists_cached (env : Env) (w : World) :
  cacheReady env = Ok tt ->
  backendKeys env = None ->
  exists dates,
    getAllCachedDates env w = (Ok dates, w)
    /\ NoDup dates
    /\ forall dateStr,
         dateStr ∈ dates
         <-> exists obj, (getPriceDataByDate env dateStr w).1 = Ok (Some obj).
Proof.
  intros Hready Hkeys.
  unfold getAllCachedDates, listPriceKeys, ensureCacheReady, bindM, lift, keys, ret.
  rewrite Hready, Hkeys. simpl. eexists. split; [reflexivity|].
  fold priceDateOfKey.
  set (ks := map fst (map_to_list (priceCache w))).
  assert (NoDup ks) as Hnd by apply NoDup_fst_map_to_list.
  assert (forall key, key ∈ ks <-> is_Some (priceCache w !! key)) as Hks.
  { intros key. unfold ks. rewrite list_elem_of_In, in_map_iff. split.
    - intros ([k v] & <- & Hin). apply list_elem_of_In, elem_of_map_to_list in Hin.
      by eexists.
    - intros [v Hv]. exists (key, v). split; [done|].
      by apply list_elem_of_In, elem_of_map_to_list. }
  split.
  - match goal with |- NoDup (map ?f ?l) => change (NoDup (f <$> l)) end.
    apply NoDup_fmap_2_strong; [|by apply NoDup_filter].
    intros k1 k2 H1 H2 Heq.
    apply list_elem_of_filter in H1 as [H1 _].
    apply list_elem_of_filter in H2 as [H2 _].
    transitivity (getPriceKey (priceDateOfKey k1));
      [symmetry; by apply getPriceKey_priceDateOfKey|].
    transitivity (getPriceKey (priceDateOfKey k2));
      [|by apply getPriceKey_priceDateOfKey].
    unfold priceDateOfKey. f_equal. exact Heq.
  - intros dateStr. rewrite (getPriceDataByDate_ok env dateStr w Hready). simpl.
    rewrite list_elem_of_In, in_map_iff. split.
    + intros (key & <- & Hin). apply list_elem_of_In, list_elem_of_filter in Hin as [Hp Hin].
      change (String.substring 7 (String.length key - 7) key) with (priceDateOfKey key).
      rewrite getPriceKey_priceDateOfKey by done.
      apply Hks in Hin as [obj Hobj]. exists obj. by rewrite Hobj.
    + intros [obj [= Hobj]]. assert (is_Some (priceCache w !! getPriceKey dateStr)) as Hsome
        by by eexists.
      exists (getPriceKey dateStr).
      split; [apply priceDateOfKey_getPriceKey|].
      apply list_elem_of_In, list_elem_of_filter. split; [apply prefix_app|by apply Hks].
Qed.

Lemma getAllCachedDates_lists_cached_witness :
  exists dates,
    getAllCachedDates sweepEnv MoreSamples.agedWorld = (Ok dates, MoreSamples.agedWorld)
    /\ NoDup dates
    /\ ("2025-10-14" ∈ dates) /\ ~ ("2025-10-15" ∈ dates).
Proof.
  destruct (getAllCachedDates_lists_cached sweepEnv MoreSamples.agedWorld eq_refl eq_refl)
    as (dates & Heq & Hnd & Hin).
  exists dates. split; [exact Heq|]. split; [exact Hnd|]. split.
  - apply Hin. eexists. vm_compute. reflexivity.
  - intros H. apply Hin in H as [obj Hobj]. vm_compute in Hobj. discriminate.
Defined.

(** ** fetchAndProcessPrices *)

Section Mqtt.
Variable waitForConnect : result unit.

(** What fetchAndProcessPrices does, the callbacks of the upstream fetcher
    apart. *)
Lemma fetchAndProcessPrices_events
    (cfg : Config) (env : Env) (dayOffset : Z) (preferSource : string) (w : World) :
  let w' := (fetchAndProcessPrices waitForConnect cfg env dayOffset preferSource w).2 in
  sameCaches w w'
  /\ (trace w' = trace w ++ [EvFetchPrices dayOffset preferSource]
      \/ (mqttClient cfg && enableMqtt cfg = true
          /\ exists topic payload,
               trace w' = trace w ++ [EvFetchPrices dayOffset preferSource;
                                      EvPublish topic payload true 1]))
  /\ (forall fields,
        mqttClient cfg && enableMqtt cfg = true ->
        waitForConnect = Ok tt ->
        fetchDayAheadPrices env dayOffset preferSource = Ok (JObj fields) ->
        (forall topic payload, mqttPublish env topic payload = Ok tt) ->
        (fetchAndProcessPrices waitForConnect cfg env dayOffset preferSource w).1
        = Ok (JObj fields)
        /\ trace w'
           = trace w ++ [EvFetchPrices dayOffset preferSource;
                         EvPublish (priceTopic cfg +:+ "/"
                                    +:+ toStringOpt (lookupField "priceDate" fields))
                           (stringify2 (JObj fields)) true 1]).
Proof.
  cbv zeta.
  unfold fetchAndProcessPrices, publishToMqtt, publish, fetchPrices, tryCatch, bindM,
    emit, lift, ret, throw.
  simpl.
  destruct (fetchDayAheadPrices env dayOffset preferSource) as [prices|message] eqn:Hfetch;
    simpl;
    [destruct (mqttClient cfg) eqn:Hclient, (enableMqtt cfg) eqn:Henabled; simpl;
     [destruct waitForConnect as [[]|message] eqn:Hconnect; simpl;
      [destruct (getProp prices "priceDate") as [priceDate|message] eqn:Hdate; simpl;
       [match goal with |- context [mqttPublish env ?t ?p] =>
          destruct (mqttPublish env t p) as [[]|message] eqn:Hack end; simpl|]|]|..]|];
    (split; [done|]);
    (split; [first [by left
                   |right; split; [done|]; do 2 eexists; by rewrite <- app_assoc]|]);
    intros fields Hon Hconnected Hfetched Hacked; simplify_eq;
    try (by rewrite Hacked in Hack).
  simpl in Hdate. injection Hdate as <-. split; [done|]. by rewrite <- app_assoc.
Qed.

(** X19.  fetchAndProcessPrices fetches upstream every time and stores no
    prices: the price cache is as it was, and, what concerns the currency
    rates apart, what it does is the upstream fetch, followed by at most one
    retained publish, and by none when MQTT is off.  With MQTT on, the broker
    connected and the publish acknowledged, a fetched object is published in
    the two-space layout on <price topic>/<its priceDate> and returned. *)
Theorem fetchAndProcessPrices_stores_no_prices
    (cfg : Config) (env : Env) (dayOffset : Z) (preferSource : string) (w : World) :
  let w' := (fetchAndProcessPrices waitForConnect cfg env dayOffset preferSource w).2 in
  priceCache w' = priceCache w
  /\ (exists evs,
        trace w' = trace w ++ evs
        /\ (filter (fun e => concernsRates e = false) evs
            = [EvFetchPrices dayOffset preferSource]
            \/ (mqttClient cfg && enableMqtt cfg = true
                /\ exists topic payload,
                     filter (fun e => concernsRates e = false) evs
                     = [EvFetchPrices dayOffset preferSource;
                        EvPublish topic payload true 1])))
  /\ (forall fields,
        mqttClient cfg && enableMqtt cfg = true ->
        waitForConnect = Ok tt ->
        fetchDayAheadPrices env dayOffset preferSource = Ok (JObj fields) ->
        (forall topic payload, mqttPublish env topic payload = Ok tt) ->
        (fetchAndProcessPrices waitForConnect cfg env dayOffset preferSource w).1
        = Ok (JObj fields)
        /\ exists evs,
             trace w' = trace w ++ evs
             /\ filter (fun e => concernsRates e = false) evs
                = [EvFetchPrices dayOffset preferSource;
                   EvPublish (priceTopic cfg +:+ "/"
                              +:+ toStringOpt (lookupField "priceDate" fields))
                     (stringify2 (JObj fields)) true 1]).
Proof.
  cbv zeta.
  destruct (fetchAndProcessPrices_events cfg env dayOffset preferSource w)
    as (Hcaches & Htrace & Hpublished).
  cbv zeta in Hcaches, Htrace, Hpublished.
  split; [apply Hcaches|]. split.
  - destruct Htrace as [Ht|(Hon & topic & payload & Ht)]; eexists; (split; [exact Ht|]).
    + by left.
    + right. split; [done|]. by exists topic, payload.
  - intros fields Hon Hconnected Hfetched Hacked.
    destruct (Hpublished fields Hon Hconnected Hfetched Hacked) as [Hresult Ht].
    split; [done|]. eexists. split; [exact Ht|done].
Qed.

End Mqtt.

(** ** getCurrencyRate *)

Section Rates.
Variable toUpperCase : string -> string.
Variable toNumber : Json -> Json.
Variable priceCurrency : option string.

Lemma getCurrencyRate_known (env : Env) (currencyCode : option string) (rate : Json)
    (w : World) :
  String.eqb (codeOf toUpperCase priceCurrency currencyCode) "EUR" = false ->
  currencyRateCache w !! codeOf toUpperCase priceCurrency currencyCode = Some rate ->
  getCurrencyRate toUpperCase toNumber priceCurrency env currencyCode w = (Ok rate, w).
Proof.
  intros Hcode Hknown. unfold getCurrencyRate. rewrite Hcode.
  unfold bindM, getRate. by rewrite Hknown.
Qed.

Lemma getCurrencyRate_cases (env : Env) (currencyCode : option string) (rate : Json)
    (w w1 : World) :
  getCurrencyRate toUpperCase toNumber priceCurrency env currencyCode w = (Ok rate, w1) ->
  (String.eqb (codeOf toUpperCase priceCurrency currencyCode) "EUR" = true
   /\ rate = JNum "1" /\ w1 = w)
  \/ (String.eqb (codeOf toUpperCase priceCurrency currencyCode) "EUR" = false
      /\ currencyRateCache w1 !! codeOf toUpperCase priceCurrency currencyCode = Some rate).
Proof.
  unfold getCurrencyRate.
  destruct (String.eqb (codeOf toUpperCase priceCurrency currencyCode) "EUR") eqn:Hcode.
  { intros [= <- <-]. by left. }
  intros Hcall. right. split; [done|]. revert Hcall.
  unfold bindM at 1, getRate. cbn [fst snd].
  destruct (currencyRateCache w !! codeOf toUpperCase priceCurrency currencyCode)
    as [known|] eqn:Hknown.
  { by intros [= <- <-]. }
  unfold bindM at 1, lift. destruct (currencyCacheReady env) as [[]|message]; [|done].
  unfold bindM at 1, retrieveObject. cbn [fst snd].
  unfold bindM at 1.
  match goal with |- context [match ?m w with _ => _ end] =>
    destruct (m w) as [[latest|message] w2] end; [|done].
  destruct (rateIn latest (codeOf toUpperCase priceCurrency currencyCode)) as [raw|]; [|done].
  unfold setRate, bindM, ret. intros [= <- <-]. simpl. apply lookup_insert_eq.
Qed.

(** X20.  getCurrencyRate remembers what it answered: once it has returned
    a rate for a currency, asking again returns the same rate and changes
    nothing, without reading the cache or fetching.  For EUR the rate is 1
    and nothing is touched at all. *)
Theorem getCurrencyRate_memoised (env : Env) (currencyCode : option string) (rate : Json)
    (w : World) :
  (getCurrencyRate toUpperCase toNumber priceCurrency env currencyCode w).1 = Ok rate ->
  let w1 := (getCurrencyRate toUpperCase toNumber priceCurrency env currencyCode w).2 in
  getCurrencyRate toUpperCase toNumber priceCurrency env currencyCode w1 = (Ok rate, w1)
  /\ (codeOf toUpperCase priceCurrency currencyCode = "EUR" -> rate = JNum "1" /\ w1 = w).
Proof.
  destruct (getCurrencyRate toUpperCase toNumber priceCurrency env currencyCode w)
    as [r w1] eqn:Hcall.
  simpl. intros ->.
  destruct (getCurrencyRate_cases _ _ _ _ _ Hcall) as [(Hcode & -> & ->)|[Hcode Hknown]].
  - split; [|done]. unfold getCurrencyRate. by rewrite Hcode.
  - split; [by apply getCurrencyRate_known|].
    intros Heur. by rewrite Heur in Hcode.
Qed.

End Rates.

Lemma getCurrencyRate_memoised_witness :
  (getCurrencyRate MoreSamples.sampleUpper (fun raw => raw) None (sampleEnv (rates "t1"))
     (Some "nok") sampleWorld).1 = Ok (JNum "11.72")
  /\ (getCurrencyRate MoreSamples.sampleUpper (fun raw => raw) None (sampleEnv (rates "t1"))
        (Some "nok")
        (getCurrencyRate MoreSamples.sampleUpper (fun raw => raw) None
           (sampleEnv (rates "t1")) (Some "nok") sampleWorld).2).1
     = Ok (JNum "11.72").
Proof.
  assert ((getCurrencyRate MoreSamples.sampleUpper (fun raw => raw) None
             (sampleEnv (rates "t1")) (Some "nok") sampleWorld).1 = Ok (JNum "11.72")) as H
    by (vm_compute; reflexivity).
  split; [exact H|].
  pose proof (getCurrencyRate_memoised MoreSamples.sampleUpper (fun raw => raw) None
                (sampleEnv (rates "t1")) (Some "nok") (JNum "11.72") sampleWorld H) as Hm.
  cbv zeta in Hm. by rewrite (proj1 Hm).
Defined.

End ManagerMoreFacts.

(* ===================================================================== *)
(** * More on the publish cycle and the fetch cycle                       *)
(* ===================================================================== *)

Module SchedulerFacts.
Import Json Js Manager Cli ManagerMore Scheduler ManagerFacts CliFacts ManagerMoreFacts Samples.

(** ** Counting publishes *)

Lemma emitsAtMost_quiet {A : Type} (P : Event -> bool) (n : nat) (m : M A) :
  (forall w, (m w).2 = w) -> emitsAtMost P n m.
Proof. intros Hm w. exists []. rewrite Hm. repeat split; [done|simpl; lia]. Qed.

Lemma emitsAtMost_weaken {A : Type} (P : Event -> bool) (n n' : nat) (m : M A) :
  (n <= n')%nat -> emitsAtMost P n m -> emitsAtMost P n' m.
Proof.
  intros Hn Hm w. destruct (Hm w) as (evs & Hw & Hevs & Hlen).
  exists evs. repeat split; [done..|lia].
Qed.

Lemma emitsAtMost_bind {A B : Type} (P : Event -> bool) (n1 n2 : nat) (m : M A)
    (k : A -> M B) :
  emitsAtMost P n1 m -> (forall a, emitsAtMost P n2 (k a)) ->
  emitsAtMost P (n1 + n2) (bindM m k).
Proof.
  intros Hm Hk w. unfold bindM. destruct (Hm w) as (evs1 & Hw1 & Hevs1 & Hlen1).
  destruct (m w) as [[a|message] w1]; simpl in *.
  - destruct (Hk a w1) as (evs2 & Hw2 & Hevs2 & Hlen2).
    exists (evs1 ++ evs2). rewrite replay_app, <- Hw1. split; [done|].
    split; [by apply Forall_app|]. rewrite length_app. lia.
  - exists evs1. repeat split; [done..|lia].
Qed.

Lemma emitsAtMost_tryCatch_ret {A : Type} (P : Event -> bool) (n : nat) (body : M A) (a : A) :
  emitsAtMost P n body -> emitsAtMost P n (tryCatch body (fun _ => ret a)).
Proof.
  intros Hb w. unfold tryCatch. destruct (Hb w) as (evs & Hw & Hevs & Hlen).
  destruct (body w) as [[b|message] w1]; simpl in *; by exists evs.
Qed.

Lemma append_assoc (a b c : string) : (a +:+ b) +:+ c = a +:+ b +:+ c.
Proof.
  induction a as [|x a IH]; [done|].
  change ((String x a +:+ b) +:+ c) with (String x ((a +:+ b) +:+ c)).
  by rewrite IH.
Qed.

Lemma prefix_topic (cfg : Config) (date : string) :
  String.prefix (priceTopic cfg +:+ "/") (topicOf cfg date) = true.
Proof. unfold topicOf. rewrite <- append_assoc. apply prefix_app. Qed.

Lemma emitsAtMost_publish (cfg : Config) (env : Env) (date payload : string) :
  emitsAtMost (isPublish cfg) 1 (publish env (topicOf cfg date) payload).
Proof.
  intros w. exists [EvPublish (topicOf cfg date) payload true 1]. split; [|split].
  - unfold publish, bindM, emit, lift. simpl.
    by destruct (mqttPublish env (topicOf cfg date) payload).
  - constructor; [|done]. simpl. by rewrite prefix_topic.
  - simpl. lia.
Qed.

Lemma getPriceDataByDate_world (env : Env) (dateStr : string) (w : World) :
  (getPriceDataByDate env dateStr w).2 = w.
Proof.
  unfold getPriceDataByDate, ensureCacheReady, bindM, lift.
  by destruct (cacheReady env) as [[]|].
Qed.

Lemma priceDataExists_world (env : Env) (dateStr : string) (w : World) :
  (priceDataExists env dateStr w).2 = w.
Proof.
  unfold priceDataExists, ensureCacheReady, bindM, lift.
  destruct (cacheReady env) as [[]|]; [|done].
  by destruct (match backendHas env with
               | Some backendHas => match backendHas (getPriceKey dateStr) with
                                    | Ok exists_ => exists_ | Throw _ => false end
               | None => false end).
Qed.

Lemma getAllCachedDates_world (env : Env) (w : World) : (getAllCachedDates env w).2 = w.
Proof.
  unfold getAllCachedDates, listPriceKeys, ensureCacheReady, bindM, lift.
  destruct (cacheReady env) as [[]|]; [|done].
  by destruct (backendKeys env) as [[listed|message]|].
Qed.

Lemma emitsAtMost_publishCached (cfg : Config) (env : Env) (date : string) :
  emitsAtMost (isPublish cfg) 1 (publishCached cfg env date).
Proof.
  unfold publishCached. apply (emitsAtMost_bind _ 0 1).
  - apply emitsAtMost_quiet, getPriceDataByDate_world.
  - intros [data|]; [|by apply emitsAtMost_quiet].
    destruct (truthy data); [apply emitsAtMost_publish|by apply emitsAtMost_quiet].
Qed.

Lemma emitsAtMost_unpublishCached (cfg : Config) (env : Env) (date : string) :
  emitsAtMost (isPublish cfg) 1 (unpublishCached cfg env date).
Proof.
  unfold unpublishCached. apply (emitsAtMost_bind _ 0 1).
  - apply emitsAtMost_quiet, getPriceDataByDate_world.
  - intros data.
    destruct (truthyOpt data); [apply emitsAtMost_publish|by apply emitsAtMost_quiet].
Qed.

Lemma handleMqttPublishing_returns (cfg : Config) (env : Env) (w : World) :
  (handleMqttPublishing cfg env w).1 = Ok tt.
Proof.
  unfold handleMqttPublishing. destruct (negb (mqttClient cfg) || negb (enableMqtt cfg)); [done|].
  unfold tryCatch.
  match goal with |- context [match ?b w with _ => _ end] => destruct (b w) as [[[]|m] w1] end;
    reflexivity.
Qed.

(** X21.  handleMqttPublishing never throws and never changes a cache or the
    rate table.  All it does is publish: at most three messages, each
    retained, with qos 1, on a topic below the price topic; and none at all
    when MQTT is off or no client is set. *)
Theorem handleMqttPublishing_only_publishes (cfg : Config) (env : Env) (w : World) :
  let w' := (handleMqttPublishing cfg env w).2 in
  (handleMqttPublishing cfg env w).1 = Ok tt
  /\ sameCaches w w'
  /\ exists evs,
       trace w' = trace w ++ evs
       /\ Forall (fun e => isPublish cfg e = true) evs
       /\ (length evs <= 3)%nat
       /\ (mqttClient cfg && enableMqtt cfg = false -> evs = []).
Proof.
  cbv zeta. split; [apply handleMqttPublishing_returns|].
  assert (emitsAtMost (isPublish cfg) 3 (handleMqttPublishing cfg env)) as Hcount.
  { unfold handleMqttPublishing.
    destruct (negb (mqttClient cfg) || negb (enableMqtt cfg)); [by apply emitsAtMost_quiet|].
    apply emitsAtMost_tryCatch_ret.
    apply (emitsAtMost_bind _ 0 3); [apply emitsAtMost_quiet, getAllCachedDates_world|intros _].
    apply (emitsAtMost_bind _ 0 3); [apply emitsAtMost_quiet, getAllCachedDates_world|intros _].
    apply (emitsAtMost_bind _ 0 3); [apply emitsAtMost_quiet, priceDataExists_world|].
    intros [|].
    - apply (emitsAtMost_bind _ 1 2); [apply emitsAtMost_publishCached|intros _].
      apply (emitsAtMost_bind _ 1 1); [apply emitsAtMost_publishCached|intros _].
      apply emitsAtMost_unpublishCached.
    - apply (emitsAtMost_bind _ 1 2); [apply emitsAtMost_publishCached|intros _].
      apply (emitsAtMost_bind _ 1 1); [apply emitsAtMost_publishCached|intros _].
      apply emitsAtMost_unpublishCached. }
  destruct (Hcount w) as (evs & Hw & Hevs & Hlen).
  assert (Forall (fun e => isWrite e = false) evs) as Hquiet.
  { eapply Forall_impl; [exact Hevs|]. by intros [| | | | |]. }
  split; [rewrite Hw; by apply sameCaches_replay|].
  exists evs. rewrite Hw, trace_replay. repeat split; [done..|].
  intros Hoff.
  assert ((handleMqttPublishing cfg env w).2 = w) as Hsame.
  { unfold handleMqttPublishing.
    by destruct (mqttClient cfg), (enableMqtt cfg). }
  rewrite Hsame in Hw. apply (f_equal trace) in Hw. rewrite trace_replay in Hw.
  rewrite <- (app_nil_r (trace w)) in Hw at 1. by apply app_inv_head in Hw.
Qed.

(** ** The branch without tomorrow's prices *)



(** ** A publish that fails *)



(** ** The next-day window *)

Lemma includes_elem_of (values : list Z) (v : Z) : includes values v = true <-> v ∈ values.
Proof.
  unfold includes. rewrite existsb_exists. split.
  - intros (x & Hin & Hx). apply Z.eqb_eq in Hx as ->. by apply list_elem_of_In.
  - intros Hin. exists v. split; [by apply list_elem_of_In|apply Z.eqb_refl].
Qed.

Lemma mathMax_step (values : list Z) (best : option Z) :
  match foldl (fun best v => match best with Some b => Some (Z.max b v) | None => Some v end)
          best values with
  | None => best = None /\ values = []
  | Some m => (best = Some m \/ m ∈ values)
              /\ (forall b, best = Some b -> b <= m)
              /\ (forall h, h ∈ values -> h <= m)
  end.
Proof.
  revert best. induction values as [|v values IH]; intros best.
  - simpl. destruct best as [b|]; [|done]. split; [by left|]. split.
    + by intros ? [= <-].
    + by intros h Hh%elem_of_nil.
  - simpl. specialize (IH (match best with Some b => Some (Z.max b v) | None => Some v end)).
    destruct (foldl _ _ values) as [m|].
    + destruct IH as (Hin & Hbest & Hall). split; [|split].
      * destruct Hin as [Hin|Hin]; [|right; by apply list_elem_of_further].
        destruct best as [b|]; injection Hin as <-.
        -- destruct (Z.max_spec b v) as [[_ ->]|[_ ->]];
             [right; apply list_elem_of_here|by left].
        -- right. apply list_elem_of_here.
      * intros b ->. specialize (Hbest _ eq_refl). lia.
      * intros h Hh. apply elem_of_cons in Hh as [->|Hh]; [|by apply Hall].
        destruct best as [b|]; specialize (Hbest _ eq_refl); lia.
    + destruct IH as [Hbest _]. by destruct best.
Qed.

Lemma mathMax_spec (values : list Z) :
  match mathMax values with
  | None => values = []
  | Some m => m ∈ values /\ forall h, h ∈ values -> h <= m
  end.
Proof.
  unfold mathMax. pose proof (mathMax_step values None) as H.
  destruct (foldl _ None values) as [m|].
  - destruct H as ([?|?] & _ & ?); done.
  - apply H.
Qed.

(** X24.  shouldFetchNextDay allows the fetch of tomorrow's prices exactly
    at a scheduled hour and minute, and at any time in an hour after the
    last scheduled hour.  With the defaults (13:00) that is at 13:00 and from
    14:00 on, and not from 13:01 to 13:59. *)
Theorem shouldFetchNextDay_window (config : Schedule) (reference : Z) :
  (shouldFetchNextDay config reference = true
   <-> (getHours reference ∈ hoursOf config /\ getMinutes reference ∈ minutesOf config)
       \/ (forall h, h ∈ hoursOf config -> h < getHours reference))
  /\ (scheduleHours config = [] -> scheduleMinutes config = [] ->
      nextDayFetchHour config = None -> nextDayFetchMinute config = None ->
      (shouldFetchNextDay config reference = true
       <-> (getHours reference = 13 /\ getMinutes reference = 0)
           \/ 14 <= getHours reference)).
Proof.
  assert (shouldFetchNextDay config reference = true
          <-> (getHours reference ∈ hoursOf config /\ getMinutes reference ∈ minutesOf config)
              \/ (forall h, h ∈ hoursOf config -> h < getHours reference)) as Hiff.
  { unfold shouldFetchNextDay.
    rewrite <- !includes_elem_of.
    destruct (includes (hoursOf config) (getHours reference)
              && includes (minutesOf config) (getMinutes reference)) eqn:Hat.
    - apply andb_prop in Hat. split; [by left|done].
    - pose proof (mathMax_spec (hoursOf config)) as Hmax.
      destruct (mathMax (hoursOf config)) as [latest|].
      + destruct Hmax as [Hin Hall]. rewrite Z.ltb_lt. split.
        * intros Hlt. right. intros h Hh. specialize (Hall h Hh). lia.
        * intros [[H1 H2]|Hlt]; [by rewrite H1, H2 in Hat|by apply Hlt].
      + split; [|done]. intros _. right. rewrite Hmax. by intros h Hh%elem_of_nil. }
  split; [exact Hiff|].
  intros Hh Hm Hdh Hdm. rewrite Hiff. unfold hoursOf, minutesOf.
  rewrite Hh, Hm, Hdh, Hdm. simpl. rewrite !list_elem_of_singleton. split.
  - intros [[? ?]|Hlt]; [by left|]. right. specialize (Hlt 13). rewrite list_elem_of_singleton in Hlt.
    specialize (Hlt eq_refl). lia.
  - intros [[? ?]|Hle]; [by left|]. right. intros h ->%list_elem_of_singleton. lia.
Qed.

(** ** uniqueNumbers *)

Lemma dedupe_step (values seen : list Z) :
  NoDup seen ->
  NoDup (foldl (fun seen v => if includes seen v then seen else seen ++ [v]) seen values)
  /\ forall x, x ∈ foldl (fun seen v => if includes seen v then seen else seen ++ [v])
                     seen values
               <-> x ∈ seen \/ x ∈ values.
Proof.
  revert seen. induction values as [|v values IH]; intros seen Hnd.
  - simpl. split; [done|]. intros x. rewrite elem_of_nil. tauto.
  - simpl. destruct (includes seen v) eqn:Hv.
    + destruct (IH seen Hnd) as [Hnd' Hin]. split; [done|].
      intros x. rewrite Hin, elem_of_cons. apply includes_elem_of in Hv.
      split; [tauto|]. intros [?|[->|?]]; tauto.
    + assert (v ∉ seen) as Hout.
      { intros Hin%includes_elem_of. by rewrite Hin in Hv. }
      destruct (IH (seen ++ [v])) as [Hnd' Hin].
      { apply NoDup_app. split; [done|]. split; [|apply NoDup_singleton].
        intros x Hx ->%list_elem_of_singleton. done. }
      split; [done|]. intros x. rewrite Hin, elem_of_app, list_elem_of_singleton, elem_of_cons.
      tauto.
Qed.

Lemma Sorted_le_lt (l : list Z) : Sorted Z.le l -> NoDup l -> Sorted Z.lt l.
Proof.
  intros Hs%(Sorted_StronglySorted _) Hnd.
  induction Hs as [|x l Hs IH Hall]; [constructor|].
  apply NoDup_cons in Hnd as [Hx Hnd]. constructor; [by apply IH|].
  destruct l as [|y l]; constructor.
  apply Forall_cons in Hall as [Hle _].
  assert (x <> y) by (intros ->; apply Hx; apply list_elem_of_here). lia.
Qed.

(** X25.  uniqueNumbers returns the numbers of its argument (NaN left out)
    in strictly ascending order: each of them once. *)
Theorem uniqueNumbers_strictly_ascending (values : list (option Z)) :
  Sorted Z.lt (uniqueNumbers values)
  /\ forall x, x ∈ uniqueNumbers values <-> Some x ∈ values.
Proof.
  unfold uniqueNumbers, dedupe.
  destruct (dedupe_step (omap (fun v => v) values) []) as [Hnd Hin]; [constructor|].
  set (seen := foldl _ [] _) in *.
  split.
  - apply Sorted_le_lt.
    + apply (NormalizerFacts.sortBy_sorted (fun v : Z => v)).
    + by rewrite (NormalizerFacts.sortBy_perm (fun v : Z => v) seen).
  - intros x. rewrite (NormalizerFacts.sortBy_perm (fun v : Z => v) seen).
    rewrite Hin, elem_of_nil, list_elem_of_omap. split.
    + intros [[]|(o & Ho & ->)]. done.
    + intros Hx. right. by exists (Some x).
Qed.

(** ** safeFetchAndProcess *)

Lemma priceDataExists_same (env : Env) (dateStr : string) (w w1 : World) :
  priceCache w1 = priceCache w ->
  (priceDataExists env dateStr w1).1 = (priceDataExists env dateStr w).1.
Proof.
  intros Hsame. unfold priceDataExists, ensureCacheReady, bindM, lift.
  destruct (cacheReady env) as [[]|]; [|done].
  destruct (match backendHas env with
            | Some backendHas => match backendHas (getPriceKey dateStr) with
                                 | Ok exists_ => exists_ | Throw _ => false end
            | None => false end); [done|].
  unfold has. simpl. by rewrite Hsame.
Qed.

Lemma priceDataExists_not_ready (env : Env) (dateStr message : string) (w : World) :
  cacheReady env = Throw message -> priceDataExists env dateStr w = (Throw message, w).
Proof.
  intros Hready. unfold priceDataExists, ensureCacheReady, bindM, lift. by rewrite Hready.
Qed.

Lemma tryCatch_ret_returns {A : Type} (body : M A) (a : A) (w : World) :
  exists answer, (tryCatch body (fun _ => ret a) w).1 = Ok answer.
Proof. unfold tryCatch. destruct (body w) as [[b|message] w1]; by eexists. Qed.

(** X26.  safeFetchAndProcess never throws.  For tomorrow before the
    next-day window it answers null and does nothing; for a date the cache
    holds it answers the cached object and does nothing, not even look at
    the currency rates.  In every case the price cache is afterwards either
    as it was, or holds the object that was fetched, and returned, under the
    date's key. *)
Theorem safeFetchAndProcess_never_throws
    (config : Schedule) (env : Env) (dayOffset : Z) (priceFetchPriority : string) (w : World) :
  let call := safeFetchAndProcess config env dayOffset priceFetchPriority w in
  let key := getPriceKey (getDateForOffset env dayOffset) in
  (exists answer, call.1 = Ok answer)
  /\ (dayOffset = 1 -> shouldFetchNextDay config (localNow env) = false ->
      call = (Ok (Some JNull), w))
  /\ (forall obj, cacheReady env = Ok tt ->
        (dayOffset = 1 -> shouldFetchNextDay config (localNow env) = true) ->
        priceCache w !! key = Some obj ->
        call = (Ok (Some obj), w))
  /\ (priceCache call.2 = priceCache w
      \/ exists prices,
           fetchDayAheadPrices env dayOffset priceFetchPriority = Ok prices
           /\ call.1 = Ok (Some prices)
           /\ priceCache call.2 = <[key := prices]> (priceCache w)).
Proof.
  cbv zeta. split; [apply tryCatch_ret_returns|]. split; [|split].
  - intros -> Hnot. unfold safeFetchAndProcess, tryCatch. by rewrite Hnot.
  - intros obj Hready Hallowed Hobj. unfold safeFetchAndProcess, tryCatch.
    assert ((dayOffset =? 1) && negb (shouldFetchNextDay config (localNow env)) = false) as ->.
    { destruct (Z.eqb_spec dayOffset 1) as [H1|]; [|done]. by rewrite (Hallowed H1). }
    rewrite (bindM_ok _ _ _ _ _ (priceDataExists_cached env _ obj w Hready Hobj)).
    by rewrite getPriceDataByDate_ok, Hobj.
  - unfold safeFetchAndProcess, tryCatch.
    destruct ((dayOffset =? 1) && negb (shouldFetchNextDay config (localNow env)));
      [by left|].
    destruct (cacheReady env) as [[]|message] eqn:Hready.
    2:{ unfold bindM. rewrite (priceDataExists_not_ready env _ message) by done. by left. }
    destruct (priceDataExists_ready env (getDateForOffset env dayOffset) w Hready)
      as [answer Hanswer].
    rewrite (bindM_ok _ _ _ _ _ Hanswer). destruct answer.
    { rewrite getPriceDataByDate_ok by done. by left. }
    unfold bindM. rewrite fetchPricesOnly_ready by done. cbv zeta.
    pose proof (keepsPrices_ensureCurrencyRates env w) as [Hkeep _].
    rewrite (priceDataExists_same env _ w _ Hkeep), Hanswer. simpl.
    destruct (fetchDayAheadPrices env dayOffset priceFetchPriority) as [prices|message];
      [|by left].
    right. exists prices. split; [done|].
    destruct prices; simpl; by rewrite Hkeep.
Qed.

(** ** runFetchCycle *)

Lemma forEach_unchanged {A : Type} (items : list A) (body : A -> M unit) (w : World) :
  (forall x, x ∈ items -> body x w = (Ok tt, w)) -> forEach items body w = (Ok tt, w).
Proof.
  induction items as [|x items IH]; intros Hbody; [done|].
  cbn [forEach]. unfold bindM. rewrite (Hbody x) by apply list_elem_of_here.
  apply IH. intros y Hy. apply Hbody. by apply list_elem_of_further.
Qed.

Lemma fetchDay_settled (config : Schedule) (env : Env) (allow : bool) (i : Z) (w : World) :
  cacheReady env = Ok tt ->
  (i = 1 /\ allow = false) \/ is_Some (priceCache w !! getPriceKey (getDateForOffset env i)) ->
  fetchDay config env allow i w = (Ok tt, w).
Proof.
  intros Hready Hcase. unfold fetchDay, tryCatch.
  destruct ((i =? 1) && negb allow) eqn:Hskip; [done|].
  destruct Hcase as [[-> ->]|[obj Hobj]]; [done|].
  by rewrite (bindM_ok _ _ _ _ _ (priceDataExists_cached env _ obj w Hready Hobj)).
Qed.

Lemma fetchDay_not_ready (config : Schedule) (env : Env) (allow : bool) (i : Z)
    (message : string) (w : World) :
  cacheReady env = Throw message -> fetchDay config env allow i w = (Ok tt, w).
Proof.
  intros Hready. unfold fetchDay, tryCatch.
  destruct ((i =? 1) && negb allow); [done|].
  unfold bindM. by rewrite (priceDataExists_not_ready env _ message).
Qed.

#[local] Hint Resolve emitsOnly_ret emitsOnly_throw emitsOnly_lift emitsOnly_has
  emitsOnly_retrieveObject emitsOnly_keys emitsOnly_priceDataExists
  emitsOnly_getPriceDataByDate emitsOnly_listPriceKeys emitsOnly_getAllCachedDates
  : emits_only.

Lemma emitsOnly_cleanupOldCache (cfg : Config) (keepDays : option Z) (env : Env) :
  emitsOnly (fun e => negb (isFetch e)) (cleanupOldCache cfg keepDays env).
Proof.
  unfold cleanupOldCache, ensureCacheReady, sweepPriceKey, cleanupCurrencyCache, sweepKey.
  emits_only.
Qed.

Lemma emitsOnly_handleMqttPublishing (cfg : Config) (env : Env) :
  emitsOnly (fun e => negb (isFetch e)) (handleMqttPublishing cfg env).
Proof.
  unfold handleMqttPublishing, publishCached, unpublishCached, publish. emits_only.
Qed.

(** X27.  When the cache is ready and holds the prices of every day the
    cycle visits (the last keepDays days and, inside the next-day window,
    tomorrow), runFetchCycle fetches nothing: the loop over the days changes
    nothing, the cycle is the clean-up followed by the publish cycle, and
    none of its events is an upstream fetch, of prices or of currency
    rates. *)
Theorem runFetchCycle_fetches_nothing_when_cached
    (cfg : Config) (config : Schedule) (env : Env) (w : World) :
  cacheReady env = Ok tt ->
  (forall i, visited config env i ->
     is_Some (priceCache w !! getPriceKey (getDateForOffset env i))) ->
  runFetchCycle cfg config env w
  = (cleanupOldCache cfg (keepDays config) env ;;; handleMqttPublishing cfg env) w
  /\ exists evs,
       trace (runFetchCycle cfg config env w).2 = trace w ++ evs
       /\ Forall (fun e => isFetch e = false) evs.
Proof.
  intros Hready Hcached.
  assert (runFetchCycle cfg config env w
          = (cleanupOldCache cfg (keepDays config) env ;;; handleMqttPublishing cfg env) w)
    as Heq.
  { unfold runFetchCycle. unfold bindM at 1. rewrite forEach_unchanged; [done|].
    intros i Hi%elem_of_seqZ. apply fetchDay_settled; [done|].
    destruct (decide (i = 1 /\ shouldFetchNextDay config (localNow env) = false))
      as [?|Hvisit]; [by left|].
    right. apply Hcached. split; [lia|]. intros ->.
    destruct (shouldFetchNextDay config (localNow env)); [done|]. by destruct Hvisit. }
  split; [exact Heq|]. rewrite Heq.
  assert (emitsOnly (fun e => negb (isFetch e))
            (cleanupOldCache cfg (keepDays config) env ;;; handleMqttPublishing cfg env))
    as Hquiet.
  { apply emitsOnly_bind; [apply emitsOnly_cleanupOldCache|].
    intros _. apply emitsOnly_handleMqttPublishing. }
  destruct (Hquiet w) as (evs & -> & Hevs). exists evs. rewrite trace_replay.
  split; [done|]. eapply Forall_impl; [exact Hevs|].
  intros e He. simpl in He. by apply negb_true_iff in He.
Qed.

Lemma runFetchCycle_fetches_nothing_when_cached_witness :
  exists evs,
    trace (runFetchCycle sampleConfig MoreSamples.twoDays (sampleEnv (rates "t1"))
             sampleWorld).2 = trace sampleWorld ++ evs
    /\ Forall (fun e => isFetch e = false) evs.
Proof.
  apply (runFetchCycle_fetches_nothing_when_cached sampleConfig MoreSamples.twoDays
           (sampleEnv (rates "t1")) sampleWorld eq_refl).
  intros i [Hwindow _]. change (1 - 2 <= i <= 1) in Hwindow.
  assert (i = -1 \/ i = 0 \/ i = 1) as Hi by lia.
  destruct Hi as [Hi|[Hi|Hi]]; rewrite Hi; vm_compute; by eexists.
Defined.

(** X28.  When the price cache cannot be initialised, the loop of
    runFetchCycle swallows the failure for every day, and the clean-up that
    follows does not: the cycle throws that failure, having done nothing. *)
Theorem runFetchCycle_needs_the_cache
    (cfg : Config) (config : Schedule) (env : Env) (message : string) (w : World) :
  cacheReady env = Throw message ->
  runFetchCycle cfg config env w = (Throw message, w).
Proof.
  intros Hready. unfold runFetchCycle. unfold bindM at 1.
  rewrite forEach_unchanged by (intros i _; by apply (fetchDay_not_ready _ _ _ _ message)).
  unfold bindM at 1, cleanupOldCache, bindM, ensureCacheReady, lift. by rewrite Hready.
Qed.

Lemma runFetchCycle_needs_the_cache_witness :
  runFetchCycle sampleConfig MoreSamples.twoDays MoreSamples.brokenEnv sampleWorld
  = (Throw "EACCES", sampleWorld).
Proof.
  exact (runFetchCycle_needs_the_cache sampleConfig MoreSamples.twoDays MoreSamples.brokenEnv
           "EACCES" sampleWorld eq_refl).
Defined.

End SchedulerFacts.
